(** * Tab Manager new-tab page: view-model handlers and storage adapters

    A shallow embedding of [entrypoints/newtab/App.vue] (the script part),
    [entrypoints/newtab/storage.ts] (the bookmark adapter and the UI-state
    store) and the storage-backed loaders that follow the type declarations
    in [entrypoints/newtab/types.ts], with the properties of the
    specification proved about them.

    Every handler of the page runs on the UI thread; an [await] suspends the
    handler until the browser answers.  A handler is embedded as one
    computation in a state-and-exception monad over the reactive fields of
    the page and the part of the browser the adapters talk to; a handler
    runs to its end before the next one starts. *)

From Stdlib Require Import ZArith Ascii String List Permutation.
From stdpp Require Import base option list strings pretty gmap sorting.

Open Scope string_scope.
Open Scope list_scope.

(** ** Data model ([types.ts], [App.vue]) *)

Record TabItem := mkTabItem {
  tab_id : string;
  tab_title : string;
  tab_url : string;
  tab_favicon : string
}.

(** [Collection] of [types.ts], with the [expanded] field that [App.vue]
    adds to the loaded objects ([None] is JavaScript's [undefined]). *)
Record Collection := mkCollection {
  col_id : string;
  col_name : string;
  col_tabs : list TabItem;
  col_createdAt : Z;
  col_groupId : string;
  col_expanded : option bool
}.

Record Group := mkGroup {
  grp_id : string;
  grp_name : string;
  grp_createdAt : Z
}.

(** [interface BrowserTab] of [App.vue]: every field is optional. *)
Record BrowserTab := mkBrowserTab {
  bt_id : option Z;
  bt_url : option string;
  bt_title : option string;
  bt_favIconUrl : option string
}.

(** A node of the browser's bookmark tree, as the bookmarks API returns it. *)
Record BookmarkNode := mkBookmarkNode {
  bm_id : string;
  bm_title : string;
  bm_url : option string;
  bm_dateAdded : option Z
}.

(** [interface CollectionUIState] of [storage.ts]. *)
Record CollectionUIState := mkUIState {
  expanded : bool;
  order : Z
}.

(** [interface CollectionUIStates]: an object used as a map from a
    collection id to its UI state.  The map holds the own properties of
    the object. *)
Abbreviation CollectionUIStates := (gmap string CollectionUIState).

(** The names of the members that every object inherits from
    [Object.prototype]: eleven functions and the accessor [__proto__]. *)
Definition Object_prototype_names : list string :=
  ["constructor"; "hasOwnProperty"; "isPrototypeOf"; "propertyIsEnumerable";
   "toLocaleString"; "toString"; "valueOf"; "__defineGetter__";
   "__defineSetter__"; "__lookupGetter__"; "__lookupSetter__"; "__proto__"].

(** [states\[id\] = value].  The assignment creates or overwrites an own
    property, except under the name [__proto__] when the object has no own
    property of that name: it then reaches the setter that the object
    inherits, which replaces the prototype of the object and stores
    nothing. *)
Definition js_assign (id : string) (value : CollectionUIState)
    (states : CollectionUIStates) : CollectionUIStates :=
  if String.eqb id "__proto__" && negb (bool_decide (is_Some (states !! id)))
  then states
  else <[id := value]> states.

(** The marker of a dragged saved tab, [{ collectionId, tabId }]. *)
Record DraggedTab := mkDraggedTab {
  dt_collectionId : string;
  dt_tabId : string
}.

(** ** JavaScript values and array operations used by the handlers *)

(** Truthiness of a string: only the empty string is falsy. *)
Definition truthy (s : string) : bool := negb (String.eqb s "").

(** Truthiness of a [string | null] or [string | undefined] value. *)
Definition truthy_opt (o : option string) : bool :=
  match o with Some s => truthy s | None => false end.

(** [a || b] on a possibly undefined string. *)
Definition or_else (o : option string) (d : string) : string :=
  match o with
  | Some s => if truthy s then s else d
  | None => d
  end.

(** [arr.findIndex(p)]: [None] stands for the result [-1]. *)
Fixpoint findIndex {A} (p : A -> bool) (l : list A) : option nat :=
  match l with
  | [] => None
  | x :: l' => if p x then Some 0 else S <$> findIndex p l'
  end.

(** [arr.splice(start, deleteCount, ...items)] for [0 <= start]: the removed
    elements and the array after the call.  A [start] past the end is
    clamped to the length, which [take] and [drop] do. *)
Definition splice {A} (start deleteCount : nat) (items : list A) (l : list A)
  : list A * list A :=
  (take deleteCount (drop start l),
   take start l ++ items ++ drop (start + deleteCount) l).

(** [arr.push(x)]. *)
Definition push {A} (x : A) (l : list A) : list A := l ++ [x].

(** [arr.some(p)] is [existsb p arr], [arr.find(p)] is [find p arr] and
    [arr.filter(p)] is [filter p arr] of the standard library. *)
Definition some {A} (p : A -> bool) (l : list A) : bool := existsb p l.

(** ** The browser, as far as the page calls it

    The log records, in order, every call of an exported function of
    [storage.ts] and every call that [App.vue] makes to the browser itself.
    It is not part of the program: it is what the properties about calls
    are stated with. *)
Inductive Call :=
| CallCreateGroup (name : string)
| CallDeleteGroup (groupId : string)
| CallUpdateGroup (groupId name : string)
| CallCreateCollection (name groupId : string)
| CallDeleteCollection (collectionId : string)
| CallUpdateCollection (collectionId name : string)
| CallAddTabToCollection (collectionId title url favicon : string)
| CallRemoveTabFromCollection (tabId : string)
| CallMoveTab (tabId targetCollectionId : string)
| CallMoveGroupToIndex (groupId : string) (index : nat)
| CallBookmarksUpdate (id title : string)
| CallTabsQuery
| CallLoadCollectionUIStates
| CallSaveCollectionUIStates (states : CollectionUIStates)
| CallRemoveCollectionUIState (collectionId : string)
| CallUpdateCollectionUIState (collectionId : string)
    (newExpanded : option bool) (newOrder : option Z).

(** What the browser answers.  Each answer may depend on the arguments and
    on everything that was called before, so that any sequence of successes
    and failures is some [Browser].  [None] and [false] stand for a rejected
    promise.  The two built-ins at the end are left open as well: the
    properties hold whatever they compute. *)
Record Browser := mkBrowser {
  bookmarks_get : list Call -> string -> bool;
  bookmarks_search : list Call -> string -> option (list BookmarkNode);
  bookmarks_create :
    list Call -> string -> string -> option string -> option BookmarkNode;
  bookmarks_update : list Call -> string -> string -> bool;
  bookmarks_move : list Call -> string -> string -> option nat -> bool;
  bookmarks_remove : list Call -> string -> bool;
  bookmarks_removeTree : list Call -> string -> bool;
  tabs_query : list Call -> option (list BrowserTab);
  storage_available : bool;
  storage_get_ok : list Call -> bool;
  storage_set_ok : list Call -> bool;
  confirm : list Call -> bool;
  date_now : list Call -> Z;
  (** [new URL(url).hostname], [None] when the constructor throws *)
  url_hostname : string -> option string;
  (** [String.prototype.trim] *)
  trim : string -> string
}.

(** ** The reactive fields of the page and the browser-side state

    The [ref]s of [App.vue] are grouped by what they serve: the two dialogs,
    rename in place, drag and drop.  [World] is what lives outside the page:
    the call log, the root-folder id cached by [storage.ts], and the value
    stored under the UI-state key of [browser.storage.local] ([None] when
    the key is absent). *)

Record Dialogs := mkDialogs {
  showAddCollection : bool;
  showAddGroup : bool;
  newCollectionName : string;
  newGroupName : string
}.

Record EditState := mkEditState {
  editingCollectionId : option string;
  editingGroupId : option string;
  editingTabId : option string;
  editingName : string
}.

Record DragState := mkDragState {
  draggedTab : option DraggedTab;
  draggedOpenTab : option BrowserTab;
  dragOverCollectionId : option string;
  draggedCollection : option string;
  dragOverCollectionForSort : option string;
  dragOverTabId : option string;
  draggedGroup : option string;
  dragOverGroupId : option string
}.

Record World := mkWorld {
  calls : list Call;
  rootFolderId : option string;
  uiStore : option CollectionUIStates
}.

Record State := mkState {
  collections : list Collection;
  groups : list Group;
  selectedGroupId : string;
  dialogs : Dialogs;
  editing : EditState;
  drag : DragState;
  world : World
}.

(** Assignment to one field, the others kept. *)
Definition with_showAddCollection (v : bool) (r : Dialogs) : Dialogs :=
  {| showAddCollection := v; showAddGroup := showAddGroup r;
     newCollectionName := newCollectionName r;
     newGroupName := newGroupName r |}.
Definition with_showAddGroup (v : bool) (r : Dialogs) : Dialogs :=
  {| showAddCollection := showAddCollection r; showAddGroup := v;
     newCollectionName := newCollectionName r;
     newGroupName := newGroupName r |}.
Definition with_newCollectionName (v : string) (r : Dialogs) : Dialogs :=
  {| showAddCollection := showAddCollection r;
     showAddGroup := showAddGroup r; newCollectionName := v;
     newGroupName := newGroupName r |}.
Definition with_newGroupName (v : string) (r : Dialogs) : Dialogs :=
  {| showAddCollection := showAddCollection r;
     showAddGroup := showAddGroup r;
     newCollectionName := newCollectionName r; newGroupName := v |}.
Definition with_editingCollectionId (v : option string) (r : EditState) : EditState :=
  {| editingCollectionId := v; editingGroupId := editingGroupId r;
     editingTabId := editingTabId r; editingName := editingName r |}.
Definition with_editingGroupId (v : option string) (r : EditState) : EditState :=
  {| editingCollectionId := editingCollectionId r; editingGroupId := v;
     editingTabId := editingTabId r; editingName := editingName r |}.
Definition with_editingTabId (v : option string) (r : EditState) : EditState :=
  {| editingCollectionId := editingCollectionId r;
     editingGroupId := editingGroupId r; editingTabId := v;
     editingName := editingName r |}.
Definition with_editingName (v : string) (r : EditState) : EditState :=
  {| editingCollectionId := editingCollectionId r;
     editingGroupId := editingGroupId r; editingTabId := editingTabId r;
     editingName := v |}.
Definition with_draggedTab (v : option DraggedTab) (r : DragState) : DragState :=
  {| draggedTab := v; draggedOpenTab := draggedOpenTab r;
     dragOverCollectionId := dragOverCollectionId r;
     draggedCollection := draggedCollection r;
     dragOverCollectionForSort := dragOverCollectionForSort r;
     dragOverTabId := dragOverTabId r; draggedGroup := draggedGroup r;
     dragOverGroupId := dragOverGroupId r |}.
Definition with_draggedOpenTab (v : option BrowserTab) (r : DragState) : DragState :=
  {| draggedTab := draggedTab r; draggedOpenTab := v;
     dragOverCollectionId := dragOverCollectionId r;
     draggedCollection := draggedCollection r;
     dragOverCollectionForSort := dragOverCollectionForSort r;
     dragOverTabId := dragOverTabId r; draggedGroup := draggedGroup r;
     dragOverGroupId := dragOverGroupId r |}.
Definition with_dragOverCollectionId (v : option string) (r : DragState) : DragState :=
  {| draggedTab := draggedTab r; draggedOpenTab := draggedOpenTab r;
     dragOverCollectionId := v; draggedCollection := draggedCollection r;
     dragOverCollectionForSort := dragOverCollectionForSort r;
     dragOverTabId := dragOverTabId r; draggedGroup := draggedGroup r;
     dragOverGroupId := dragOverGroupId r |}.
Definition with_draggedCollection (v : option string) (r : DragState) : DragState :=
  {| draggedTab := draggedTab r; draggedOpenTab := draggedOpenTab r;
     dragOverCollectionId := dragOverCollectionId r;
     draggedCollection := v;
     dragOverCollectionForSort := dragOverCollectionForSort r;
     dragOverTabId := dragOverTabId r; draggedGroup := draggedGroup r;
     dragOverGroupId := dragOverGroupId r |}.
Definition with_dragOverCollectionForSort (v : option string) (r : DragState) : DragState :=
  {| draggedTab := draggedTab r; draggedOpenTab := draggedOpenTab r;
     dragOverCollectionId := dragOverCollectionId r;
     draggedCollection := draggedCollection r;
     dragOverCollectionForSort := v; dragOverTabId := dragOverTabId r;
     draggedGroup := draggedGroup r; dragOverGroupId := dragOverGroupId r |}.
Definition with_dragOverTabId (v : option string) (r : DragState) : DragState :=
  {| draggedTab := draggedTab r; draggedOpenTab := draggedOpenTab r;
     dragOverCollectionId := dragOverCollectionId r;
     draggedCollection := draggedCollection r;
     dragOverCollectionForSort := dragOverCollectionForSort r;
     dragOverTabId := v; draggedGroup := draggedGroup r;
     dragOverGroupId := dragOverGroupId r |}.
Definition with_draggedGroup (v : option string) (r : DragState) : DragState :=
  {| draggedTab := draggedTab r; draggedOpenTab := draggedOpenTab r;
     dragOverCollectionId := dragOverCollectionId r;
     draggedCollection := draggedCollection r;
     dragOverCollectionForSort := dragOverCollectionForSort r;
     dragOverTabId := dragOverTabId r; draggedGroup := v;
     dragOverGroupId := dragOverGroupId r |}.
Definition with_dragOverGroupId (v : option string) (r : DragState) : DragState :=
  {| draggedTab := draggedTab r; draggedOpenTab := draggedOpenTab r;
     dragOverCollectionId := dragOverCollectionId r;
     draggedCollection := draggedCollection r;
     dragOverCollectionForSort := dragOverCollectionForSort r;
     dragOverTabId := dragOverTabId r; draggedGroup := draggedGroup r;
     dragOverGroupId := v |}.
Definition with_calls (v : list Call) (r : World) : World :=
  {| calls := v; rootFolderId := rootFolderId r; uiStore := uiStore r |}.
Definition with_rootFolderId (v : option string) (r : World) : World :=
  {| calls := calls r; rootFolderId := v; uiStore := uiStore r |}.
Definition with_uiStore (v : option CollectionUIStates) (r : World) : World :=
  {| calls := calls r; rootFolderId := rootFolderId r; uiStore := v |}.
Definition set_collections (v : list Collection) (s : State) : State :=
  {| collections := v; groups := groups s;
     selectedGroupId := selectedGroupId s; dialogs := dialogs s;
     editing := editing s; drag := drag s; world := world s |}.
Definition set_groups (v : list Group) (s : State) : State :=
  {| collections := collections s; groups := v;
     selectedGroupId := selectedGroupId s; dialogs := dialogs s;
     editing := editing s; drag := drag s; world := world s |}.
Definition set_selectedGroupId (v : string) (s : State) : State :=
  {| collections := collections s; groups := groups s;
     selectedGroupId := v; dialogs := dialogs s; editing := editing s;
     drag := drag s; world := world s |}.
Definition with_dialogs (v : Dialogs) (s : State) : State :=
  {| collections := collections s; groups := groups s;
     selectedGroupId := selectedGroupId s; dialogs := v;
     editing := editing s; drag := drag s; world := world s |}.
Definition with_editing (v : EditState) (s : State) : State :=
  {| collections := collections s; groups := groups s;
     selectedGroupId := selectedGroupId s; dialogs := dialogs s;
     editing := v; drag := drag s; world := world s |}.
Definition with_drag (v : DragState) (s : State) : State :=
  {| collections := collections s; groups := groups s;
     selectedGroupId := selectedGroupId s; dialogs := dialogs s;
     editing := editing s; drag := v; world := world s |}.
Definition with_world (v : World) (s : State) : State :=
  {| collections := collections s; groups := groups s;
     selectedGroupId := selectedGroupId s; dialogs := dialogs s;
     editing := editing s; drag := drag s; world := v |}.
Definition set_showAddCollection (v : bool) (s : State) : State :=
  with_dialogs (with_showAddCollection v (dialogs s)) s.
Definition set_showAddGroup (v : bool) (s : State) : State :=
  with_dialogs (with_showAddGroup v (dialogs s)) s.
Definition set_newCollectionName (v : string) (s : State) : State :=
  with_dialogs (with_newCollectionName v (dialogs s)) s.
Definition set_newGroupName (v : string) (s : State) : State :=
  with_dialogs (with_newGroupName v (dialogs s)) s.
Definition set_editingCollectionId (v : option string) (s : State) : State :=
  with_editing (with_editingCollectionId v (editing s)) s.
Definition set_editingGroupId (v : option string) (s : State) : State :=
  with_editing (with_editingGroupId v (editing s)) s.
Definition set_editingTabId (v : option string) (s : State) : State :=
  with_editing (with_editingTabId v (editing s)) s.
Definition set_editingName (v : string) (s : State) : State :=
  with_editing (with_editingName v (editing s)) s.
Definition set_draggedTab (v : option DraggedTab) (s : State) : State :=
  with_drag (with_draggedTab v (drag s)) s.
Definition set_draggedOpenTab (v : option BrowserTab) (s : State) : State :=
  with_drag (with_draggedOpenTab v (drag s)) s.
Definition set_dragOverCollectionId (v : option string) (s : State) : State :=
  with_drag (with_dragOverCollectionId v (drag s)) s.
Definition set_draggedCollection (v : option string) (s : State) : State :=
  with_drag (with_draggedCollection v (drag s)) s.
Definition set_dragOverCollectionForSort (v : option string) (s : State) : State :=
  with_drag (with_dragOverCollectionForSort v (drag s)) s.
Definition set_dragOverTabId (v : option string) (s : State) : State :=
  with_drag (with_dragOverTabId v (drag s)) s.
Definition set_draggedGroup (v : option string) (s : State) : State :=
  with_drag (with_draggedGroup v (drag s)) s.
Definition set_dragOverGroupId (v : option string) (s : State) : State :=
  with_drag (with_dragOverGroupId v (drag s)) s.
Definition set_calls (v : list Call) (s : State) : State :=
  with_world (with_calls v (world s)) s.
Definition set_rootFolderId (v : option string) (s : State) : State :=
  with_world (with_rootFolderId v (world s)) s.
Definition set_uiStore (v : option CollectionUIStates) (s : State) : State :=
  with_world (with_uiStore v (world s)) s.

(** ** Handlers as computations

    A computation either returns a value or throws (a rejected promise, an
    exception); in both cases the assignments made so far stay. *)

Inductive Outcome (A : Type) :=
| Returned (a : A)
| Thrown.
Arguments Returned {A} a.
Arguments Thrown {A}.

Definition M (A : Type) : Type := State -> Outcome A * State.

#[global] Instance M_ret : MRet M := fun A a s => (Returned a, s).

#[global] Instance M_bind : MBind M := fun A B f m s =>
  match m s with
  | (Returned a, s') => f a s'
  | (Thrown, s') => (Thrown, s')
  end.

Definition get : M State := fun s => (Returned s, s).

Definition modify (f : State -> State) : M unit := fun s => (Returned tt, f s).

Definition throw {A} : M A := fun s => (Thrown, s).

(** [try { m } catch (e) { h }] *)
Definition try_catch {A} (m : M A) (h : M A) : M A := fun s =>
  match m s with
  | (Returned a, s') => (Returned a, s')
  | (Thrown, s') => h s'
  end.

(** The state a computation leaves, and the value it returns. *)
Definition exec {A} (m : M A) (s : State) : State := snd (m s).
Definition outcome {A} (m : M A) (s : State) : Outcome A := fst (m s).

(** [await] of a promise of the browser. *)
Definition await {A} (answer : list Call -> option A) : M A := fun s =>
  match answer (calls (world s)) with
  | Some a => (Returned a, s)
  | None => (Thrown, s)
  end.

Definition await_ok (answer : list Call -> bool) : M unit := fun s =>
  if answer (calls (world s)) then (Returned tt, s) else (Thrown, s).

(** A synchronous answer of the browser ([confirm], [Date.now]). *)
Definition ask {A} (answer : list Call -> A) : M A := fun s =>
  (Returned (answer (calls (world s))), s).

Definition log (c : Call) : M unit :=
  modify (fun s => set_calls (calls (world s) ++ [c]) s).

Definition skip : M unit := mret tt.

(** [console.error] and [alert] change nothing the page reads. *)
Definition console_error : M unit := mret tt.
Definition alert : M unit := mret tt.

(** ** The bookmark adapter and the UI-state store ([storage.ts]) *)

Section Adapter.

Variable B : Browser.

Definition ROOT_FOLDER_NAME : string := "TabManager".

(** [!node.url]: the node is a folder. *)
Definition isFolder (n : BookmarkNode) : bool := negb (truthy_opt (bm_url n)).

(** [node.dateAdded || Date.now()] *)
Definition dateAdded_or (n : BookmarkNode) (now : Z) : Z :=
  match bm_dateAdded n with
  | Some d => if Z.eqb d 0 then now else d
  | None => now
  end.

Definition getOrCreateRootFolder : M string :=
  s ← get;
  cached ← match rootFolderId (world s) with
           | Some rid =>
               if truthy rid then
                 try_catch
                   (await_ok (fun c => bookmarks_get B c rid);; mret (Some rid))
                   (modify (set_rootFolderId None);; mret None)
               else mret None
           | None => mret None
           end;
  match cached with
  | Some rid => mret rid
  | None =>
      results ← await (fun c => bookmarks_search B c ROOT_FOLDER_NAME);
      match find isFolder results with
      | Some existing =>
          modify (set_rootFolderId (Some (bm_id existing)));;
          mret (bm_id existing)
      | None =>
          folder ← await (fun c => bookmarks_create B c "2" ROOT_FOLDER_NAME None);
          modify (set_rootFolderId (Some (bm_id folder)));;
          mret (bm_id folder)
      end
  end.

(** [getFaviconUrl] of [storage.ts] *)
Definition getFaviconUrl (url : string) : string :=
  match url_hostname B url with
  | Some hostname =>
      ("https://www.google.com/s2/favicons?domain=" ++ hostname ++ "&sz=32")%string
  | None => ""
  end.

Definition createGroupInBookmarks (name : string) : M Group :=
  log (CallCreateGroup name);;
  rootId ← getOrCreateRootFolder;
  folder ← await (fun c => bookmarks_create B c rootId name None);
  now ← ask (date_now B);
  mret {| grp_id := bm_id folder; grp_name := bm_title folder;
          grp_createdAt := dateAdded_or folder now |}.

Definition createCollectionInBookmarks (name groupId : string) : M Collection :=
  log (CallCreateCollection name groupId);;
  folder ← await (fun c => bookmarks_create B c groupId name None);
  now ← ask (date_now B);
  mret {| col_id := bm_id folder; col_name := bm_title folder; col_tabs := [];
          col_createdAt := dateAdded_or folder now; col_groupId := groupId;
          col_expanded := None |}.

(** The argument [tab : Omit<TabItem, 'id'>] is passed as its three fields.
    The source asserts [bookmark.url!]; a bookmark created with a url has
    one. *)
Definition addTabToCollection (collectionId title url favicon : string)
  : M TabItem :=
  log (CallAddTabToCollection collectionId title url favicon);;
  bookmark ← await (fun c => bookmarks_create B c collectionId title (Some url));
  let burl := default "" (bm_url bookmark) in
  mret {| tab_id := bm_id bookmark; tab_title := bm_title bookmark;
          tab_url := burl;
          tab_favicon := if truthy favicon then favicon else getFaviconUrl burl |}.

Definition removeTabFromCollection (tabId : string) : M unit :=
  log (CallRemoveTabFromCollection tabId);;
  await_ok (fun c => bookmarks_remove B c tabId).

Definition updateGroupInBookmarks (groupId name : string) : M unit :=
  log (CallUpdateGroup groupId name);;
  await_ok (fun c => bookmarks_update B c groupId name).

Definition updateCollectionInBookmarks (collectionId name : string) : M unit :=
  log (CallUpdateCollection collectionId name);;
  await_ok (fun c => bookmarks_update B c collectionId name).

Definition deleteGroupInBookmarks (groupId : string) : M unit :=
  log (CallDeleteGroup groupId);;
  await_ok (fun c => bookmarks_removeTree B c groupId).

Definition deleteCollectionInBookmarks (collectionId : string) : M unit :=
  log (CallDeleteCollection collectionId);;
  await_ok (fun c => bookmarks_removeTree B c collectionId).

Definition moveTab (tabId targetCollectionId : string) : M unit :=
  log (CallMoveTab tabId targetCollectionId);;
  await_ok (fun c => bookmarks_move B c tabId targetCollectionId None).

Definition moveGroupToIndex (groupId : string) (index : nat) : M unit :=
  log (CallMoveGroupToIndex groupId index);;
  rootId ← getOrCreateRootFolder;
  await_ok (fun c => bookmarks_move B c groupId rootId (Some index)).

(** [browser.bookmarks.update(id, { title })], which [saveTabName] calls
    without going through the adapter. *)
Definition browser_bookmarks_update (id title : string) : M unit :=
  log (CallBookmarksUpdate id title);;
  await_ok (fun c => bookmarks_update B c id title).

(** [browser.tabs.query({ currentWindow: true })] *)
Definition browser_tabs_query : M (list BrowserTab) :=
  log CallTabsQuery;;
  await (tabs_query B).

Definition loadCollectionUIStates : M CollectionUIStates :=
  log CallLoadCollectionUIStates;;
  if storage_available B then
    try_catch
      (await_ok (storage_get_ok B);;
       s ← get;
       mret (default ∅ (uiStore (world s))))
      (console_error;; mret ∅)
  else mret ∅.

Definition saveCollectionUIStates (states : CollectionUIStates) : M unit :=
  log (CallSaveCollectionUIStates states);;
  if storage_available B then
    try_catch
      (await_ok (storage_set_ok B);;
       modify (set_uiStore (Some states)))
      console_error
  else mret tt.

(** [state : Partial<CollectionUIState>] is passed as its two optional
    fields.  [states\[collectionId\] || { expanded: false, order: 0 }] is
    read as the own record or else the default.  Under the name of one of
    the functions of [Object_prototype_names], and with no own record
    there, the code finds that function instead, which has neither field,
    and the record that it writes has no [order]; [CollectionUIState] has no
    such record, and what is proved of this function is for an id that has
    a record of its own or is none of these names. *)
Definition updateCollectionUIState (collectionId : string)
    (newExpanded : option bool) (newOrder : option Z) : M unit :=
  log (CallUpdateCollectionUIState collectionId newExpanded newOrder);;
  states ← loadCollectionUIStates;
  let existing := default {| expanded := false; order := 0 |} (states !! collectionId) in
  saveCollectionUIStates
    (js_assign collectionId
       {| expanded := default (expanded existing) newExpanded;
          order := default (order existing) newOrder |} states).

Definition removeCollectionUIState (collectionId : string) : M unit :=
  log (CallRemoveCollectionUIState collectionId);;
  states ← loadCollectionUIStates;
  saveCollectionUIStates (delete collectionId states).

End Adapter.

(** ** The view-model ([App.vue])

    An object that a handler holds ([collection], [group], the result of
    [collections.value.find]) is its position in the array it lives in:
    mutating the object changes the element at that position. *)

Definition with_col_tabs (v : list TabItem) (c : Collection) : Collection :=
  {| col_id := col_id c; col_name := col_name c; col_tabs := v;
     col_createdAt := col_createdAt c; col_groupId := col_groupId c;
     col_expanded := col_expanded c |}.

Definition with_col_name (v : string) (c : Collection) : Collection :=
  {| col_id := col_id c; col_name := v; col_tabs := col_tabs c;
     col_createdAt := col_createdAt c; col_groupId := col_groupId c;
     col_expanded := col_expanded c |}.

Definition with_col_expanded (v : option bool) (c : Collection) : Collection :=
  {| col_id := col_id c; col_name := col_name c; col_tabs := col_tabs c;
     col_createdAt := col_createdAt c; col_groupId := col_groupId c;
     col_expanded := v |}.

Definition with_grp_name (v : string) (g : Group) : Group :=
  {| grp_id := grp_id g; grp_name := v; grp_createdAt := grp_createdAt g |}.

Definition with_tab_title (v : string) (t : TabItem) : TabItem :=
  {| tab_id := tab_id t; tab_title := v; tab_url := tab_url t;
     tab_favicon := tab_favicon t |}.

(** [c => c.id === id], [g => g.id === id], [t => t.id === id],
    [t => t.url === url] *)
Definition col_has_id (id : string) (c : Collection) : bool := String.eqb (col_id c) id.
Definition grp_has_id (id : string) (g : Group) : bool := String.eqb (grp_id g) id.
Definition tab_has_id (id : string) (t : TabItem) : bool := String.eqb (tab_id t) id.
Definition tab_has_url (url : string) (t : TabItem) : bool := String.eqb (tab_url t) url.

(** [collections.value.find(c => c.id === id)], as a position. *)
Definition findCollection (id : string) (s : State) : option nat :=
  findIndex (col_has_id id) (collections s).

(** [collection.tabs], read through the object held. *)
Definition tabs_of (collection : nat) (s : State) : list TabItem :=
  match collections s !! collection with
  | Some c => col_tabs c
  | None => []
  end.

(** An in-place change of [collection.tabs] ([push], [splice], assignment). *)
Definition update_tabs (collection : nat) (f : list TabItem -> list TabItem)
  : M unit :=
  modify (fun s =>
    set_collections
      (alter (fun c => with_col_tabs (f (col_tabs c)) c) collection (collections s)) s).

Section Page.

Variable B : Browser.

(** *** Groups *)

Definition createGroup : M unit :=
  s ← get;
  let name := trim B (newGroupName (dialogs s)) in
  if negb (truthy name) then skip
  else
    try_catch
      (newGroup ← createGroupInBookmarks B name;
       modify (fun s => set_groups (push newGroup (groups s)) s);;
       modify (set_selectedGroupId (grp_id newGroup));;
       modify (set_newGroupName "");;
       modify (set_showAddGroup false))
      (console_error;; alert).

Definition deleteGroup (id : string) : M unit :=
  confirmed ← ask (confirm B);
  if (confirmed : bool) then
    try_catch
      (deleteGroupInBookmarks B id;;
       modify (fun s =>
         set_collections
           (List.filter (fun c => negb (String.eqb (col_groupId c) id)) (collections s)) s);;
       modify (fun s =>
         set_groups (List.filter (fun g => negb (String.eqb (grp_id g) id)) (groups s)) s);;
       s ← get;
       if String.eqb (selectedGroupId s) id then
         modify (set_selectedGroupId (or_else (grp_id <$> head (groups s)) ""))
       else skip)
      (console_error;; alert)
  else skip.

Definition startEditGroup (group : nat) : M unit :=
  s ← get;
  match groups s !! group with
  | Some g =>
      modify (set_editingGroupId (Some (grp_id g)));;
      modify (set_editingName (grp_name g))
  | None => skip
  end.

Definition saveGroupName (group : nat) : M unit :=
  s ← get;
  match groups s !! group with
  | Some g =>
      let name := trim B (editingName (editing s)) in
      if truthy name then
        try_catch
          (updateGroupInBookmarks B (grp_id g) name;;
           modify (fun s => set_groups (alter (with_grp_name name) group (groups s)) s))
          console_error
      else skip
  | None => skip
  end;;
  modify (set_editingGroupId None).

Definition onGroupDragStart (groupId : string) : M unit :=
  modify (set_draggedGroup (Some groupId)).

Definition onGroupDragOver (groupId : string) : M unit :=
  s ← get;
  match draggedGroup (drag s) with
  | Some dragged =>
      if negb (truthy dragged) || String.eqb dragged groupId then skip
      else modify (set_dragOverGroupId (Some groupId))
  | None => skip
  end.

(** [const \[moved\] = arr.splice(index, 1); arr.splice(target, 0, moved)],
    the reorder of all three drop handlers.  [index] comes from [findIndex]
    on the same array, so an element is removed. *)
Definition move_item {A} (index target : nat) (l : list A) : list A :=
  let '(removed, rest) := splice index 1 [] l in
  match removed with
  | moved :: _ => snd (splice target 0 [moved] rest)
  | [] => rest
  end.

Definition onGroupDrop (targetGroupId : string) : M unit :=
  s ← get;
  match draggedGroup (drag s) with
  | Some dragged =>
      if negb (truthy dragged) || String.eqb dragged targetGroupId then skip
      else
        let sourceIndex := findIndex (grp_has_id dragged) (groups s) in
        let targetIndex := findIndex (grp_has_id targetGroupId) (groups s) in
        match sourceIndex, targetIndex with
        | Some sourceIndex, Some targetIndex =>
            let movedGroupId := dragged in
            modify (fun s => set_groups (move_item sourceIndex targetIndex (groups s)) s);;
            try_catch (moveGroupToIndex B movedGroupId targetIndex) console_error
        | _, _ => skip
        end
  | None => skip
  end;;
  modify (set_draggedGroup None);;
  modify (set_dragOverGroupId None).

Definition onGroupDragEnd : M unit :=
  modify (set_draggedGroup None);;
  modify (set_dragOverGroupId None).

(** *** Collections *)

Definition createCollection : M unit :=
  s ← get;
  let name := trim B (newCollectionName (dialogs s)) in
  if negb (truthy name) || negb (truthy (selectedGroupId s)) then skip
  else
    try_catch
      (newCollection ← createCollectionInBookmarks B name (selectedGroupId s);
       modify (fun s => set_collections (push newCollection (collections s)) s);;
       modify (set_newCollectionName "");;
       modify (set_showAddCollection false))
      (console_error;; alert).

Definition deleteCollection (id : string) : M unit :=
  confirmed ← ask (confirm B);
  if (confirmed : bool) then
    try_catch
      (deleteCollectionInBookmarks B id;;
       removeCollectionUIState B id;;
       modify (fun s =>
         set_collections (List.filter (fun c => negb (String.eqb (col_id c) id)) (collections s)) s))
      (console_error;; alert)
  else skip.

Definition toggleCollectionExpand (collection : nat) : M unit :=
  s ← get;
  match collections s !! collection with
  | Some c =>
      let e := negb (default false (col_expanded c)) in
      modify (fun s =>
        set_collections (alter (with_col_expanded (Some e)) collection (collections s)) s);;
      updateCollectionUIState B (col_id c) (Some e) None
  | None => skip
  end.

Definition startEditCollection (collection : nat) : M unit :=
  s ← get;
  match collections s !! collection with
  | Some c =>
      modify (set_editingCollectionId (Some (col_id c)));;
      modify (set_editingName (col_name c))
  | None => skip
  end.

Definition saveCollectionName (collection : nat) : M unit :=
  s ← get;
  match collections s !! collection with
  | Some c =>
      let name := trim B (editingName (editing s)) in
      if truthy name then
        try_catch
          (updateCollectionInBookmarks B (col_id c) name;;
           modify (fun s =>
             set_collections (alter (with_col_name name) collection (collections s)) s))
          console_error
      else skip
  | None => skip
  end;;
  modify (set_editingCollectionId None).

(** *** Tabs *)

Definition excludeUrls : list string :=
  ["chrome://"; "chrome-extension://"; "about:"; "edge://"; "brave://";
   "javascript:"].

(** [url.startsWith(prefix)] is [String.prefix prefix url]. *)
Definition isValidTabUrl (url : option string) : bool :=
  match url with
  | Some url =>
      if negb (truthy url) then false
      else negb (some (fun prefix => String.prefix prefix url) excludeUrls)
  | None => false
  end.

(** The [for (const tab of tabs)] loop of [saveCurrentTabs];
    [existingUrls] is the [Set] built before the loop. *)
Fixpoint saveCurrentTabs_loop (collectionId : string) (collection : nat)
    (existingUrls : gset string) (tabs : list BrowserTab) : M unit :=
  match tabs with
  | [] => skip
  | tab :: rest =>
      (let url := default "" (bt_url tab) in
       if isValidTabUrl (bt_url tab) && negb (bool_decide (url ∈ existingUrls)) then
         try_catch
           (newTab ← addTabToCollection B collectionId
                       (or_else (bt_title tab) "Untitled") url
                       (or_else (bt_favIconUrl tab) "");
            update_tabs collection (push newTab))
           console_error
       else skip);;
      saveCurrentTabs_loop collectionId collection existingUrls rest
  end.

Definition saveCurrentTabs (collectionId : string) : M unit :=
  tabs ← browser_tabs_query B;
  s ← get;
  match findCollection collectionId s with
  | Some collection =>
      let existingUrls : gset string :=
        list_to_set (map tab_url (tabs_of collection s)) in
      saveCurrentTabs_loop collectionId collection existingUrls tabs
  | None => skip
  end.

Definition deleteTab (collectionId tabId : string) : M unit :=
  s ← get;
  match findCollection collectionId s with
  | Some collection =>
      try_catch
        (removeTabFromCollection B tabId;;
         update_tabs collection (List.filter (fun t => negb (String.eqb (tab_id t) tabId))))
        console_error
  | None => skip
  end.

Definition startEditTab (tab : TabItem) : M unit :=
  modify (set_editingTabId (Some (tab_id tab)));;
  modify (set_editingName (tab_title tab)).

Definition saveTabName (collectionId tabId : string) : M unit :=
  s ← get;
  match findCollection collectionId s with
  | Some collection =>
      match findIndex (tab_has_id tabId) (tabs_of collection s) with
      | Some tab =>
          let name := trim B (editingName (editing s)) in
          if truthy name then
            try_catch
              (browser_bookmarks_update B tabId name;;
               update_tabs collection (alter (with_tab_title name) tab))
              console_error
          else skip
      | None => skip
      end
  | None => skip
  end;;
  modify (set_editingTabId None).

(** *** Drag and drop of tabs and collections *)

Definition onDragStart (collectionId tabId : string) : M unit :=
  modify (set_draggedTab (Some {| dt_collectionId := collectionId; dt_tabId := tabId |}));;
  modify (set_draggedOpenTab None).

Definition onDragStartOpenTab (tab : BrowserTab) : M unit :=
  modify (set_draggedOpenTab (Some tab));;
  modify (set_draggedTab None).

Definition onDragEnd : M unit :=
  modify (set_draggedTab None);;
  modify (set_draggedOpenTab None);;
  modify (set_dragOverCollectionId None);;
  modify (set_draggedCollection None);;
  modify (set_dragOverCollectionForSort None);;
  modify (set_dragOverTabId None).

Definition onTabDragOver (collectionId tabId : string) : M unit :=
  s ← get;
  match draggedOpenTab (drag s) with
  | Some _ => modify (set_dragOverCollectionId (Some collectionId))
  | None =>
      match draggedTab (drag s) with
      | Some dt =>
          if negb (String.eqb (dt_tabId dt) tabId)
          then modify (set_dragOverTabId (Some tabId))
          else skip
      | None => skip
      end
  end.

(** [if (targetIndex > -1) tabs.splice(targetIndex, 0, tab) else tabs.push(tab)] *)
Definition insert_or_push (targetIndex : option nat) (tab : TabItem)
    (tabs : list TabItem) : list TabItem :=
  match targetIndex with
  | Some targetIndex => snd (splice targetIndex 0 [tab] tabs)
  | None => push tab tabs
  end.

(** [const \[moved\] = source.tabs.splice(sourceIndex, 1)] followed by the
    insertion of [moved] into the tabs of the target.  [sourceIndex] comes
    from [findIndex] on the same array, so an element is removed. *)
Definition take_tab_then (source sourceIndex : nat)
    (k : TabItem -> M unit) : M unit :=
  s ← get;
  let '(removed, rest) := splice sourceIndex 1 [] (tabs_of source s) in
  update_tabs source (fun _ => rest);;
  match removed with
  | moved :: _ => k moved
  | [] => skip
  end.

Definition onTabDrop (collectionId targetTabId : string) : M unit :=
  s ← get;
  match findCollection collectionId s with
  | None => skip
  | Some collection =>
      match draggedOpenTab (drag s) with
      | Some tab =>
          (if truthy_opt (bt_url tab) && isValidTabUrl (bt_url tab) then
             let url := default "" (bt_url tab) in
             let exists_ := some (tab_has_url url) (tabs_of collection s) in
             if negb exists_ then
               try_catch
                 (let targetIndex :=
                    findIndex (tab_has_id targetTabId) (tabs_of collection s) in
                  newTab ← addTabToCollection B collectionId
                             (or_else (bt_title tab) url) url
                             (or_else (bt_favIconUrl tab) "");
                  update_tabs collection (insert_or_push targetIndex newTab))
                 console_error
             else skip
           else skip);;
          modify (set_draggedOpenTab None);;
          modify (set_dragOverTabId None)
      | None =>
          match draggedTab (drag s) with
          | Some dt =>
              let sourceCollectionId := dt_collectionId dt in
              let sourceTabId := dt_tabId dt in
              if String.eqb sourceCollectionId collectionId then
                let sourceIndex := findIndex (tab_has_id sourceTabId) (tabs_of collection s) in
                let targetIndex := findIndex (tab_has_id targetTabId) (tabs_of collection s) in
                match sourceIndex, targetIndex with
                | Some sourceIndex, Some targetIndex =>
                    if negb (Nat.eqb sourceIndex targetIndex) then
                      update_tabs collection (move_item sourceIndex targetIndex)
                    else skip
                | _, _ => skip
                end
              else
                match findCollection sourceCollectionId s with
                | Some sourceCollection =>
                    let sourceIndex :=
                      findIndex (tab_has_id sourceTabId) (tabs_of sourceCollection s) in
                    let sourceTab :=
                      sourceIndex ≫= fun i => tabs_of sourceCollection s !! i in
                    let targetIndex :=
                      findIndex (tab_has_id targetTabId) (tabs_of collection s) in
                    let exists_ :=
                      match sourceTab with
                      | Some sourceTab =>
                          some (tab_has_url (tab_url sourceTab)) (tabs_of collection s)
                      | None => false
                      end in
                    match sourceIndex with
                    | Some sourceIndex =>
                        if negb exists_ then
                          try_catch
                            (moveTab B sourceTabId collectionId;;
                             take_tab_then sourceCollection sourceIndex (fun movedTab =>
                               update_tabs collection (insert_or_push targetIndex movedTab)))
                            console_error
                        else skip
                    | None => skip
                    end
                | None => skip
                end
          | None => skip
          end;;
          modify (set_draggedTab None);;
          modify (set_dragOverTabId None)
      end
  end.

Definition onCollectionDragStart (collectionId : string) : M unit :=
  modify (set_draggedCollection (Some collectionId));;
  modify (set_draggedTab None);;
  modify (set_draggedOpenTab None).

Definition onCollectionDragOver (collectionId : string) : M unit :=
  s ← get;
  match draggedCollection (drag s) with
  | Some dragged =>
      if negb (truthy dragged) || String.eqb dragged collectionId then skip
      else modify (set_dragOverCollectionForSort (Some collectionId))
  | None => skip
  end.

(** The body of [collections.value.forEach((c, index) => ...)] in
    [saveCollectionOrder]: the spread of the old record, or of whatever
    else [states\[c.id\]] finds, is overridden in both of its fields. *)
Fixpoint assign_order (cs : list Collection) (index : nat)
    (states : CollectionUIStates) : CollectionUIStates :=
  match cs with
  | [] => states
  | c :: rest =>
      assign_order rest (S index)
        (js_assign (col_id c)
           {| expanded := default false (col_expanded c);
              order := Z.of_nat index |} states)
  end.

Definition saveCollectionOrder : M unit :=
  states ← loadCollectionUIStates B;
  s ← get;
  saveCollectionUIStates B (assign_order (collections s) 0 states).

Definition onCollectionDrop (targetCollectionId : string) : M unit :=
  s ← get;
  match draggedCollection (drag s) with
  | Some dragged =>
      if negb (truthy dragged) || String.eqb dragged targetCollectionId then skip
      else
        let sourceIndex := findIndex (col_has_id dragged) (collections s) in
        let targetIndex := findIndex (col_has_id targetCollectionId) (collections s) in
        match sourceIndex, targetIndex with
        | Some sourceIndex, Some targetIndex =>
            modify (fun s =>
              set_collections (move_item sourceIndex targetIndex (collections s)) s);;
            saveCollectionOrder
        | _, _ => skip
        end
  | None => skip
  end;;
  modify (set_draggedCollection None);;
  modify (set_dragOverCollectionForSort None).

Definition onDragOverCollection (collectionId : string) : M unit :=
  modify (set_dragOverCollectionId (Some collectionId)).

Definition onDropToCollection (targetCollectionId : string) : M unit :=
  s ← get;
  match findCollection targetCollectionId s with
  | None => skip
  | Some targetCollection =>
      match draggedOpenTab (drag s) with
      | Some tab =>
          (if truthy_opt (bt_url tab) && isValidTabUrl (bt_url tab) then
             let url := default "" (bt_url tab) in
             let exists_ := some (tab_has_url url) (tabs_of targetCollection s) in
             if negb exists_ then
               try_catch
                 (newTab ← addTabToCollection B targetCollectionId
                             (or_else (bt_title tab) url) url
                             (or_else (bt_favIconUrl tab) "");
                  update_tabs targetCollection (push newTab))
                 console_error
             else skip
           else skip);;
          modify (set_draggedOpenTab None);;
          modify (set_dragOverCollectionId None)
      | None =>
          match draggedTab (drag s) with
          | Some dt =>
              let sourceCollectionId := dt_collectionId dt in
              let tabId := dt_tabId dt in
              if String.eqb sourceCollectionId targetCollectionId then
                modify (set_draggedTab None);;
                modify (set_dragOverCollectionId None)
              else
                match findCollection sourceCollectionId s with
                | Some sourceCollection =>
                    match findIndex (tab_has_id tabId) (tabs_of sourceCollection s) with
                    | Some tabIndex =>
                        let exists_ :=
                          match tabs_of sourceCollection s !! tabIndex with
                          | Some sourceTab =>
                              some (tab_has_url (tab_url sourceTab))
                                   (tabs_of targetCollection s)
                          | None => false
                          end in
                        if negb exists_ then
                          try_catch
                            (moveTab B tabId targetCollectionId;;
                             take_tab_then sourceCollection tabIndex (fun tab =>
                               update_tabs targetCollection (push tab)))
                            console_error
                        else skip
                    | None => skip
                    end
                | None => skip
                end;;
                modify (set_draggedTab None);;
                modify (set_draggedOpenTab None);;
                modify (set_dragOverCollectionId None)
          | None =>
              modify (set_draggedTab None);;
              modify (set_draggedOpenTab None);;
              modify (set_dragOverCollectionId None)
          end
      end
  end.

(** The [@drop] and [@dragover] bindings of a collection card in the
    template. *)
Definition collection_card_drop (collectionId : string) : M unit :=
  s ← get;
  if truthy_opt (draggedCollection (drag s))
  then onCollectionDrop collectionId
  else onDropToCollection collectionId.

Definition collection_card_dragover (collectionId : string) : M unit :=
  s ← get;
  if truthy_opt (draggedCollection (drag s))
  then onCollectionDragOver collectionId
  else onDragOverCollection collectionId.

End Page.

(** *** Start-up: applying the UI state to the loaded collections

    The lines of [onMounted] between the three loads and the assignment of
    [collections.value]. *)

(** [uiStates\[c.id\]?.order ?? Infinity]: [None] is [Infinity]. *)
Definition order_or_infinity (uiStates : CollectionUIStates) (c : Collection)
  : option Z :=
  order <$> uiStates !! col_id c.

(** The sign of [orderA - orderB].  [Infinity - Infinity] is [NaN], which
    [sort] reads as [+0]. *)
Definition compare_order (orderA orderB : option Z) : comparison :=
  match orderA, orderB with
  | Some a, Some b => Z.compare a b
  | Some _, None => Lt
  | None, Some _ => Gt
  | None, None => Eq
  end.

(** [Array.prototype.sort(compare)].  The standard asks for a stable sort
    and leaves the algorithm open; insertion from the right is one. *)
Fixpoint sort_insert {A} (compare : A -> A -> comparison) (x : A) (l : list A)
  : list A :=
  match l with
  | [] => [x]
  | y :: l' =>
      match compare x y with
      | Gt => y :: sort_insert compare x l'
      | _ => x :: l
      end
  end.

Definition sort {A} (compare : A -> A -> comparison) (l : list A) : list A :=
  foldr (sort_insert compare) [] l.

Definition restoreCollections (loadedCollections : list Collection)
    (uiStates : CollectionUIStates) : list Collection :=
  let collectionsWithState :=
    map (fun c =>
           with_col_expanded
             (Some (default false (expanded <$> uiStates !! col_id c))) c)
        loadedCollections in
  sort (fun a b => compare_order (order_or_infinity uiStates a)
                                 (order_or_infinity uiStates b))
       collectionsWithState.

(** ** The storage-backed loaders (second part of [types.ts])

    The value kept under a key of [browser.storage.local] is any JSON-like
    value (a number is taken as an integer; the loaders only ask whether a
    value is an object).  The properties of an object are listed in the
    order in which [Object.values] enumerates them. *)

#[local] Unset Elimination Schemes.
Inductive JsValue :=
| JsUndefined
| JsNull
| JsBool (b : bool)
| JsNumber (n : Z)
| JsString (s : string)
| JsArray (items : list JsValue)
| JsObject (props : list (string * JsValue)).
#[local] Set Elimination Schemes.

Module Legacy.

Definition COLLECTIONS_KEY : string := "toby_collections".
Definition GROUPS_KEY : string := "toby_groups".

(** [browser.storage.local]: whether it exists, and what
    [(await get(key))\[key\]] is ([None] when the promise is rejected,
    [JsUndefined] when the key is absent). *)
Record LocalStorage := mkLocalStorage {
  available : bool;
  get_key : string -> option JsValue
}.

Definition Array_isArray (v : JsValue) : bool :=
  match v with JsArray _ => true | _ => false end.

Definition js_truthy (v : JsValue) : bool :=
  match v with
  | JsUndefined | JsNull => false
  | JsBool b => b
  | JsNumber n => negb (Z.eqb n 0)
  | JsString s => truthy s
  | JsArray _ | JsObject _ => true
  end.

(** [typeof v === 'object'] *)
Definition typeof_object (v : JsValue) : bool :=
  match v with JsNull | JsArray _ | JsObject _ => true | _ => false end.

Definition Object_values (v : JsValue) : list JsValue :=
  match v with
  | JsObject props => map snd props
  | JsArray items => items
  | _ => []
  end.

(** ['id' in v], for a [v] that is an object *)
Definition has_id_property (v : JsValue) : bool :=
  match v with
  | JsObject props => existsb (fun p => String.eqb (fst p) "id") props
  | _ => false
  end.

(** [v => v && typeof v === 'object' && 'id' in v] *)
Definition looks_like_entity (v : JsValue) : bool :=
  js_truthy v && typeof_object v && has_id_property v.

(** The body of the [try] block, after the [await]. *)
Definition as_array (data : JsValue) : list JsValue :=
  match data with
  | JsArray items => items
  | _ =>
      if js_truthy data && typeof_object data then
        let values := Object_values data in
        if Nat.ltb 0 (length values) && forallb looks_like_entity values
        then values
        else []
      else []
  end.

(** [try { ... } catch (e) { return \[\] }] around the [await]. *)
Definition load (key : string) (st : LocalStorage) : Outcome (list JsValue) :=
  if negb (available st) then Returned []
  else
    match get_key st key with
    | Some data => Returned (as_array data)
    | None => Returned []
    end.

Definition loadCollections : LocalStorage -> Outcome (list JsValue) :=
  load COLLECTIONS_KEY.

Definition loadGroups : LocalStorage -> Outcome (list JsValue) :=
  load GROUPS_KEY.

End Legacy.

(** ** What the properties are stated with *)

(** What is being dragged towards the collection [target], and its url: an
    open browser tab, or the saved tab that the marker [draggedTab] names in
    a collection other than [target]. *)
Inductive Dragging (s : State) (target : string) (url : string) : Prop :=
| DraggingOpenTab (tab : BrowserTab) :
    draggedOpenTab (drag s) = Some tab ->
    bt_url tab = Some url ->
    Dragging s target url
| DraggingSavedTab (dt : DraggedTab) (source index : nat) (t : TabItem) :
    draggedOpenTab (drag s) = None ->
    draggedTab (drag s) = Some dt ->
    dt_collectionId dt <> target ->
    findCollection (dt_collectionId dt) s = Some source ->
    findIndex (tab_has_id (dt_tabId dt)) (tabs_of source s) = Some index ->
    tabs_of source s !! index = Some t ->
    tab_url t = url ->
    Dragging s target url.

(** The url of an open tab is missing, or starts with a system prefix. *)
Definition system_or_missing (url : option string) : Prop :=
  match url with
  | None => True
  | Some u =>
      exists prefix,
        In prefix ["chrome://"; "chrome-extension://"; "about:"; "edge://";
                   "brave://"; "javascript:"] /\
        String.prefix prefix u = true
  end.

(** The calls to [addTabToCollection] in a stretch of the log all carry a
    url that [isValidTabUrl] accepts. *)
Definition adds_valid_urls_only (new : list Call) : Prop :=
  forall collectionId title url favicon,
    In (CallAddTabToCollection collectionId title url favicon) new ->
    isValidTabUrl (Some url) = true.

(** What the user does to groups: typing a name into the dialog and
    creating the group, and deleting a group. *)
Inductive GroupOp :=
| CreateGroupOp (typedName : string)
| DeleteGroupOp (id : string).

Definition run_group_op (B : Browser) (op : GroupOp) : M unit :=
  match op with
  | CreateGroupOp typedName => modify (set_newGroupName typedName);; createGroup B
  | DeleteGroupOp id => deleteGroup B id
  end.

Definition run_group_ops (B : Browser) (ops : list GroupOp) (s : State) : State :=
  fold_left (fun s op => exec (run_group_op B op) s) ops s.

(** Every collection refers to a group of the list. *)
Definition groups_referenced (s : State) : Prop :=
  forall c, In c (collections s) ->
  exists g, In g (groups s) /\ grp_id g = col_groupId c.

(** [x] does not sort after [y]: [compare x y] is not positive. *)
Definition not_after {A} (compare : A -> A -> comparison) (x y : A) : Prop :=
  compare x y <> Gt.

(** [a] does not sort after [b]: [a - b] is not positive. *)
Definition order_not_after (a b : option Z) : Prop := compare_order a b <> Gt.

(** [browser.storage.local] is there and neither [get] nor [set] fails. *)
Definition storage_works (B : Browser) : Prop :=
  storage_available B = true /\
  (forall c, storage_get_ok B c = true) /\
  (forall c, storage_set_ok B c = true).

(** The id is not the name of a member that every object inherits: the
    store holds under it a record of its own or nothing.  The ids of
    collections are bookmark ids, which the browser makes of digits or of
    twelve random characters; none is such a name. *)
Definition plain_key (id : string) : Prop :=
  existsb (String.eqb id) Object_prototype_names = false.

(** The value is an object with at least one property, all of whose values
    are objects with an [id] property; [values] are its values. *)
Definition keyed_entities (data : JsValue) (values : list JsValue) : Prop :=
  exists props,
    data = JsObject props /\ props <> [] /\ values = map snd props /\
    forall v, In v values -> exists ps, v = JsObject ps /\ In "id" (map fst ps).

Inductive Marker := TabMarker | OpenTabMarker | CollectionMarker | GroupMarker.

(** The marker is not [null]. *)
Definition marker_set (m : Marker) (s : State) : bool :=
  match m with
  | TabMarker => bool_decide (is_Some (draggedTab (drag s)))
  | OpenTabMarker => bool_decide (is_Some (draggedOpenTab (drag s)))
  | CollectionMarker => bool_decide (is_Some (draggedCollection (drag s)))
  | GroupMarker => bool_decide (is_Some (draggedGroup (drag s)))
  end.

Definition markers_set (s : State) : nat :=
  length (List.filter (fun m => marker_set m s)
            [TabMarker; OpenTabMarker; CollectionMarker; GroupMarker]).

Definition at_most_one_marker (s : State) : Prop := markers_set s <= 1.

(** The page before anything was loaded or done. *)
Definition initial_state : State :=
  {| collections := []; groups := []; selectedGroupId := "";
     dialogs := {| showAddCollection := false; showAddGroup := false;
                   newCollectionName := ""; newGroupName := "" |};
     editing := {| editingCollectionId := None; editingGroupId := None;
                   editingTabId := None; editingName := "" |};
     drag := {| draggedTab := None; draggedOpenTab := None;
                dragOverCollectionId := None; draggedCollection := None;
                dragOverCollectionForSort := None; dragOverTabId := None;
                draggedGroup := None; dragOverGroupId := None |};
     world := {| calls := []; rootFolderId := None; uiStore := None |} |}.

(** What the user can do on the page: the handlers of [App.vue] and the
    assignments written in its template. *)
Inductive Event :=
| EvShowAddGroup (show : bool)
| EvTypeNewGroupName (text : string)
| EvCreateGroup
| EvDeleteGroup (id : string)
| EvSelectGroup (id : string)
| EvStartEditGroup (group : nat)
| EvTypeEditingName (text : string)
| EvSaveGroupName (group : nat)
| EvGroupDragStart (id : string)
| EvGroupDragOver (id : string)
| EvGroupDragLeave
| EvGroupDrop (id : string)
| EvGroupDragEnd
| EvShowAddCollection (show : bool)
| EvTypeNewCollectionName (text : string)
| EvCreateCollection
| EvDeleteCollection (id : string)
| EvToggleCollectionExpand (collection : nat)
| EvStartEditCollection (collection : nat)
| EvSaveCollectionName (collection : nat)
| EvSaveCurrentTabs (collectionId : string)
| EvDeleteTab (collectionId tabId : string)
| EvStartEditTab (tab : TabItem)
| EvSaveTabName (collectionId tabId : string)
| EvDragStart (collectionId tabId : string)
| EvDragStartOpenTab (tab : BrowserTab)
| EvDragEnd
| EvTabDragOver (collectionId tabId : string)
| EvTabDragLeave
| EvTabDrop (collectionId tabId : string)
| EvCollectionDragStart (collectionId : string)
| EvCollectionDragOver (collectionId : string)
| EvCollectionDragLeave
| EvCollectionDrop (collectionId : string).

Definition handle (B : Browser) (e : Event) : M unit :=
  match e with
  | EvShowAddGroup show => modify (set_showAddGroup show)
  | EvTypeNewGroupName text => modify (set_newGroupName text)
  | EvCreateGroup => createGroup B
  | EvDeleteGroup id => deleteGroup B id
  | EvSelectGroup id => modify (set_selectedGroupId id)
  | EvStartEditGroup group => startEditGroup group
  | EvTypeEditingName text => modify (set_editingName text)
  | EvSaveGroupName group => saveGroupName B group
  | EvGroupDragStart id => onGroupDragStart id
  | EvGroupDragOver id => onGroupDragOver id
  | EvGroupDragLeave => modify (set_dragOverGroupId None)
  | EvGroupDrop id => onGroupDrop B id
  | EvGroupDragEnd => onGroupDragEnd
  | EvShowAddCollection show => modify (set_showAddCollection show)
  | EvTypeNewCollectionName text => modify (set_newCollectionName text)
  | EvCreateCollection => createCollection B
  | EvDeleteCollection id => deleteCollection B id
  | EvToggleCollectionExpand collection => toggleCollectionExpand B collection
  | EvStartEditCollection collection => startEditCollection collection
  | EvSaveCollectionName collection => saveCollectionName B collection
  | EvSaveCurrentTabs collectionId => saveCurrentTabs B collectionId
  | EvDeleteTab collectionId tabId => deleteTab B collectionId tabId
  | EvStartEditTab tab => startEditTab tab
  | EvSaveTabName collectionId tabId => saveTabName B collectionId tabId
  | EvDragStart collectionId tabId => onDragStart collectionId tabId
  | EvDragStartOpenTab tab => onDragStartOpenTab tab
  | EvDragEnd => onDragEnd
  | EvTabDragOver collectionId tabId => onTabDragOver collectionId tabId
  | EvTabDragLeave => modify (set_dragOverTabId None)
  | EvTabDrop collectionId tabId => onTabDrop B collectionId tabId
  | EvCollectionDragStart collectionId => onCollectionDragStart collectionId
  | EvCollectionDragOver collectionId => collection_card_dragover collectionId
  | EvCollectionDragLeave =>
      modify (set_dragOverCollectionId None);;
      modify (set_dragOverCollectionForSort None)
  | EvCollectionDrop collectionId => collection_card_drop B collectionId
  end.

Definition run_events (B : Browser) (events : list Event) (s : State) : State :=
  fold_left (fun s e => exec (handle B e) s) events s.

(** The marker that a drag-start handler sets. *)
Definition starts (e : Event) : option Marker :=
  match e with
  | EvDragStart _ _ => Some TabMarker
  | EvDragStartOpenTab _ => Some OpenTabMarker
  | EvCollectionDragStart _ => Some CollectionMarker
  | EvGroupDragStart _ => Some GroupMarker
  | _ => None
  end.

(** The drag-end handler bound to the element that carries the marker:
    [onDragEnd] for tabs, open tabs and collection cards, [onGroupDragEnd]
    for groups. *)
Definition ends (e : Event) (m : Marker) : bool :=
  match e, m with
  | EvDragEnd, (TabMarker | OpenTabMarker | CollectionMarker) => true
  | EvGroupDragEnd, GroupMarker => true
  | _, _ => false
  end.

(** The drag in progress after an event, [current] being the one before. *)
Definition drag_after (current : option Marker) (e : Event) : option Marker :=
  match starts e with
  | Some m => Some m
  | None =>
      match current with
      | Some m => if ends e m then None else current
      | None => None
      end
  end.

(** Every drag is ended by its drag-end handler before the next drag
    starts, which is the order in which a browser fires [dragstart] and
    [dragend]: a drag starts only when none is in progress. *)
Fixpoint drags_in_turn (current : option Marker) (events : list Event) : Prop :=
  match events with
  | [] => True
  | e :: rest =>
      (is_Some (starts e) -> current = None) /\
      drags_in_turn (drag_after current e) rest
  end.

(** Every run of [m] takes a state to one related to it by [R]. *)
Definition keeps (R : State -> State -> Prop) {A} (m : M A) : Prop :=
  forall s, R s (m s).2.

(** A marker that is set after was set before. *)
Definition only_cleared (s s' : State) : Prop :=
  forall m, marker_set m s' = true -> marker_set m s = true.

(** No marker but the one of the drag in progress is set. *)
Definition within (current : option Marker) (s : State) : Prop :=
  forall m, marker_set m s = true -> current = Some m.

(** ** A browser and a page to run the handlers on *)

(** [trim] for the white space of ASCII. *)
Definition is_white_space (c : ascii) : bool :=
  existsb (Ascii.eqb c) [" "; "009"; "010"; "011"; "012"; "013"]%char.

Fixpoint trim_start (s : string) : string :=
  match s with
  | String c s' => if is_white_space c then trim_start s' else s
  | EmptyString => EmptyString
  end.

Definition ascii_trim (s : string) : string :=
  String.rev (trim_start (String.rev (trim_start s))).

(** The host of an [https://host/path] url. *)
Definition https_hostname (url : string) : option string :=
  if String.prefix "https://" url then
    let rest := substring 8 (String.length url - 8) url in
    match index 0 "/" rest with
    | Some i => Some (substring 0 i rest)
    | None => Some rest
    end
  else None.

Definition example_open_tabs : list BrowserTab :=
  [ {| bt_id := Some 1%Z; bt_url := Some "https://a.com"; bt_title := Some "A";
       bt_favIconUrl := None |};
    {| bt_id := Some 2%Z; bt_url := Some "chrome://settings";
       bt_title := Some "Settings"; bt_favIconUrl := None |};
    {| bt_id := Some 3%Z; bt_url := None; bt_title := None; bt_favIconUrl := None |};
    {| bt_id := Some 4%Z; bt_url := Some "https://d.com"; bt_title := None;
       bt_favIconUrl := Some "https://d.com/favicon.ico" |} ].

(** A browser that grants every request: a created node gets a fresh id
    and the title and url asked for. *)
Definition granting_browser : Browser :=
  {| bookmarks_get := fun _ _ => true;
     bookmarks_search := fun _ _ => Some [];
     bookmarks_create := fun log _ title url =>
       Some {| bm_id := ("n" ++ pretty (length log))%string; bm_title := title;
               bm_url := url; bm_dateAdded := Some 1700000000000%Z |};
     bookmarks_update := fun _ _ _ => true;
     bookmarks_move := fun _ _ _ _ => true;
     bookmarks_remove := fun _ _ => true;
     bookmarks_removeTree := fun _ _ => true;
     tabs_query := fun _ => Some example_open_tabs;
     storage_available := true;
     storage_get_ok := fun _ => true;
     storage_set_ok := fun _ => true;
     confirm := fun _ => true;
     date_now := fun _ => 1700000000001%Z;
     url_hostname := https_hostname;
     trim := ascii_trim |}.

(** A browser whose bookmark store rejects every change. *)
Definition rejecting_browser : Browser :=
  {| bookmarks_get := fun _ _ => true;
     bookmarks_search := fun _ _ => Some [];
     bookmarks_create := fun _ _ _ _ => None;
     bookmarks_update := fun _ _ _ => false;
     bookmarks_move := fun _ _ _ _ => false;
     bookmarks_remove := fun _ _ => false;
     bookmarks_removeTree := fun _ _ => false;
     tabs_query := fun _ => Some example_open_tabs;
     storage_available := true;
     storage_get_ok := fun _ => true;
     storage_set_ok := fun _ => true;
     confirm := fun _ => true;
     date_now := fun _ => 1700000000001%Z;
     url_hostname := https_hostname;
     trim := ascii_trim |}.

Definition tab_a : TabItem :=
  {| tab_id := "t1"; tab_title := "A"; tab_url := "https://a.com"; tab_favicon := "" |}.
Definition tab_b : TabItem :=
  {| tab_id := "t2"; tab_title := "B"; tab_url := "https://b.com"; tab_favicon := "" |}.
Definition tab_a_again : TabItem :=
  {| tab_id := "t3"; tab_title := "A, saved twice"; tab_url := "https://a.com";
     tab_favicon := "" |}.
Definition tab_c : TabItem :=
  {| tab_id := "t4"; tab_title := "C"; tab_url := "https://c.com"; tab_favicon := "" |}.

Definition collection_C1 : Collection :=
  {| col_id := "C1"; col_name := "Docs"; col_tabs := [tab_a; tab_b];
     col_createdAt := 1%Z; col_groupId := "g1"; col_expanded := Some false |}.
Definition collection_C2 : Collection :=
  {| col_id := "C2"; col_name := "News"; col_tabs := [tab_a_again; tab_c];
     col_createdAt := 2%Z; col_groupId := "g1"; col_expanded := None |}.

Definition group_g1 : Group := {| grp_id := "g1"; grp_name := "Work"; grp_createdAt := 1%Z |}.
Definition group_g2 : Group := {| grp_id := "g2"; grp_name := "Home"; grp_createdAt := 2%Z |}.

(** Two collections in the first of two groups. *)
Definition example_page : State :=
  set_selectedGroupId "g1"
    (set_groups [group_g1; group_g2]
       (set_collections [collection_C1; collection_C2] initial_state)).

(** The page in the middle of a gesture. *)
Definition renaming_page : State :=
  set_editingName "   " (set_editingGroupId (Some "g1") example_page).

Definition dragging_tab_a_page : State :=
  set_draggedTab (Some {| dt_collectionId := "C1"; dt_tabId := "t1" |}) example_page.

Definition dragging_tab_b_page : State :=
  set_draggedTab (Some {| dt_collectionId := "C1"; dt_tabId := "t2" |}) example_page.

Definition settings_tab : BrowserTab :=
  {| bt_id := Some 2%Z; bt_url := Some "chrome://settings";
     bt_title := Some "Settings"; bt_favIconUrl := None |}.

Definition dragging_settings_tab_page : State :=
  set_draggedOpenTab (Some settings_tab) example_page.

Definition dragging_group_page : State :=
  set_draggedGroup (Some "g2") example_page.

Definition dragging_collection_page : State :=
  set_draggedCollection (Some "C2") example_page.

(** A tab reordered inside its collection, then a group reordered. *)
Definition example_gestures : list Event :=
  [EvDragStart "C1" "t1"; EvTabDragOver "C1" "t2"; EvTabDrop "C1" "t2"; EvDragEnd;
   EvGroupDragStart "g2"; EvGroupDragOver "g1"; EvGroupDrop "g1"; EvGroupDragEnd].

(** A legacy object keyed by id, as an older version stored it. *)
Definition legacy_collections : JsValue :=
  JsObject [("c1", JsObject [("id", JsString "c1"); ("name", JsString "Docs")])].

Definition legacy_storage : Legacy.LocalStorage :=
  {| Legacy.available := true; Legacy.get_key := fun _ => Some legacy_collections |}.

(** A stored value that is neither an array nor an object. *)
Definition scalar_storage : Legacy.LocalStorage :=
  {| Legacy.available := true;
     Legacy.get_key := fun _ => Some (JsString "[]") |}.

(** An open tab, and the page with one group and one empty collection. *)
Definition open_tab_A : BrowserTab :=
  {| bt_id := Some 1%Z; bt_url := Some "https://a.com"; bt_title := Some "A";
     bt_favIconUrl := None |}.

Definition collection_Docs : Collection :=
  {| col_id := "Docs"; col_name := "Docs"; col_tabs := []; col_createdAt := 3%Z;
     col_groupId := "g1"; col_expanded := None |}.

Definition docs_page : State :=
  set_selectedGroupId "g1"
    (set_groups [group_g1] (set_collections [collection_Docs] initial_state)).

(** * The rest of the page and of the adapter *)

(** ** Expanding collections *)




(** ** The collections of the selected group *)

(** [currentCollections], the computed list that the page renders. *)
Definition currentCollections (s : State) : list Collection :=
  if negb (truthy (selectedGroupId s)) then []
  else List.filter (fun c => String.eqb (col_groupId c) (selectedGroupId s))
                   (collections s).

(** ** Collections and the groups they are in *)

(** No group is selected, or the selected group is one of the list. *)
Definition selection_listed (s : State) : Prop :=
  selectedGroupId s = "" \/
  exists g, In g (groups s) /\ grp_id g = selectedGroupId s.

(** Every collection after is in the group of a collection before, every
    group before is still listed, and the selection is the same. *)
Definition placed_alike (s s' : State) : Prop :=
  (forall c', In c' (collections s') ->
     exists c, In c (collections s) /\ col_groupId c = col_groupId c') /\
  (forall g, In g (groups s) ->
     exists g', In g' (groups s') /\ grp_id g' = grp_id g) /\
  selectedGroupId s' = selectedGroupId s.

(** The events that add or remove a group or a collection, or select a
    group. *)
Definition changes_membership (e : Event) : bool :=
  match e with
  | EvCreateGroup | EvDeleteGroup _ | EvSelectGroup _ | EvCreateCollection => true
  | _ => false
  end.

(** A group is selected by a click on its entry in the list of groups
    ([v-for="group in groups"], [@click="selectedGroupId = group.id"]): every
    [EvSelectGroup] names a group listed at the time. *)
Fixpoint selects_listed (B : Browser) (events : list Event) (s : State) : Prop :=
  match events with
  | [] => True
  | e :: rest =>
      match e with
      | EvSelectGroup id => exists g, In g (groups s) /\ grp_id g = id
      | _ => True
      end /\
      selects_listed B rest (exec (handle B e) s)
  end.

(** ** Saving the tabs of the window *)

(** The test that the loop of [saveCurrentTabs] makes on a tab of the
    window: [isValidTabUrl(tab.url) && !existingUrls.has(tab.url!)]. *)
Definition wanted (existingUrls : gset string) (tab : BrowserTab) : bool :=
  isValidTabUrl (bt_url tab) &&
  negb (bool_decide (default "" (bt_url tab) ∈ existingUrls)).

(** [browser.bookmarks.create] is never rejected. *)
Definition creates_always (B : Browser) : Prop :=
  forall log parentId title url,
    is_Some (bookmarks_create B log parentId title url).

(** The collection with [added] pushed onto its tabs. *)
Definition append_tabs (added : list TabItem) (c : Collection) : Collection :=
  with_col_tabs (col_tabs c ++ added) c.

(** ** Start-up *)

(** [uiStates\[c.id\]] is there. *)
Definition has_saved_state (uiStates : CollectionUIStates) (c : Collection) : bool :=
  bool_decide (is_Some (uiStates !! col_id c)).

(** ** Loading the groups and the collections ([storage.ts])

    The loaders read the bookmark tree with [browser.bookmarks.getChildren],
    which no handler of the page calls. *)

(** Whether [browser.bookmarks] is there ([isBookmarksAvailable]), and the
    answer of [getChildren(id)]: [None] when the promise is rejected. *)
Record BookmarkTree := mkBookmarkTree {
  bookmarks_available : bool;
  bookmarks_getChildren : list Call -> string -> option (list BookmarkNode)
}.

Section Loaders.

Variable B : Browser.
Variable T : BookmarkTree.

(** The callback of [map] in [loadTabsFromFolder]. *)
Definition tab_of_bookmark (bookmark : BookmarkNode) : TabItem :=
  let url := default "" (bm_url bookmark) in
  {| tab_id := bm_id bookmark; tab_title := bm_title bookmark; tab_url := url;
     tab_favicon := getFaviconUrl B url |}.

Definition loadTabsFromFolder (folderId : string) : M (list TabItem) :=
  children ← await (fun c => bookmarks_getChildren T c folderId);
  mret (map tab_of_bookmark
          (List.filter (fun child => truthy_opt (bm_url child)) children)).

(** The callback of [map] in [loadGroups]. *)
Definition group_of_folder (now : Z) (folder : BookmarkNode) : Group :=
  {| grp_id := bm_id folder; grp_name := bm_title folder;
     grp_createdAt := dateAdded_or folder now |}.

Definition loadGroups : M (list Group) :=
  if negb (bookmarks_available T) then console_error;; mret []
  else
    try_catch
      (rootId ← getOrCreateRootFolder B;
       children ← await (fun c => bookmarks_getChildren T c rootId);
       now ← ask (date_now B);
       mret (map (group_of_folder now) (List.filter isFolder children)))
      (console_error;; mret []).

(** The inner loop of [loadCollections], [for (const child of children)];
    [loaded] is the array [collections] that the loops push onto. *)
Fixpoint loadCollections_children (groupId : string) (children : list BookmarkNode)
    (loaded : list Collection) : M (list Collection) :=
  match children with
  | [] => mret loaded
  | child :: rest =>
      if isFolder child then
        tabs ← loadTabsFromFolder (bm_id child);
        now ← ask (date_now B);
        loadCollections_children groupId rest
          (push {| col_id := bm_id child; col_name := bm_title child;
                   col_tabs := tabs; col_createdAt := dateAdded_or child now;
                   col_groupId := groupId; col_expanded := None |} loaded)
      else loadCollections_children groupId rest loaded
  end.

(** The outer loop, [for (const group of groups)]. *)
Fixpoint loadCollections_groups (loadedGroups : list Group)
    (loaded : list Collection) : M (list Collection) :=
  match loadedGroups with
  | [] => mret loaded
  | group :: rest =>
      children ← await (fun c => bookmarks_getChildren T c (grp_id group));
      loaded ← loadCollections_children (grp_id group) children loaded;
      loadCollections_groups rest loaded
  end.

Definition loadCollections : M (list Collection) :=
  if negb (bookmarks_available T) then console_error;; mret []
  else
    try_catch
      (loadedGroups ← loadGroups;
       loadCollections_groups loadedGroups [])
      (console_error;; mret []).

End Loaders.

(** ** The icon of a tab ([App.vue]) *)

Module AppVue.

(** [getFaviconUrl(url, favicon)] of the page, which the template calls
    with the [url] and the [favicon] of a saved tab. *)
Definition getFaviconUrl (B : Browser) (url favicon : string) : string :=
  if truthy favicon then favicon
  else
    match url_hostname B url with
    | Some hostname =>
        ("https://www.google.com/s2/favicons?domain=" ++ hostname ++ "&sz=32")%string
    | None => ""
    end.

End AppVue.

(** What every loaded collection is like: its group is one of [ids], it has
    no [expanded] flag yet, and its tabs have a url. *)
Definition loaded_under (ids : list string) (c : Collection) : Prop :=
  In (col_groupId c) ids /\
  col_expanded c = None /\
  forall t, In t (col_tabs c) -> tab_url t <> "".

(** ** The sidebars ([App.vue], [storage.ts])

    The widths of the two sidebars in pixels (whole numbers, as the
    positions of the mouse are), the flags of the resize gestures and of the
    collapse buttons, and the widths kept under [tabmanager_sidebar_widths]
    in [browser.storage.local]. *)

Record SidebarWidths := mkSidebarWidths {
  sw_left : Z;
  sw_right : Z
}.

Record Layout := mkLayout {
  leftSidebarWidth : Z;
  rightSidebarWidth : Z;
  isResizingLeft : bool;
  isResizingRight : bool;
  showOpenTabs : bool;
  showGroups : bool;
  storedWidths : option SidebarWidths
}.

Definition with_leftSidebarWidth (v : Z) (l : Layout) : Layout :=
  {| leftSidebarWidth := v; rightSidebarWidth := rightSidebarWidth l;
     isResizingLeft := isResizingLeft l; isResizingRight := isResizingRight l;
     showOpenTabs := showOpenTabs l; showGroups := showGroups l;
     storedWidths := storedWidths l |}.

Definition with_rightSidebarWidth (v : Z) (l : Layout) : Layout :=
  {| leftSidebarWidth := leftSidebarWidth l; rightSidebarWidth := v;
     isResizingLeft := isResizingLeft l; isResizingRight := isResizingRight l;
     showOpenTabs := showOpenTabs l; showGroups := showGroups l;
     storedWidths := storedWidths l |}.

Definition with_isResizingLeft (v : bool) (l : Layout) : Layout :=
  {| leftSidebarWidth := leftSidebarWidth l; rightSidebarWidth := rightSidebarWidth l;
     isResizingLeft := v; isResizingRight := isResizingRight l;
     showOpenTabs := showOpenTabs l; showGroups := showGroups l;
     storedWidths := storedWidths l |}.

Definition with_isResizingRight (v : bool) (l : Layout) : Layout :=
  {| leftSidebarWidth := leftSidebarWidth l; rightSidebarWidth := rightSidebarWidth l;
     isResizingLeft := isResizingLeft l; isResizingRight := v;
     showOpenTabs := showOpenTabs l; showGroups := showGroups l;
     storedWidths := storedWidths l |}.

Definition with_showOpenTabs (v : bool) (l : Layout) : Layout :=
  {| leftSidebarWidth := leftSidebarWidth l; rightSidebarWidth := rightSidebarWidth l;
     isResizingLeft := isResizingLeft l; isResizingRight := isResizingRight l;
     showOpenTabs := v; showGroups := showGroups l;
     storedWidths := storedWidths l |}.

Definition with_showGroups (v : bool) (l : Layout) : Layout :=
  {| leftSidebarWidth := leftSidebarWidth l; rightSidebarWidth := rightSidebarWidth l;
     isResizingLeft := isResizingLeft l; isResizingRight := isResizingRight l;
     showOpenTabs := showOpenTabs l; showGroups := v;
     storedWidths := storedWidths l |}.

Definition with_storedWidths (v : option SidebarWidths) (l : Layout) : Layout :=
  {| leftSidebarWidth := leftSidebarWidth l; rightSidebarWidth := rightSidebarWidth l;
     isResizingLeft := isResizingLeft l; isResizingRight := isResizingRight l;
     showOpenTabs := showOpenTabs l; showGroups := showGroups l;
     storedWidths := v |}.

(** [saveSidebarWidths]: [available] is [isStorageAvailable()], [set_ok]
    whether the promise of [storage.local.set] is fulfilled. *)
Definition saveSidebarWidths (available set_ok : bool) (widths : SidebarWidths)
    (l : Layout) : Layout :=
  if negb available then l
  else if set_ok then with_storedWidths (Some widths) l
  else l.

(** [loadSidebarWidths]: [get_ok] is whether the promise of
    [storage.local.get] is fulfilled; [None] is [null]. *)
Definition loadSidebarWidths (available get_ok : bool) (l : Layout)
  : option SidebarWidths :=
  if negb available then None
  else if get_ok then storedWidths l
  else None.

Definition startResizeLeft (l : Layout) : Layout :=
  if negb (showOpenTabs l) then l else with_isResizingLeft true l.

Definition resizeLeft (clientX : Z) (l : Layout) : Layout :=
  if negb (isResizingLeft l) then l
  else
    let newWidth := clientX in
    if (180 <=? newWidth)%Z && (newWidth <=? 400)%Z
    then with_leftSidebarWidth newWidth l
    else l.

Definition stopResizeLeft (available set_ok : bool) (l : Layout) : Layout :=
  let l := with_isResizingLeft false l in
  saveSidebarWidths available set_ok
    {| sw_left := leftSidebarWidth l; sw_right := rightSidebarWidth l |} l.

Definition startResizeRight (l : Layout) : Layout :=
  if negb (showGroups l) then l else with_isResizingRight true l.

Definition resizeRight (clientX innerWidth : Z) (l : Layout) : Layout :=
  if negb (isResizingRight l) then l
  else
    let newWidth := (innerWidth - clientX)%Z in
    if (150 <=? newWidth)%Z && (newWidth <=? 350)%Z
    then with_rightSidebarWidth newWidth l
    else l.

Definition stopResizeRight (available set_ok : bool) (l : Layout) : Layout :=
  let l := with_isResizingRight false l in
  saveSidebarWidths available set_ok
    {| sw_left := leftSidebarWidth l; sw_right := rightSidebarWidth l |} l.

(** The first lines of [onMounted]. *)
Definition restoreSidebarWidths (available get_ok : bool) (l : Layout) : Layout :=
  match loadSidebarWidths available get_ok l with
  | Some savedWidths =>
      with_rightSidebarWidth (sw_right savedWidths)
        (with_leftSidebarWidth (sw_left savedWidths) l)
  | None => l
  end.

(** The layout of a page that has just been opened, over what the storage
    holds. *)
Definition initial_layout (stored : option SidebarWidths) : Layout :=
  {| leftSidebarWidth := 260; rightSidebarWidth := 220;
     isResizingLeft := false; isResizingRight := false;
     showOpenTabs := true; showGroups := true; storedWidths := stored |}.

(** What happens to the sidebars: the calls of the six resize functions
    (with the position of the mouse, the width of the window and the answers
    of the storage), the two collapse buttons of the template, and the page
    being opened again. *)
Inductive SidebarEvent :=
| SbStartResizeLeft
| SbResizeLeft (clientX : Z)
| SbStopResizeLeft (available set_ok : bool)
| SbStartResizeRight
| SbResizeRight (clientX innerWidth : Z)
| SbStopResizeRight (available set_ok : bool)
| SbToggleOpenTabs
| SbToggleGroups
| SbOpenPage (available get_ok : bool).

Definition sidebar_handle (e : SidebarEvent) (l : Layout) : Layout :=
  match e with
  | SbStartResizeLeft => startResizeLeft l
  | SbResizeLeft clientX => resizeLeft clientX l
  | SbStopResizeLeft available set_ok => stopResizeLeft available set_ok l
  | SbStartResizeRight => startResizeRight l
  | SbResizeRight clientX innerWidth => resizeRight clientX innerWidth l
  | SbStopResizeRight available set_ok => stopResizeRight available set_ok l
  | SbToggleOpenTabs => with_showOpenTabs (negb (showOpenTabs l)) l
  | SbToggleGroups => with_showGroups (negb (showGroups l)) l
  | SbOpenPage available get_ok =>
      restoreSidebarWidths available get_ok (initial_layout (storedWidths l))
  end.

Definition sidebar_run (events : list SidebarEvent) (l : Layout) : Layout :=
  fold_left (fun l e => sidebar_handle e l) events l.

(** The bounds that [resizeLeft] and [resizeRight] test. *)
Definition left_in_bounds (w : Z) : Prop := (180 <= w <= 400)%Z.
Definition right_in_bounds (w : Z) : Prop := (150 <= w <= 350)%Z.

(** The widths shown and the widths stored, if any, are within the
    bounds. *)
Definition widths_in_bounds (l : Layout) : Prop :=
  left_in_bounds (leftSidebarWidth l) /\
  right_in_bounds (rightSidebarWidth l) /\
  forall w, storedWidths l = Some w ->
            left_in_bounds (sw_left w) /\ right_in_bounds (sw_right w).

(** The events that write the widths to the storage. *)
Definition writes_widths (e : SidebarEvent) : bool :=
  match e with
  | SbStopResizeLeft _ _ | SbStopResizeRight _ _ => true
  | _ => false
  end.

(** ** The open tabs of the sidebar ([App.vue]) *)

(** The callback of [filter] in [loadOpenTabs]: its list of prefixes has
    no [javascript:]. *)
Definition listed_as_open (tab : BrowserTab) : bool :=
  match bt_url tab with
  | Some url =>
      if negb (truthy url) then false
      else negb (some (fun prefix => String.prefix prefix url)
                   ["chrome://"; "chrome-extension://"; "about:"; "edge://";
                    "brave://"])
  | None => false
  end.

(** What [loadOpenTabs] assigns to [openTabs] when the query answers
    [tabs]. *)
Definition openTabs_of (tabs : list BrowserTab) : list BrowserTab :=
  List.filter listed_as_open tabs.

(** ** Reordering collections *)

(** The page is the same in its collections, its groups and its
    selection. *)
Definition page_alike (s s' : State) : Prop :=
  collections s' = collections s /\ groups s' = groups s /\
  selectedGroupId s' = selectedGroupId s.

(** [c => c.groupId === g] *)
Definition in_group (g : string) (c : Collection) : bool :=
  String.eqb (col_groupId c) g.

(** ** Moving saved tabs *)

(** All the tabs of the page, collection after collection. *)
Definition all_tabs (cs : list Collection) : list TabItem :=
  concat (map col_tabs cs).

(** No collection holds two tabs with the same url. *)
Definition urls_distinct (cs : list Collection) : Prop :=
  forall c, In c cs -> NoDup (map tab_url (col_tabs c)).

(** What a drop of a saved tab does to the collections: nothing; a move of
    the tab inside its collection; or the tab taken out of its collection
    and put into another one that has no tab with its url, at the place of
    a tab of that collection or at the end. *)
Inductive TabMove (cs cs' : list Collection) : Prop :=
| TabUnmoved :
    cs' = cs -> TabMove cs cs'
| TabMovedWithin (collection index target : nat) (c : Collection) (moved : TabItem) :
    cs !! collection = Some c ->
    col_tabs c !! index = Some moved ->
    cs' = alter (fun c => with_col_tabs (move_item index target (col_tabs c)) c)
            collection cs ->
    TabMove cs cs'
| TabMovedAcross (source target index : nat) (place : option nat)
    (c1 c2 : Collection) (moved : TabItem) :
    source <> target ->
    cs !! source = Some c1 ->
    cs !! target = Some c2 ->
    col_tabs c1 !! index = Some moved ->
    some (tab_has_url (tab_url moved)) (col_tabs c2) = false ->
    cs' = alter (fun c => with_col_tabs (insert_or_push place moved (col_tabs c)) c)
            target
            (alter (fun c => with_col_tabs (delete index (col_tabs c1)) c) source cs) ->
    TabMove cs cs'.




(** The collections after have distinct urls if those before had. *)
Definition keeps_urls_distinct (s s' : State) : Prop :=
  urls_distinct (collections s) -> urls_distinct (collections s').


(** ** The highlights of the sorting drags *)

(** The markers of the two sorting drags and of their drop targets. *)
Definition sorting_markers (s : State)
  : option string * option string * option string * option string :=
  (draggedGroup (drag s), dragOverGroupId (drag s),
   draggedCollection (drag s), dragOverCollectionForSort (drag s)).

Definition same_sorting (s s' : State) : Prop :=
  sorting_markers s' = sorting_markers s.

(** A group or a collection is highlighted as the place of a sorting drop
    only while another group, or another collection, is being dragged. *)
Definition highlights_consistent (s : State) : Prop :=
  (forall g, dragOverGroupId (drag s) = Some g ->
     exists d, draggedGroup (drag s) = Some d /\ d <> "" /\ d <> g) /\
  (forall c, dragOverCollectionForSort (drag s) = Some c ->
     exists d, draggedCollection (drag s) = Some d /\ d <> "" /\ d <> c).

(** The events that change a marker of a sorting drag. *)
Definition touches_sorting (e : Event) : bool :=
  match e with
  | EvGroupDragStart _ | EvGroupDragOver _ | EvGroupDragLeave | EvGroupDrop _
  | EvGroupDragEnd | EvDragEnd | EvCollectionDragStart _ | EvCollectionDragOver _
  | EvCollectionDragLeave | EvCollectionDrop _ => true
  | _ => false
  end.

(** ** More pages, browsers and gestures to run the handlers on *)

(** The example page after its order and flags were saved. *)
Definition mirrored_page : State :=
  set_uiStore
    (Some (<["C1" := {| expanded := false; order := 0 |}]>
             (<["C2" := {| expanded := false; order := 1 |}]> ∅)))
    example_page.

(** The example page with a name typed into a dialog or into an edit
    field. *)
Definition typing_group_page : State :=
  set_newGroupName " Play " (set_showAddGroup true example_page).

Definition typing_collection_page : State :=
  set_newCollectionName "Later " (set_showAddCollection true example_page).

Definition renaming_collection_page : State :=
  set_editingName " Reading " (set_editingCollectionId (Some "C1") example_page).

(** A group selected, a collection created in it, and the group deleted. *)
Definition example_clicks : list Event :=
  [EvSelectGroup "g2"; EvShowAddCollection true; EvTypeNewCollectionName "Later";
   EvCreateCollection; EvDeleteGroup "g2"].


(** A browser in which the root folder exists, and a bookmark tree under
    it: two groups, the first with a collection of one bookmark and a
    nested folder. *)
Definition root_folder : BookmarkNode :=
  {| bm_id := "root"; bm_title := "TabManager"; bm_url := None;
     bm_dateAdded := Some 1600000000000%Z |}.

Definition stocked_browser : Browser :=
  {| bookmarks_get := fun _ _ => true;
     bookmarks_search := fun _ _ => Some [root_folder];
     bookmarks_create := bookmarks_create granting_browser;
     bookmarks_update := fun _ _ _ => true;
     bookmarks_move := fun _ _ _ _ => true;
     bookmarks_remove := fun _ _ => true;
     bookmarks_removeTree := fun _ _ => true;
     tabs_query := fun _ => Some example_open_tabs;
     storage_available := true;
     storage_get_ok := fun _ => true;
     storage_set_ok := fun _ => true;
     confirm := fun _ => true;
     date_now := fun _ => 1700000000001%Z;
     url_hostname := https_hostname;
     trim := ascii_trim |}.

Definition folder_node (id title : string) : BookmarkNode :=
  {| bm_id := id; bm_title := title; bm_url := None;
     bm_dateAdded := Some 1600000000000%Z |}.

Definition bookmark_node (id title url : string) : BookmarkNode :=
  {| bm_id := id; bm_title := title; bm_url := Some url;
     bm_dateAdded := Some 1600000000000%Z |}.

Definition example_children (id : string) : option (list BookmarkNode) :=
  if String.eqb id "root" then
    Some [folder_node "g1" "Work"; bookmark_node "b0" "Stray" "https://s.com";
          folder_node "g2" "Home"]
  else if String.eqb id "g1" then Some [folder_node "C1" "Docs"]
  else if String.eqb id "C1" then
    Some [bookmark_node "t1" "A" "https://a.com"; folder_node "f1" "Nested"]
  else if String.eqb id "g2" then Some []
  else None.

Definition example_tree : BookmarkTree :=
  {| bookmarks_available := true;
     bookmarks_getChildren := fun _ id => example_children id |}.

(** The same tree when the children of the second group cannot be read. *)
Definition broken_tree : BookmarkTree :=
  {| bookmarks_available := true;
     bookmarks_getChildren := fun _ id =>
       if String.eqb id "g2" then None else example_children id |}.


(** The left sidebar dragged too far, then to 300, and released. *)
Definition example_resize : list SidebarEvent :=
  [SbStartResizeLeft; SbResizeLeft 500; SbResizeLeft 300; SbStopResizeLeft true true;
   SbToggleGroups; SbOpenPage true true].

(** * Properties *)

(** ** Running a handler *)

Ltac run :=
  cbv [exec outcome mbind mret M_bind M_ret get modify throw try_catch skip
       await await_ok ask log console_error alert].

(** ** Rename in place *)

(** C5. Committing a rename whose edited name trims to the empty string
    leaves the groups and collections (names and tab titles included) as
    they are, makes no call at all, and resets the editing id of the entity
    to [null]; this holds for a group, a collection and a tab. *)
Theorem empty_rename_is_discarded (B : Browser) (s : State)
    (group collection : nat) (collectionId tabId : string) :
  trim B (editingName (editing s)) = "" ->
  (let s' := exec (saveGroupName B group) s in
   groups s' = groups s /\ collections s' = collections s /\
   world s' = world s /\ editingGroupId (editing s') = None) /\
  (let s' := exec (saveCollectionName B collection) s in
   groups s' = groups s /\ collections s' = collections s /\
   world s' = world s /\ editingCollectionId (editing s') = None) /\
  (let s' := exec (saveTabName B collectionId tabId) s in
   groups s' = groups s /\ collections s' = collections s /\
   world s' = world s /\ editingTabId (editing s') = None).
Proof.
  intros Hempty. repeat split.
  all: unfold saveGroupName, saveCollectionName, saveTabName; run.
  all: rewrite ?Hempty; cbn.
  all: repeat case_match; simplify_eq; reflexivity.
Qed.

(** ** Array helpers *)

Lemma some_true_iff {A} (p : A -> bool) (l : list A) :
  some p l = true <-> exists x, In x l /\ p x = true.
Proof. apply existsb_exists. Qed.

Lemma findIndex_Some {A} (p : A -> bool) (l : list A) (i : nat) :
  findIndex p l = Some i ->
  exists x, l !! i = Some x /\ p x = true /\
            forall j y, j < i -> l !! j = Some y -> p y = false.
Proof.
  revert i. induction l as [|a l IH]; intros i; cbn; [discriminate|].
  destruct (p a) eqn:Hp.
  - intros [= <-]. exists a. repeat split; auto. intros j y Hj. lia.
  - destruct (findIndex p l) as [k|]; cbn; [|discriminate].
    intros [= <-]. destruct (IH k eq_refl) as (x & Hx & Hpx & Hlt).
    exists x. repeat split; auto.
    intros [|j] y Hj; cbn; [intros [= <-]; exact Hp|].
    intros Hy. apply (Hlt j); [lia|exact Hy].
Qed.

Lemma findIndex_lt {A} (p : A -> bool) (l : list A) (i : nat) :
  findIndex p l = Some i -> i < length l.
Proof.
  intros H. destruct (findIndex_Some _ _ _ H) as (x & Hx & _).
  eapply lookup_lt_Some; eauto.
Qed.

(** ** Drops of a tab whose url the target already holds *)

(** C1. When the target collection already holds a tab with the url of the
    dragged tab (an open browser tab, or a saved tab of another collection),
    a drop on the collection and a drop on one of its tabs leave every
    collection as it is, tabs included, and make no call to the adapter. *)
Theorem duplicate_url_drop_is_noop (B : Browser) (s : State)
    (target targetTabId url : string) (targetCollection : nat) (held : TabItem) :
  findCollection target s = Some targetCollection ->
  In held (tabs_of targetCollection s) ->
  tab_url held = url ->
  Dragging s target url ->
  (let s' := exec (onDropToCollection B target) s in
   collections s' = collections s /\ world s' = world s) /\
  (let s' := exec (onTabDrop B target targetTabId) s in
   collections s' = collections s /\ world s' = world s).
Proof.
  intros Hfind Hin Hurl Hdrag.
  assert (Hex : some (tab_has_url url) (tabs_of targetCollection s) = true).
  { apply some_true_iff. exists held. split; [exact Hin|].
    unfold tab_has_url. rewrite Hurl. apply String.eqb_refl. }
  destruct Hdrag as [tab Hopen Hu | dt source index t Hopen Hdt Hne Hsrc Hidx Ht Htu].
  - split; unfold onDropToCollection, onTabDrop; run;
      rewrite Hfind, Hopen, Hu; cbn [from_option id]; rewrite Hex;
      destruct (truthy_opt (Some url) && isValidTabUrl (Some url)); cbn; auto.
  - apply String.eqb_neq in Hne.
    split; unfold onDropToCollection, onTabDrop; run;
      rewrite Hfind, Hopen, Hdt, Hne, Hsrc, Hidx; cbn; rewrite Ht, Htu, Hex; cbn; auto.
Qed.

(** ** What an adapter call leaves behind *)

Lemma moveTab_run (B : Browser) (tabId target : string) (s : State) :
  moveTab B tabId target s =
  (outcome (moveTab B tabId target) s,
   set_calls (calls (world s) ++ [CallMoveTab tabId target]) s).
Proof. unfold moveTab. run. cbn. now destruct (bookmarks_move _ _ _ _ _). Qed.

Lemma removeTabFromCollection_run (B : Browser) (tabId : string) (s : State) :
  removeTabFromCollection B tabId s =
  (outcome (removeTabFromCollection B tabId) s,
   set_calls (calls (world s) ++ [CallRemoveTabFromCollection tabId]) s).
Proof. unfold removeTabFromCollection. run. cbn. now destruct (bookmarks_remove _ _ _). Qed.

(** ** A rejected adapter call *)

(** C9. When the adapter call of a tab deletion ([removeTabFromCollection])
    or of a move of a tab to another collection ([moveTab]) throws, every
    collection, and so the tabs of the source and of the target, is as
    before the operation. *)
Theorem rejected_call_leaves_tabs (B : Browser) (s : State) :
  (forall collectionId tabId,
     outcome (removeTabFromCollection B tabId) s = Thrown ->
     collections (exec (deleteTab B collectionId tabId) s) = collections s) /\
  (forall collectionId targetTabId dt,
     draggedOpenTab (drag s) = None ->
     draggedTab (drag s) = Some dt ->
     dt_collectionId dt <> collectionId ->
     outcome (moveTab B (dt_tabId dt) collectionId) s = Thrown ->
     collections (exec (onTabDrop B collectionId targetTabId) s) = collections s) /\
  (forall targetCollectionId dt,
     draggedOpenTab (drag s) = None ->
     draggedTab (drag s) = Some dt ->
     dt_collectionId dt <> targetCollectionId ->
     outcome (moveTab B (dt_tabId dt) targetCollectionId) s = Thrown ->
     collections (exec (onDropToCollection B targetCollectionId) s) = collections s).
Proof.
  split; [|split].
  - intros collectionId tabId Hthrown. unfold deleteTab. run.
    destruct (findCollection collectionId s); [|reflexivity].
    rewrite removeTabFromCollection_run, Hthrown. reflexivity.
  - intros collectionId targetTabId dt Hopen Hdt Hne Hthrown.
    apply String.eqb_neq in Hne. unfold onTabDrop. run.
    rewrite Hopen, Hdt, Hne.
    repeat (case_match; cbn beta iota); try reflexivity.
    all: repeat match goal with
           | H : moveTab _ _ _ _ = _ |- _ => rewrite moveTab_run, Hthrown in H
           end; simplify_eq; reflexivity.
  - intros target dt Hopen Hdt Hne Hthrown.
    apply String.eqb_neq in Hne. unfold onDropToCollection. run.
    rewrite Hopen, Hdt, Hne.
    repeat (case_match; cbn beta iota); try reflexivity.
    all: repeat match goal with
           | H : moveTab _ _ _ _ = _ |- _ => rewrite moveTab_run, Hthrown in H
           end; simplify_eq; reflexivity.
Qed.

Lemma addTabToCollection_run (B : Browser) (collectionId title url favicon : string)
    (s : State) :
  addTabToCollection B collectionId title url favicon s =
  (outcome (addTabToCollection B collectionId title url favicon) s,
   set_calls (calls (world s) ++ [CallAddTabToCollection collectionId title url favicon]) s).
Proof. unfold addTabToCollection. run. cbn. now destruct (bookmarks_create _ _ _ _ _). Qed.

(** ** Open tabs that are never saved *)

Lemma system_or_missing_invalid (url : option string) :
  system_or_missing url -> isValidTabUrl url = false.
Proof.
  destruct url as [u|]; [|reflexivity].
  intros (prefix & Hin & Hp). unfold isValidTabUrl.
  destruct (negb (truthy u)); [reflexivity|].
  apply negb_false_iff, some_true_iff. exists prefix. split; [exact Hin|exact Hp].
Qed.

Lemma valid_not_system (url : string) :
  isValidTabUrl (Some url) = true -> ~ system_or_missing (Some url).
Proof. intros Hv Hs. apply system_or_missing_invalid in Hs. congruence. Qed.

Lemma saveCurrentTabs_loop_calls (B : Browser) (collectionId : string)
    (collection : nat) (existingUrls : gset string) (tabs : list BrowserTab)
    (s : State) :
  exists new,
    calls (world (exec (saveCurrentTabs_loop B collectionId collection existingUrls tabs) s))
    = calls (world s) ++ new /\
    adds_valid_urls_only new.
Proof.
  revert s. induction tabs as [|tab rest IH]; intros s.
  - exists []. split; [cbn; now rewrite app_nil_r|]. intros ? ? ? ? [].
  - cbn [saveCurrentTabs_loop]. run.
    destruct (isValidTabUrl (bt_url tab)) eqn:Hvalid; cbn [andb].
    + destruct (negb (bool_decide (default "" (bt_url tab) ∈ existingUrls))).
      * rewrite addTabToCollection_run.
        assert (Hurl : bt_url tab = Some (default "" (bt_url tab))).
        { destruct (bt_url tab); [reflexivity|discriminate]. }
        set (title := or_else (bt_title tab) "Untitled").
        set (favicon := or_else (bt_favIconUrl tab) "").
        set (url := default "" (bt_url tab)) in *.
        set (s1 := set_calls _ s).
        destruct (outcome _ s) as [newTab|].
        -- unfold update_tabs. run.
           match goal with
           | |- context [saveCurrentTabs_loop _ _ _ _ _ ?s2] =>
               destruct (IH s2) as (new & Hnew & Hvalid_new)
           end.
           exists (CallAddTabToCollection collectionId title url favicon :: new).
           split.
           ++ unfold exec in Hnew. rewrite Hnew. cbn. now rewrite <- app_assoc.
           ++ intros c t u f [Heq|Hin]; [|eapply Hvalid_new; eauto].
              injection Heq as <- <- <- <-. now rewrite <- Hurl.
        -- destruct (IH s1) as (new & Hnew & Hvalid_new).
           exists (CallAddTabToCollection collectionId title url favicon :: new).
           split.
           ++ unfold exec in Hnew. rewrite Hnew. cbn. now rewrite <- app_assoc.
           ++ intros c t u f [Heq|Hin]; [|eapply Hvalid_new; eauto].
              injection Heq as <- <- <- <-. now rewrite <- Hurl.
      * apply IH.
    + apply IH.
Qed.

Lemma saveCurrentTabs_loop_skips (B : Browser) (collectionId : string)
    (collection : nat) (existingUrls : gset string)
    (before : list BrowserTab) (tab : BrowserTab) (after : list BrowserTab)
    (s : State) :
  isValidTabUrl (bt_url tab) = false ->
  saveCurrentTabs_loop B collectionId collection existingUrls (before ++ tab :: after) s
  = saveCurrentTabs_loop B collectionId collection existingUrls (before ++ after) s.
Proof.
  intros Hinvalid. revert s. induction before as [|x before IH]; intros s.
  - cbn [app saveCurrentTabs_loop]. run. rewrite Hinvalid. reflexivity.
  - cbn [app saveCurrentTabs_loop]. run.
    destruct (_ && _).
    + match goal with
      | |- context [addTabToCollection ?b ?c ?t ?u ?f ?s0] =>
          destruct (addTabToCollection b c t u f s0) as [[newTab|] s1]
      end; unfold update_tabs; run; apply IH.
    + apply IH.
Qed.

(** C10. An open tab whose url is missing or starts with [chrome://],
    [chrome-extension://], [about:], [edge://], [brave://] or [javascript:]
    is never saved: dropping it on a collection or on a tab of a collection
    changes no collection and makes no call, the loop of the bulk save
    passes over it wherever it stands among the window's tabs, and no call
    of [addTabToCollection] made by a bulk save carries such a url. *)
Theorem system_tab_is_never_added (B : Browser) (s : State) :
  (forall tab target targetTabId,
     draggedOpenTab (drag s) = Some tab ->
     system_or_missing (bt_url tab) ->
     (let s' := exec (onDropToCollection B target) s in
      collections s' = collections s /\ world s' = world s) /\
     (let s' := exec (onTabDrop B target targetTabId) s in
      collections s' = collections s /\ world s' = world s)) /\
  (forall collectionId collection existingUrls before tab after,
     system_or_missing (bt_url tab) ->
     saveCurrentTabs_loop B collectionId collection existingUrls (before ++ tab :: after) s
     = saveCurrentTabs_loop B collectionId collection existingUrls (before ++ after) s) /\
  (forall collectionId,
     exists new,
       calls (world (exec (saveCurrentTabs B collectionId) s)) = calls (world s) ++ new /\
       forall c title url favicon,
         In (CallAddTabToCollection c title url favicon) new ->
         ~ system_or_missing (Some url)).
Proof.
  split; [|split].
  - intros tab target targetTabId Hopen Hsys.
    apply system_or_missing_invalid in Hsys.
    split; unfold onDropToCollection, onTabDrop; run;
      destruct (findCollection target s); try (split; reflexivity);
      rewrite Hopen, Hsys, andb_false_r; cbn; auto.
  - intros. apply saveCurrentTabs_loop_skips. now apply system_or_missing_invalid.
  - intros collectionId. unfold saveCurrentTabs, browser_tabs_query. run.
    set (s1 := set_calls _ s).
    destruct (tabs_query B _) as [tabs|]; cbn beta iota.
    + destruct (findCollection collectionId s1) as [collection|]; cbn beta iota.
      * destruct (saveCurrentTabs_loop_calls B collectionId collection
                    (list_to_set (map tab_url (tabs_of collection s1))) tabs s1)
          as (new & Hnew & Hvalid).
        exists (CallTabsQuery :: new). split.
        -- unfold exec in Hnew. rewrite Hnew. cbn. now rewrite <- app_assoc.
        -- intros c t u f [Heq|Hin]; [discriminate|].
           apply valid_not_system. eapply Hvalid; eauto.
      * exists [CallTabsQuery]. split; [reflexivity|].
        intros c t u f [Heq|[]]. discriminate.
    + exists [CallTabsQuery]. split; [reflexivity|].
      intros c t u f [Heq|[]]. discriminate.
Qed.

(** ** Reordering by drag and drop *)

Lemma splice_remove_one {A} (l : list A) (i : nat) (x : A) :
  l !! i = Some x -> splice i 1 [] l = ([x], delete i l).
Proof.
  intros Hx. unfold splice. f_equal.
  - rewrite (drop_S l x i Hx). reflexivity.
  - cbn [app]. rewrite Nat.add_1_r. symmetry. apply delete_take_drop.
Qed.

(** [move_item] takes the element at [index] out and puts it back at
    position [target] of what is left. *)
Lemma move_item_spec {A} (l : list A) (index target : nat) (x : A) :
  l !! index = Some x ->
  move_item index target l =
  take target (delete index l) ++ x :: drop target (delete index l).
Proof.
  intros Hx. unfold move_item. rewrite (splice_remove_one l index x Hx).
  unfold splice. cbn [snd app]. now rewrite Nat.add_0_r.
Qed.

Lemma move_item_lookup {A} (l : list A) (index target : nat) (x : A) :
  l !! index = Some x -> target < length l ->
  move_item index target l !! target = Some x.
Proof.
  intros Hx Hlt. rewrite (move_item_spec l index target x Hx).
  assert (Hlen : length (delete index l) = length l - 1).
  { rewrite length_delete; [lia|]. eauto. }
  rewrite lookup_app_r; rewrite length_take; [|lia].
  replace (target - target `min` length (delete index l)) with 0 by lia.
  reflexivity.
Qed.

Lemma move_item_perm {A} (l : list A) (index target : nat) (x : A) :
  l !! index = Some x -> move_item index target l ≡ₚ l.
Proof.
  intros Hx. rewrite (move_item_spec l index target x Hx).
  rewrite <- Permutation_middle, take_drop.
  symmetry. now apply delete_Permutation.
Qed.

Lemma move_item_same {A} (l : list A) (index : nat) (x : A) :
  l !! index = Some x ->
  take index (delete index l) ++ x :: drop index (delete index l) = l.
Proof.
  intros Hx. rewrite delete_take_drop.
  assert (Hlen : length (take index l) = index).
  { rewrite length_take. apply lookup_lt_Some in Hx. lia. }
  rewrite take_app_length' by (symmetry; exact Hlen).
  rewrite drop_app_length' by (symmetry; exact Hlen).
  rewrite <- (take_drop_middle l index x Hx) at 3. reflexivity.
Qed.

(** [getOrCreateRootFolder] touches nothing but the cached root id. *)
Lemma getOrCreateRootFolder_frame (B : Browser) (s : State) :
  exists r, (getOrCreateRootFolder B s).2 = set_rootFolderId r s.
Proof.
  unfold getOrCreateRootFolder. run.
  destruct s as [cs gs sel dlg ed dr [cl root ui]]. cbn.
  repeat (case_match; cbn in *; simplify_eq); eexists; reflexivity.
Qed.

Lemma moveGroupToIndex_frame (B : Browser) (groupId : string) (index : nat)
    (s : State) :
  exists r, (moveGroupToIndex B groupId index s).2 =
            set_rootFolderId r
              (set_calls (calls (world s) ++ [CallMoveGroupToIndex groupId index]) s).
Proof.
  unfold moveGroupToIndex. run.
  set (s1 := set_calls _ s).
  destruct (getOrCreateRootFolder_frame B s1) as (r & Hr).
  destruct (getOrCreateRootFolder B s1) as [[rootId|] s2]; cbn in Hr; subst s2.
  - exists r. now destruct (bookmarks_move _ _ _ _ _).
  - exists r. reflexivity.
Qed.

Lemma onGroupDrop_run (B : Browser) (s : State) (S T : string)
    (sourceIndex targetIndex : nat) :
  draggedGroup (drag s) = Some S ->
  S <> "" ->
  S <> T ->
  findIndex (grp_has_id S) (groups s) = Some sourceIndex ->
  findIndex (grp_has_id T) (groups s) = Some targetIndex ->
  exists r,
    exec (onGroupDrop B T) s =
    set_dragOverGroupId None (set_draggedGroup None
      (set_rootFolderId r
         (set_calls (calls (world s) ++ [CallMoveGroupToIndex S targetIndex])
            (set_groups (move_item sourceIndex targetIndex (groups s)) s)))).
Proof.
  intros Hdrag Hne HST Hsrc Htgt.
  unfold onGroupDrop. run. rewrite Hdrag.
  apply String.eqb_neq in Hne, HST. unfold truthy. rewrite Hne, HST. cbn [negb orb].
  rewrite Hsrc, Htgt.
  set (s1 := set_groups _ s).
  destruct (moveGroupToIndex_frame B S targetIndex s1) as (r & Hr).
  exists r.
  destruct (moveGroupToIndex B S targetIndex s1) as [[[]|] s2];
    cbn in Hr; subst s2; reflexivity.
Qed.

(** C3. A drop of the dragged group [S] on another group [T], both in the
    list, makes exactly one call of [moveGroupToIndex], for [S] and the
    index of [T]; the local list is the original one with [S] taken out and
    put back at the index [T] had, where [S] then stands.  The list is the
    same whatever the browser answers, so whether the call succeeds or not.
    The marker holds the id [S], a bookmark id, which is not empty: for an
    empty marker [onGroupDragOver] returns before [preventDefault], and the
    browser delivers no drop. *)
Theorem group_drop_reorders (B : Browser) (s : State) (S T : string)
    (sourceIndex targetIndex : nat) :
  draggedGroup (drag s) = Some S ->
  S <> "" ->
  S <> T ->
  findIndex (grp_has_id S) (groups s) = Some sourceIndex ->
  findIndex (grp_has_id T) (groups s) = Some targetIndex ->
  let s' := exec (onGroupDrop B T) s in
  calls (world s') = calls (world s) ++ [CallMoveGroupToIndex S targetIndex] /\
  (exists moved,
     groups s !! sourceIndex = Some moved /\ grp_id moved = S /\
     groups s' =
       take targetIndex (delete sourceIndex (groups s)) ++
       moved :: drop targetIndex (delete sourceIndex (groups s)) /\
     groups s' !! targetIndex = Some moved) /\
  (forall B', groups (exec (onGroupDrop B' T) s) = groups s').
Proof.
  intros Hdrag Hne HST Hsrc Htgt s'.
  destruct (findIndex_Some _ _ _ Hsrc) as (moved & Hmoved & Hid & _).
  pose proof (findIndex_lt _ _ _ Htgt) as Hlt.
  apply String.eqb_eq in Hid.
  destruct (onGroupDrop_run B s S T sourceIndex targetIndex Hdrag Hne HST Hsrc Htgt)
    as (r & Hs').
  fold s' in Hs'. split; [now rewrite Hs'|]. split.
  - exists moved. split; [exact Hmoved|]. split; [exact Hid|].
    rewrite Hs'. cbn [groups set_dragOverGroupId set_draggedGroup set_rootFolderId
                      set_calls set_groups with_drag with_world].
    split; [now apply move_item_spec|now apply move_item_lookup].
  - intros B'.
    destruct (onGroupDrop_run B' s S T sourceIndex targetIndex Hdrag Hne HST Hsrc Htgt)
      as (r' & Hs'').
    rewrite Hs'', Hs'. reflexivity.
Qed.

Lemma tabs_of_update_tabs (collection : nat) (f : list TabItem -> list TabItem)
    (s : State) :
  collection < length (collections s) ->
  tabs_of collection (exec (update_tabs collection f) s) = f (tabs_of collection s).
Proof.
  intros Hlt. unfold update_tabs, tabs_of. run. cbn.
  destruct (lookup_lt_is_Some_2 _ _ Hlt) as [c Hc].
  rewrite list_lookup_alter_eq, Hc. reflexivity.
Qed.

(** C7. A drop of a tab on a tab of its own collection makes no call and
    writes nothing to storage (the world outside the page is as before); of
    the page it changes only the tabs of that collection, which are
    permuted: when both tabs are found, the dragged one is taken out of its
    index and put back at the index of the target. *)
Theorem same_collection_drop_is_local (B : Browser) (s : State)
    (collectionId sourceTabId targetTabId : string) (collection : nat) :
  draggedOpenTab (drag s) = None ->
  draggedTab (drag s) =
    Some {| dt_collectionId := collectionId; dt_tabId := sourceTabId |} ->
  findCollection collectionId s = Some collection ->
  let tabs := tabs_of collection s in
  let s' := exec (onTabDrop B collectionId targetTabId) s in
  world s' = world s /\
  groups s' = groups s /\
  collections s' =
    alter (with_col_tabs (tabs_of collection s')) collection (collections s) /\
  tabs_of collection s' ≡ₚ tabs /\
  forall sourceIndex targetIndex,
    findIndex (tab_has_id sourceTabId) tabs = Some sourceIndex ->
    findIndex (tab_has_id targetTabId) tabs = Some targetIndex ->
    exists moved,
      tabs !! sourceIndex = Some moved /\
      tabs_of collection s' =
        take targetIndex (delete sourceIndex tabs) ++
        moved :: drop targetIndex (delete sourceIndex tabs) /\
      tabs_of collection s' !! targetIndex = Some moved.
Proof.
  intros Hopen Hdt Hfind tabs s'.
  pose proof (findIndex_lt _ _ _ Hfind) as Hlt.
  destruct (lookup_lt_is_Some_2 _ _ Hlt) as [c Hc].
  assert (Htabs : tabs = col_tabs c) by (unfold tabs, tabs_of; now rewrite Hc).
  assert (Hsame : alter (with_col_tabs (col_tabs c)) collection (collections s)
                  = collections s).
  { apply list_eq. intros i. rewrite list_lookup_alter.
    case_decide; [subst i|reflexivity].
    rewrite Hc. cbn. now destruct c. }
  assert (Hs' :
    s' = set_dragOverTabId None (set_draggedTab None
           match findIndex (tab_has_id sourceTabId) tabs,
                 findIndex (tab_has_id targetTabId) tabs with
           | Some sourceIndex, Some targetIndex =>
               if negb (Nat.eqb sourceIndex targetIndex)
               then exec (update_tabs collection (move_item sourceIndex targetIndex)) s
               else s
           | _, _ => s
           end)).
  { subst s'. unfold onTabDrop. run. rewrite Hfind, Hopen, Hdt. cbn [dt_collectionId dt_tabId].
    rewrite String.eqb_refl. fold tabs.
    destruct (findIndex (tab_has_id sourceTabId) tabs) as [si|]; [|reflexivity].
    destruct (findIndex (tab_has_id targetTabId) tabs) as [ti|]; [|reflexivity].
    destruct (negb (Nat.eqb si ti)); reflexivity. }
  destruct (findIndex (tab_has_id sourceTabId) tabs) as [si|] eqn:Hsi.
  2:{ rewrite Hs'. cbn. fold tabs. repeat split; auto.
      - unfold tabs_of. cbn. rewrite Hc. now rewrite Hsame.
      - discriminate. }
  destruct (findIndex (tab_has_id targetTabId) tabs) as [ti|] eqn:Hti.
  2:{ rewrite Hs'. cbn. fold tabs. repeat split; auto.
      - unfold tabs_of. cbn. rewrite Hc. now rewrite Hsame.
      - discriminate. }
  destruct (findIndex_Some _ _ _ Hsi) as (moved & Hmoved & _).
  pose proof (findIndex_lt _ _ _ Hti) as Hti_lt.
  destruct (Nat.eqb_spec si ti) as [->|Hne]; cbn [negb] in Hs'.
  - assert (Ht : tabs_of collection s' = tabs) by (rewrite Hs'; reflexivity).
    rewrite Ht. rewrite Hs'. cbn. repeat split; auto.
    + rewrite Htabs. now rewrite Hsame.
    + intros ? ? [= <-] [= <-]. exists moved.
      repeat split; [exact Hmoved| |exact Hmoved].
      symmetry. now apply move_item_same.
  - assert (Ht : tabs_of collection s' = move_item si ti tabs).
    { rewrite Hs'. change (tabs_of collection (set_dragOverTabId None (set_draggedTab None ?x)))
        with (tabs_of collection x).
      now rewrite tabs_of_update_tabs. }
    rewrite Ht. repeat split.
    + rewrite Hs'. reflexivity.
    + rewrite Hs'. reflexivity.
    + rewrite Hs'. unfold update_tabs. run. cbn.
      apply list_eq. intros i. rewrite !list_lookup_alter.
      case_decide; [subst i|reflexivity].
      rewrite Hc. cbn. now rewrite <- Htabs.
    + now apply move_item_perm with moved.
    + intros ? ? [= <-] [= <-]. exists moved.
      repeat split; [exact Hmoved| |].
      * now apply move_item_spec.
      * now apply move_item_lookup.
Qed.

(** ** Groups and the collections that refer to them *)

Lemma createGroupInBookmarks_frame (B : Browser) (name : string) (s : State) :
  exists r, (createGroupInBookmarks B name s).2 =
            set_rootFolderId r (set_calls (calls (world s) ++ [CallCreateGroup name]) s).
Proof.
  unfold createGroupInBookmarks. run.
  set (s1 := set_calls _ s).
  destruct (getOrCreateRootFolder_frame B s1) as (r & Hr).
  destruct (getOrCreateRootFolder B s1) as [[rootId|] s2]; cbn in Hr; subst s2.
  - exists r. now destruct (bookmarks_create _ _ _ _ _).
  - exists r. reflexivity.
Qed.

Lemma deleteGroupInBookmarks_run (B : Browser) (id : string) (s : State) :
  deleteGroupInBookmarks B id s =
  (outcome (deleteGroupInBookmarks B id) s,
   set_calls (calls (world s) ++ [CallDeleteGroup id]) s).
Proof. unfold deleteGroupInBookmarks. run. cbn. now destruct (bookmarks_removeTree _ _ _). Qed.

Lemma createGroup_effect (B : Browser) (s : State) :
  let s' := exec (createGroup B) s in
  collections s' = collections s /\
  exists added, groups s' = groups s ++ added.
Proof.
  unfold createGroup. run.
  destruct (negb (truthy _)); [split; [reflexivity|exists []; now rewrite app_nil_r]|].
  match goal with
  | |- context [createGroupInBookmarks B ?n s] =>
      destruct (createGroupInBookmarks_frame B n s) as (r & Hr);
      destruct (createGroupInBookmarks B n s) as [[g|] s1]
  end; cbn in Hr; subst s1; cbn.
  - split; [reflexivity|]. exists [g]. reflexivity.
  - split; [reflexivity|]. exists []. now rewrite app_nil_r.
Qed.

Lemma deleteGroup_effect (B : Browser) (id : string) (s : State) :
  let s' := exec (deleteGroup B id) s in
  (collections s' = collections s /\ groups s' = groups s) \/
  (collections s' =
     List.filter (fun c => negb (String.eqb (col_groupId c) id)) (collections s) /\
   groups s' = List.filter (fun g => negb (String.eqb (grp_id g) id)) (groups s)).
Proof.
  unfold deleteGroup. run.
  destruct (confirm B _); [|left; split; reflexivity].
  rewrite deleteGroupInBookmarks_run.
  destruct (outcome _ s) as [[]|]; cbn; [|left; split; reflexivity].
  right. destruct (String.eqb _ _); split; reflexivity.
Qed.

Lemma deleteGroup_done (B : Browser) (id : string) (s : State) :
  confirm B (calls (world s)) = true ->
  outcome (deleteGroupInBookmarks B id) s = Returned tt ->
  let s' := exec (deleteGroup B id) s in
  collections s' =
    List.filter (fun c => negb (String.eqb (col_groupId c) id)) (collections s) /\
  groups s' = List.filter (fun g => negb (String.eqb (grp_id g) id)) (groups s).
Proof.
  intros Hconfirm Hok. unfold deleteGroup. run.
  rewrite Hconfirm, deleteGroupInBookmarks_run, Hok. cbn.
  destruct (String.eqb _ _); split; reflexivity.
Qed.

Lemma run_group_op_referenced (B : Browser) (op : GroupOp) (s : State) :
  groups_referenced s -> groups_referenced (exec (run_group_op B op) s).
Proof.
  intros Href. destruct op as [typedName|id]; cbn [run_group_op].
  - change (exec (modify (set_newGroupName typedName);; createGroup B) s)
      with (exec (createGroup B) (set_newGroupName typedName s)).
    destruct (createGroup_effect B (set_newGroupName typedName s)) as (Hc & added & Hg).
    intros c Hin. rewrite Hc in Hin. destruct (Href c Hin) as (g & Hg_in & Hid).
    exists g. split; [|exact Hid]. rewrite Hg. apply in_or_app. now left.
  - destruct (deleteGroup_effect B id s) as [[Hc Hg]|[Hc Hg]];
      intros c Hin; rewrite Hc in Hin.
    + destruct (Href c Hin) as (g & Hg_in & Hid). exists g. now rewrite Hg.
    + apply filter_In in Hin as [Hin Hkeep].
      destruct (Href c Hin) as (g & Hg_in & Hid).
      exists g. split; [|exact Hid]. rewrite Hg. apply filter_In.
      split; [exact Hg_in|]. now rewrite Hid.
Qed.

Lemma run_group_op_collections (B : Browser) (op : GroupOp) (s : State) (c : Collection) :
  In c (collections (exec (run_group_op B op) s)) -> In c (collections s).
Proof.
  destruct op as [typedName|id]; cbn [run_group_op].
  - change (exec (modify (set_newGroupName typedName);; createGroup B) s)
      with (exec (createGroup B) (set_newGroupName typedName s)).
    destruct (createGroup_effect B (set_newGroupName typedName s)) as (Hc & _).
    now rewrite Hc.
  - destruct (deleteGroup_effect B id s) as [[Hc _]|[Hc _]]; rewrite Hc; [auto|].
    intros Hin. now apply filter_In in Hin as [Hin _].
Qed.

Lemma run_group_ops_collections (B : Browser) (ops : list GroupOp) (s : State)
    (c : Collection) :
  In c (collections (run_group_ops B ops s)) -> In c (collections s).
Proof.
  revert s. induction ops as [|op ops IH]; intros s; cbn; [auto|].
  intros Hin. apply IH in Hin. eapply run_group_op_collections; eauto.
Qed.

(** C2. Along any sequence of group creations and deletions, every
    collection keeps referring to a group of the list; and once a group [G]
    has been deleted (the user confirmed and the adapter removed the
    folder), neither a collection of [G] nor [G] itself is in the lists, and
    no collection of [G] is there after any further creations and
    deletions. *)
Theorem deleted_group_leaves_no_collection (B : Browser) (s : State)
    (ops : list GroupOp) :
  (groups_referenced s -> groups_referenced (run_group_ops B ops s)) /\
  (forall G,
     confirm B (calls (world s)) = true ->
     outcome (deleteGroupInBookmarks B G) s = Returned tt ->
     let s1 := exec (deleteGroup B G) s in
     (forall c, In c (collections s1) -> col_groupId c <> G) /\
     (forall g, In g (groups s1) -> grp_id g <> G) /\
     (forall c, In c (collections (run_group_ops B ops s1)) -> col_groupId c <> G)).
Proof.
  split.
  - revert s. induction ops as [|op ops IH]; intros s Href; cbn; [exact Href|].
    apply IH. now apply run_group_op_referenced.
  - intros G Hconfirm Hok s1.
    destruct (deleteGroup_done B G s Hconfirm Hok) as (Hc & Hg). fold s1 in Hc, Hg.
    assert (Hgone : forall c, In c (collections s1) -> col_groupId c <> G).
    { intros c Hin. rewrite Hc in Hin. apply filter_In in Hin as [_ Hkeep].
      apply negb_true_iff in Hkeep. now apply String.eqb_neq. }
    repeat split.
    + exact Hgone.
    + intros g Hin. rewrite Hg in Hin. apply filter_In in Hin as [_ Hkeep].
      apply negb_true_iff in Hkeep. now apply String.eqb_neq.
    + intros c Hin. apply Hgone. eapply run_group_ops_collections; eauto.
Qed.

(** ** The order of the collections, saved and restored *)

Section SortFacts.

Context {A : Type} (compare : A -> A -> comparison).

Hypothesis compare_total :
  forall x y, compare x y = Gt -> not_after compare y x.
Hypothesis compare_trans :
  forall x y z, not_after compare x y -> not_after compare y z -> not_after compare x z.

Lemma sort_insert_perm (x : A) (l : list A) : sort_insert compare x l ≡ₚ x :: l.
Proof.
  induction l as [|y l IH]; cbn; [reflexivity|].
  destruct (compare x y); try reflexivity.
  rewrite IH. apply perm_swap.
Qed.

Lemma sort_perm (l : list A) : sort compare l ≡ₚ l.
Proof.
  induction l as [|x l IH]; cbn; [reflexivity|].
  rewrite sort_insert_perm. now rewrite IH.
Qed.

Lemma sort_insert_sorted (x : A) (l : list A) :
  StronglySorted (not_after compare) l -> StronglySorted (not_after compare) (sort_insert compare x l).
Proof.
  induction 1 as [|y l Hsorted IH Hall]; cbn.
  - repeat constructor.
  - assert (Hfront : not_after compare x y ->
                     StronglySorted (not_after compare) (x :: y :: l)).
    { intros Hxy. constructor; [now constructor|].
      constructor; [exact Hxy|].
      eapply Forall_impl; [exact Hall|]. intros z Hyz. eapply compare_trans; eauto. }
    destruct (compare x y) eqn:Hcmp.
    + apply Hfront. unfold not_after. now rewrite Hcmp.
    + apply Hfront. unfold not_after. now rewrite Hcmp.
    + constructor; [exact IH|].
      rewrite sort_insert_perm. constructor; [|exact Hall].
      now apply compare_total.
Qed.

Lemma sort_sorted (l : list A) : StronglySorted (not_after compare) (sort compare l).
Proof.
  induction l as [|x l IH]; cbn; [constructor|].
  now apply sort_insert_sorted.
Qed.

End SortFacts.

Lemma compare_order_total (a b : option Z) :
  compare_order a b = Gt -> order_not_after b a.
Proof.
  unfold order_not_after. destruct a as [a|], b as [b|]; cbn; try discriminate.
  intros Hgt. rewrite Z.compare_antisym, Hgt. discriminate.
Qed.

Lemma order_not_after_trans (a b c : option Z) :
  order_not_after a b -> order_not_after b c -> order_not_after a c.
Proof.
  unfold order_not_after.
  destruct a as [a|], b as [b|], c as [c|]; cbn; try congruence.
  rewrite !Z.compare_gt_iff. lia.
Qed.

#[local] Instance order_not_after_antisym : AntiSymm (=) order_not_after.
Proof.
  intros a b. unfold order_not_after.
  destruct a as [a|], b as [b|]; cbn; try congruence.
  rewrite !Z.compare_gt_iff. intros. f_equal. lia.
Qed.

Lemma consecutive_orders_sorted {A} (f : A -> option Z) (l : list A) (k : nat) :
  (forall i x, l !! i = Some x -> f x = Some (Z.of_nat (k + i))) ->
  StronglySorted order_not_after (map f l).
Proof.
  revert k. induction l as [|x l IH]; intros k Hf; cbn; constructor.
  - apply (IH (S k)). intros i y Hy. rewrite (Hf (S i) y Hy). do 2 f_equal. lia.
  - apply Forall_forall. intros o Ho. apply list_elem_of_In, in_map_iff in Ho as (y & <- & Hy).
    apply list_elem_of_In, list_elem_of_lookup in Hy as (i & Hi).
    rewrite (Hf 0 x eq_refl), (Hf (S i) y Hi).
    unfold order_not_after. cbn. rewrite Z.compare_gt_iff. lia.
Qed.

Lemma map_eq_inj_on {A B} (f : A -> B) (l1 l2 : list A) :
  (forall x y, In x l1 -> In y l2 -> f x = f y -> x = y) ->
  map f l1 = map f l2 -> l1 = l2.
Proof.
  revert l2. induction l1 as [|x l1 IH]; intros [|y l2] Hinj; cbn; try discriminate.
  - reflexivity.
  - intros [= Hxy Hrest]. f_equal.
    + apply Hinj; [now left|now left|exact Hxy].
    + apply IH; [|exact Hrest]. intros a b Ha Hb. apply Hinj; now right.
Qed.

Lemma js_assign_insert (id : string) (value : CollectionUIState)
    (states : CollectionUIStates) :
  id <> "__proto__" -> js_assign id value states = <[id := value]> states.
Proof.
  intros Hid. apply String.eqb_neq in Hid. unfold js_assign. now rewrite Hid.
Qed.


Lemma js_assign_other (id other : string) (value : CollectionUIState)
    (states : CollectionUIStates) :
  other <> id -> js_assign id value states !! other = states !! other.
Proof.
  intros Hother. unfold js_assign. destruct (_ && _); [reflexivity|].
  now apply lookup_insert_ne.
Qed.

Lemma plain_key_proto (id : string) : plain_key id -> id <> "__proto__".
Proof. intros Hplain ->. discriminate Hplain. Qed.

Lemma assign_order_other (cs : list Collection) (k : nat)
    (states : CollectionUIStates) (id : string) :
  (forall c, In c cs -> col_id c <> id) ->
  assign_order cs k states !! id = states !! id.
Proof.
  revert k states. induction cs as [|c cs IH]; intros k states Hne; cbn; [reflexivity|].
  rewrite IH by (intros c' Hc'; apply Hne; now right).
  apply js_assign_other. intros Heq. apply (Hne c); [now left|now symmetry].
Qed.

Lemma assign_order_lookup (cs : list Collection) (k : nat)
    (states : CollectionUIStates) (i : nat) (c : Collection) :
  NoDup (map col_id cs) ->
  (forall c', In c' cs -> col_id c' <> "__proto__") ->
  cs !! i = Some c ->
  assign_order cs k states !! col_id c =
  Some {| expanded := default false (col_expanded c); order := Z.of_nat (k + i) |}.
Proof.
  revert k states i. induction cs as [|c0 cs IH]; intros k states i Hnodup Hplain Hi;
    [discriminate|].
  cbn in Hnodup. apply NoDup_cons in Hnodup as [Hfresh Hnodup].
  destruct i as [|i]; cbn in Hi |- *.
  - injection Hi as ->. rewrite assign_order_other.
    + rewrite js_assign_insert by (apply Hplain; now left).
      rewrite lookup_insert_eq, Nat.add_0_r. reflexivity.
    + intros c' Hc' Heq. apply Hfresh. rewrite <- Heq.
      apply list_elem_of_In, in_map, Hc'.
  - rewrite (IH (S k) _ i Hnodup (fun c' Hc' => Hplain c' (or_intror Hc')) Hi).
    do 3 f_equal. lia.
Qed.

(** Sorting any arrangement of the collections by the orders that
    [assign_order] gave them yields the arrangement that was saved. *)
Lemma restoreCollections_ids (cs loaded : list Collection)
    (saved : CollectionUIStates) :
  (forall i c, cs !! i = Some c -> order <$> saved !! col_id c = Some (Z.of_nat i)) ->
  map col_id loaded ≡ₚ map col_id cs ->
  map col_id (restoreCollections loaded saved) = map col_id cs.
Proof.
  intros Horder Hperm.
  set (rank := fun id : string => order <$> saved !! id).
  set (restored := restoreCollections loaded saved).
  assert (Hids : map col_id restored ≡ₚ map col_id cs).
  { rewrite <- Hperm. unfold restored, restoreCollections.
    rewrite sort_perm, map_map. reflexivity. }
  apply (map_eq_inj_on rank).
  - intros x y Hx Hy Hxy.
    eapply Permutation_in in Hx; [|exact Hids].
    apply in_map_iff in Hx as (cx & <- & Hcx). apply in_map_iff in Hy as (cy & <- & Hcy).
    apply list_elem_of_In, list_elem_of_lookup in Hcx as (i & Hi).
    apply list_elem_of_In, list_elem_of_lookup in Hcy as (j & Hj).
    unfold rank in Hxy. rewrite (Horder i cx Hi), (Horder j cy Hj) in Hxy.
    assert (i = j) as -> by (injection Hxy; lia). congruence.
  - apply (StronglySorted_unique order_not_after).
    + rewrite map_map.
      apply (StronglySorted_fmap _
               (not_after (fun a b => compare_order (order_or_infinity saved a)
                                                    (order_or_infinity saved b)))).
      * intros a b Hab. exact Hab.
      * apply sort_sorted.
        -- intros a b. apply compare_order_total.
        -- intros a b c. apply order_not_after_trans.
    + rewrite map_map. apply (consecutive_orders_sorted _ _ 0). exact Horder.
    + now apply Permutation_map.
Qed.

Lemma loadCollectionUIStates_run (B : Browser) (s : State) :
  storage_works B ->
  loadCollectionUIStates B s =
  (Returned (default ∅ (uiStore (world s))),
   set_calls (calls (world s) ++ [CallLoadCollectionUIStates]) s).
Proof.
  intros (Havail & Hget & _). unfold loadCollectionUIStates. run.
  rewrite Havail, Hget. reflexivity.
Qed.

Lemma saveCollectionOrder_run (B : Browser) (s : State) :
  storage_works B ->
  exists log',
    saveCollectionOrder B s =
    (Returned tt,
     set_uiStore
       (Some (assign_order (collections s) 0 (default ∅ (uiStore (world s)))))
       (set_calls log' s)).
Proof.
  intros (Havail & Hget & Hset).
  unfold saveCollectionOrder, loadCollectionUIStates, saveCollectionUIStates. run.
  rewrite Havail, Hget. cbn. rewrite Hset. eexists. reflexivity.
Qed.

(** C4. After a drop of the dragged collection on another one, the list
    is the original one with the dragged collection taken out and put back
    at the index of the target; the UI state saved for each collection has
    as [order] the index of the collection in the new list; and a page
    opened later over the same storage, reading the UI states with
    [loadCollectionUIStates] and sorting by them the collections that the
    bookmarks give in any arrangement, restores the ids in the order of the
    new list.  The storage is taken to work (a failed write is only logged)
    and the ids, bookmark ids, to be distinct, not empty (with an empty
    marker the card's [@drop] does not call [onCollectionDrop]) and other
    than [__proto__] (under which name [states\[c.id\] = ...] stores
    nothing). *)
Theorem collection_order_round_trip (B : Browser) (s : State)
    (dragged target : string) (sourceIndex targetIndex : nat) :
  storage_works B ->
  NoDup (map col_id (collections s)) ->
  (forall c, In c (collections s) -> col_id c <> "__proto__") ->
  draggedCollection (drag s) = Some dragged ->
  dragged <> "" ->
  dragged <> target ->
  findIndex (col_has_id dragged) (collections s) = Some sourceIndex ->
  findIndex (col_has_id target) (collections s) = Some targetIndex ->
  let s' := exec (onCollectionDrop B target) s in
  (exists moved,
     collections s !! sourceIndex = Some moved /\ col_id moved = dragged /\
     collections s' =
       take targetIndex (delete sourceIndex (collections s)) ++
       moved :: drop targetIndex (delete sourceIndex (collections s))) /\
  exists saved,
    uiStore (world s') = Some saved /\
    (forall i c,
       collections s' !! i = Some c ->
       saved !! col_id c =
       Some {| expanded := default false (col_expanded c); order := Z.of_nat i |}) /\
    (forall reopened loaded,
       uiStore (world reopened) = uiStore (world s') ->
       map col_id loaded ≡ₚ map col_id (collections s') ->
       exists uiStates,
         outcome (loadCollectionUIStates B) reopened = Returned uiStates /\
         (forall i c,
            collections s' !! i = Some c ->
            order <$> uiStates !! col_id c = Some (Z.of_nat i)) /\
         map col_id (restoreCollections loaded uiStates) =
         map col_id (collections s')).
Proof.
  intros Hstorage Hnodup Hplain Hdrag Hne Hst Hsrc Htgt s'.
  destruct (findIndex_Some _ _ _ Hsrc) as (moved & Hmoved & Hid & _).
  apply String.eqb_eq in Hid.
  set (cs' := move_item sourceIndex targetIndex (collections s)).
  assert (Hs' : exists log',
    s' = set_dragOverCollectionForSort None (set_draggedCollection None
           (set_uiStore (Some (assign_order cs' 0 (default ∅ (uiStore (world s)))))
              (set_calls log' (set_collections cs' s))))).
  { subst s'. unfold onCollectionDrop. run. rewrite Hdrag.
    apply String.eqb_neq in Hne, Hst. unfold truthy. rewrite Hne, Hst. cbn [negb orb].
    rewrite Hsrc, Htgt. fold cs'.
    destruct (saveCollectionOrder_run B (set_collections cs' s) Hstorage) as (log' & Hrun).
    exists log'. rewrite Hrun. reflexivity. }
  destruct Hs' as (log' & Hs').
  assert (Hcs : collections s' = cs') by (rewrite Hs'; reflexivity).
  assert (Hperm : cs' ≡ₚ collections s) by (now apply move_item_perm with moved).
  assert (Hnodup' : NoDup (map col_id cs')) by (now rewrite Hperm).
  assert (Hplain' : forall c, In c cs' -> col_id c <> "__proto__").
  { intros c Hc. apply Hplain. apply list_elem_of_In. rewrite <- Hperm.
    now apply list_elem_of_In. }
  split.
  - exists moved. repeat split; [exact Hmoved|exact Hid|].
    rewrite Hcs. now apply move_item_spec.
  - eexists. split; [rewrite Hs'; reflexivity|].
    assert (Horder : forall i c, cs' !! i = Some c ->
      assign_order cs' 0 (default ∅ (uiStore (world s))) !! col_id c =
      Some {| expanded := default false (col_expanded c); order := Z.of_nat i |}).
    { intros i c Hi. now rewrite (assign_order_lookup cs' 0 _ i c Hnodup' Hplain' Hi). }
    rewrite Hcs. split; [exact Horder|].
    intros reopened loaded Hstore Hloaded.
    exists (assign_order cs' 0 (default ∅ (uiStore (world s)))).
    assert (Hread : forall i c, cs' !! i = Some c ->
      order <$> assign_order cs' 0 (default ∅ (uiStore (world s))) !! col_id c =
      Some (Z.of_nat i)).
    { intros i c Hi. now rewrite (Horder i c Hi). }
    split; [|split; [exact Hread|]].
    + unfold outcome. rewrite (loadCollectionUIStates_run B reopened Hstorage).
      cbn [fst]. rewrite Hstore, Hs'. reflexivity.
    + apply restoreCollections_ids; [exact Hread|exact Hloaded].
Qed.

(** ** Persisted data that is not an array *)

Lemma looks_like_entity_iff (v : JsValue) :
  Legacy.looks_like_entity v = true <-> exists ps, v = JsObject ps /\ In "id" (map fst ps).
Proof.
  unfold Legacy.looks_like_entity. split.
  - destruct v as [| | | | | |ps]; cbn; try discriminate;
      rewrite ?andb_false_r; try discriminate.
    intros H. exists ps. split; [reflexivity|].
    apply existsb_exists in H as ((k & v) & Hin & Hk). cbn in Hk.
    apply String.eqb_eq in Hk as ->. now apply (in_map fst) in Hin.
  - intros (ps & -> & Hin). cbn. apply existsb_exists.
    apply in_map_iff in Hin as ((k & v) & Hk & Hin). cbn in Hk. subst k.
    exists ("id", v). split; [exact Hin|reflexivity].
Qed.

Lemma as_array_not_array (data : JsValue) :
  Legacy.Array_isArray data = false ->
  (forall values, keyed_entities data values -> Legacy.as_array data = values) /\
  ((forall values, ~ keyed_entities data values) -> Legacy.as_array data = []).
Proof.
  intros Hna. split.
  - intros values (props & -> & Hne & -> & Hall). cbn.
    destruct props as [|p props]; [congruence|]. cbn [length Nat.ltb Nat.leb andb].
    replace (forallb Legacy.looks_like_entity (map snd (p :: props))) with true;
      [reflexivity|].
    symmetry. apply forallb_forall. intros v Hv. apply looks_like_entity_iff. auto.
  - intros Hnone.
    destruct data as [| | | | | |props]; cbn in Hna |- *; rewrite ?andb_false_r;
      try reflexivity; try discriminate.
    destruct props as [|p props]; [reflexivity|].
    cbn [length Nat.ltb Nat.leb andb].
    destruct (forallb Legacy.looks_like_entity (map snd (p :: props))) eqn:Hall;
      [|reflexivity].
    exfalso. apply (Hnone (map snd (p :: props))).
    exists (p :: props). repeat split; [discriminate|].
    intros v Hv. apply looks_like_entity_iff.
    revert v Hv. now apply forallb_forall.
Qed.

(** C8, as the code has it.  [loadCollections] and [loadGroups] never
    throw.  For a stored value that is not an array they return the empty
    list, except for an object with at least one property whose values are
    all objects with an [id]: that one is converted to the list of its
    values.  They also return the empty list when the storage is missing or
    rejects the read. *)
Theorem non_array_data_is_coerced (st : Legacy.LocalStorage) :
  (exists l, Legacy.loadCollections st = Returned l) /\
  (exists l, Legacy.loadGroups st = Returned l) /\
  (forall key, Legacy.available st = false \/ Legacy.get_key st key = None ->
     Legacy.load key st = Returned []) /\
  (forall key data,
     Legacy.available st = true ->
     Legacy.get_key st key = Some data ->
     Legacy.Array_isArray data = false ->
     (forall values, keyed_entities data values ->
        Legacy.load key st = Returned values) /\
     ((forall values, ~ keyed_entities data values) ->
        Legacy.load key st = Returned [])).
Proof.
  split; [|split; [|split]].
  - unfold Legacy.loadCollections, Legacy.load.
    destruct (negb _); [eauto|]. destruct (Legacy.get_key _ _); eauto.
  - unfold Legacy.loadGroups, Legacy.load.
    destruct (negb _); [eauto|]. destruct (Legacy.get_key _ _); eauto.
  - intros key [Hna|Hrej]; unfold Legacy.load.
    + now rewrite Hna.
    + rewrite Hrej. now destruct (negb _).
  - intros key data Havailable Hget Hnot_array.
    destruct (as_array_not_array data Hnot_array) as (Hconverted & Hemptied).
    unfold Legacy.load. rewrite Havailable, Hget. cbn [negb].
    split.
    + intros values Hkeyed. f_equal. now apply Hconverted.
    + intros Hnone. f_equal. now apply Hemptied.
Qed.

(** C8, as the specification has it, fails: a legacy object is not an
    array, and both loaders return its values, not the empty list. *)
Lemma legacy_object_is_not_emptied :
  Legacy.Array_isArray legacy_collections = false /\
  Legacy.loadCollections legacy_storage <> Returned [] /\
  Legacy.loadGroups legacy_storage <> Returned [] /\
  Legacy.loadCollections legacy_storage =
    Returned [JsObject [("id", JsString "c1"); ("name", JsString "Docs")]].
Proof. repeat split; discriminate. Qed.

(** ** The drag markers *)

(** *** A relation that every step of a computation respects *)

Section Keeps.

Context (R : State -> State -> Prop) `{!Reflexive R, !Transitive R}.

Lemma keeps_mret {A} (a : A) : keeps R (mret a).
Proof. intros s. reflexivity. Qed.

Lemma keeps_skip : keeps R skip.
Proof. intros s. reflexivity. Qed.

Lemma keeps_get : keeps R get.
Proof. intros s. reflexivity. Qed.

Lemma keeps_throw {A} : keeps R (@throw A).
Proof. intros s. reflexivity. Qed.

Lemma keeps_await {A} (answer : list Call -> option A) : keeps R (await answer).
Proof. intros s. unfold await. destruct (answer _); reflexivity. Qed.

Lemma keeps_await_ok (answer : list Call -> bool) : keeps R (await_ok answer).
Proof. intros s. unfold await_ok. destruct (answer _); reflexivity. Qed.

Lemma keeps_ask {A} (answer : list Call -> A) : keeps R (ask answer).
Proof. intros s. reflexivity. Qed.

Lemma keeps_modify (f : State -> State) : (forall s, R s (f s)) -> keeps R (modify f).
Proof. intros Hf s. apply Hf. Qed.

Lemma keeps_bind {A C} (m : M A) (f : A -> M C) :
  keeps R m -> (forall a, keeps R (f a)) -> keeps R (m ≫= f).
Proof.
  intros Hm Hf s. unfold mbind, M_bind. specialize (Hm s).
  destruct (m s) as [[a|] s1]; cbn in Hm; [|exact Hm].
  etransitivity; [exact Hm|apply Hf].
Qed.

Lemma keeps_try_catch {A} (m h : M A) : keeps R m -> keeps R h -> keeps R (try_catch m h).
Proof.
  intros Hm Hh s. unfold try_catch. specialize (Hm s).
  destruct (m s) as [[a|] s1]; cbn in Hm; [exact Hm|].
  etransitivity; [exact Hm|apply Hh].
Qed.

End Keeps.

(** One step of a proof of [keeps]: [solve_modify] proves that an
    assignment respects the relation. *)
Ltac keeps_step solve_modify :=
  first
    [ solve [ apply keeps_mret; typeclasses eauto
            | apply keeps_skip; typeclasses eauto
            | apply keeps_get; typeclasses eauto
            | apply keeps_throw; typeclasses eauto
            | apply keeps_await; typeclasses eauto
            | apply keeps_await_ok; typeclasses eauto
            | apply keeps_ask; typeclasses eauto
            | auto with keeps
            | apply keeps_modify; solve_modify ]
    | apply keeps_bind; [typeclasses eauto | | intros ?]
    | apply keeps_try_catch; [typeclasses eauto | | ]
    | match goal with
      | |- keeps _ (match ?x with _ => _ end) => destruct x
      end ].

Ltac keeps_all solve_modify := repeat keeps_step solve_modify.

Create HintDb keeps.

#[local] Instance only_cleared_refl : Reflexive only_cleared.
Proof. intros s m. auto. Qed.

#[local] Instance only_cleared_trans : Transitive only_cleared.
Proof. intros s1 s2 s3 H12 H23 m Hm. auto. Qed.

Ltac solve_marker_assignment :=
  intros ? [ | | | ]; cbn; auto; intros; discriminate.

Ltac only_clears := keeps_all solve_marker_assignment.

Section OnlyCleared.

Variable B : Browser.

Lemma log_only_clears (c : Call) : keeps only_cleared (log c).
Proof. unfold log. only_clears. Qed.

Lemma update_tabs_only_clears (collection : nat) (f : list TabItem -> list TabItem) :
  keeps only_cleared (update_tabs collection f).
Proof. unfold update_tabs. only_clears. Qed.

Hint Resolve log_only_clears update_tabs_only_clears : keeps.

Lemma getOrCreateRootFolder_only_clears : keeps only_cleared (getOrCreateRootFolder B).
Proof. unfold getOrCreateRootFolder. only_clears. Qed.

Hint Resolve getOrCreateRootFolder_only_clears : keeps.

Lemma adapters_only_clear :
  (forall name, keeps only_cleared (createGroupInBookmarks B name)) /\
  (forall name groupId, keeps only_cleared (createCollectionInBookmarks B name groupId)) /\
  (forall c t u f, keeps only_cleared (addTabToCollection B c t u f)) /\
  (forall tabId, keeps only_cleared (removeTabFromCollection B tabId)) /\
  (forall id name, keeps only_cleared (updateGroupInBookmarks B id name)) /\
  (forall id name, keeps only_cleared (updateCollectionInBookmarks B id name)) /\
  (forall id, keeps only_cleared (deleteGroupInBookmarks B id)) /\
  (forall id, keeps only_cleared (deleteCollectionInBookmarks B id)) /\
  (forall tabId target, keeps only_cleared (moveTab B tabId target)) /\
  (forall id index, keeps only_cleared (moveGroupToIndex B id index)) /\
  (forall id title, keeps only_cleared (browser_bookmarks_update B id title)) /\
  keeps only_cleared (browser_tabs_query B) /\
  keeps only_cleared (loadCollectionUIStates B) /\
  (forall states, keeps only_cleared (saveCollectionUIStates B states)).
Proof.
  repeat split; intros;
    unfold createGroupInBookmarks, createCollectionInBookmarks, addTabToCollection,
      removeTabFromCollection, updateGroupInBookmarks, updateCollectionInBookmarks,
      deleteGroupInBookmarks, deleteCollectionInBookmarks, moveTab, moveGroupToIndex,
      browser_bookmarks_update, browser_tabs_query, loadCollectionUIStates,
      saveCollectionUIStates, console_error;
    only_clears.
Qed.

End OnlyCleared.

Section MarkerInvariant.

Variable B : Browser.

Lemma saveCurrentTabs_loop_only_clears (collectionId : string) (collection : nat)
    (existingUrls : gset string) (tabs : list BrowserTab) :
  keeps only_cleared (saveCurrentTabs_loop B collectionId collection existingUrls tabs).
Proof.
  destruct (adapters_only_clear B) as (_ & _ & Hadd & _).
  pose proof update_tabs_only_clears.
  induction tabs as [|tab rest IH]; cbn [saveCurrentTabs_loop]; unfold console_error;
    only_clears.
Qed.

(** Only the four drag-start handlers set a marker. *)
Lemma handlers_only_clear (e : Event) :
  starts e = None -> keeps only_cleared (handle B e).
Proof.
  destruct (adapters_only_clear B)
    as (? & ? & ? & ? & ? & ? & ? & ? & ? & ? & ? & ? & ? & ?).
  pose proof update_tabs_only_clears.
  pose proof log_only_clears.
  pose proof saveCurrentTabs_loop_only_clears.
  destruct e; cbn [starts handle]; try discriminate; intros _;
    unfold createGroup, deleteGroup, startEditGroup, saveGroupName, onGroupDragOver,
      onGroupDrop, onGroupDragEnd, createCollection, deleteCollection,
      toggleCollectionExpand, startEditCollection, saveCollectionName,
      saveCurrentTabs, deleteTab, startEditTab, saveTabName, onDragEnd,
      onTabDragOver, onTabDrop, collection_card_dragover, collection_card_drop,
      onCollectionDragOver, onCollectionDrop, onDragOverCollection,
      onDropToCollection, saveCollectionOrder, take_tab_then,
      updateCollectionUIState, removeCollectionUIState, console_error, alert;
    only_clears.
Qed.

End MarkerInvariant.

Lemma within_at_most_one (current : option Marker) (s : State) :
  within current s -> at_most_one_marker s.
Proof.
  intros Hw. unfold at_most_one_marker, markers_set. cbn [List.filter].
  destruct (marker_set TabMarker s) eqn:Ht, (marker_set OpenTabMarker s) eqn:Ho,
    (marker_set CollectionMarker s) eqn:Hc, (marker_set GroupMarker s) eqn:Hg;
    cbn; try lia;
    repeat match goal with H : marker_set _ s = true |- _ => apply Hw in H end;
    congruence.
Qed.

Lemma no_marker_within (s : State) : markers_set s = 0 -> within None s.
Proof.
  unfold markers_set. cbn [List.filter]. intros H0 m Hm.
  destruct m; rewrite Hm in H0;
    repeat match goal with
      | H : context [if ?b then _ else _] |- _ => destruct b
      end; cbn in H0; lia.
Qed.

Lemma ending_clears (B : Browser) (e : Event) (m : Marker) (s : State) :
  ends e m = true -> marker_set m (exec (handle B e) s) = false.
Proof.
  destruct e, m; cbn [ends]; try discriminate; intros _;
    unfold handle, onDragEnd, onGroupDragEnd; run; reflexivity.
Qed.

Lemma within_step (B : Browser) (current : option Marker) (e : Event) (s : State) :
  within current s ->
  (forall m, starts e = Some m -> current = None) ->
  within (drag_after current e) (exec (handle B e) s).
Proof.
  intros Hw Hstart. unfold drag_after.
  destruct (starts e) as [m|] eqn:Hs.
  - specialize (Hstart m eq_refl). subst current.
    assert (Hnone : forall m', marker_set m' s = false).
    { intros m'. destruct (marker_set m' s) eqn:Hm'; [|reflexivity].
      specialize (Hw m' Hm'). discriminate. }
    pose proof (Hnone TabMarker) as Ht. pose proof (Hnone OpenTabMarker) as Ho.
    pose proof (Hnone CollectionMarker) as Hc. pose proof (Hnone GroupMarker) as Hg.
    cbn in Ht, Ho, Hc, Hg.
    destruct e; cbn in Hs; try discriminate; injection Hs as <-;
      unfold handle, onDragStart, onDragStartOpenTab, onCollectionDragStart,
        onGroupDragStart; run;
      intros [ | | | ]; cbn; try reflexivity; intros Hm; congruence.
  - pose proof (handlers_only_clear B e Hs s) as Hcleared.
    fold (exec (handle B e) s) in Hcleared.
    intros m Hm. pose proof (Hw m (Hcleared m Hm)) as ->.
    destruct (ends e m) eqn:He; [|reflexivity].
    rewrite (ending_clears B e m s He) in Hm. discriminate.
Qed.

Lemma drags_in_turn_one_marker (B : Browser) (events : list Event)
    (current : option Marker) (s : State) :
  within current s ->
  drags_in_turn current events ->
  at_most_one_marker (run_events B events s).
Proof.
  revert current s. induction events as [|e rest IH]; intros current s Hw Hturn; cbn.
  - eapply within_at_most_one; eauto.
  - destruct Hturn as (Hstart & Hrest).
    apply (IH (drag_after current e)); [|exact Hrest].
    apply within_step; [exact Hw|].
    intros m Hm. apply Hstart. rewrite Hm. eauto.
Qed.

Lemma drags_in_turn_take (events : list Event) (current : option Marker) (n : nat) :
  drags_in_turn current events -> drags_in_turn current (take n events).
Proof.
  revert current n. induction events as [|e rest IH]; intros current [|n]; cbn; auto.
  intros (Hstart & Hrest). split; [exact Hstart|now apply IH].
Qed.

(** C6, as the code has it.  A drag-start handler sets its own marker; the
    two tab handlers clear each other's marker, the collection handler
    clears the two tab markers, the group handler clears none, and no
    handler clears all the others.  At most one marker is set at any time
    when the drags come in turn, each ended by its drag-end handler
    ([onDragEnd], or [onGroupDragEnd] for a group) before the next starts. *)
Theorem one_marker_when_drags_come_in_turn (B : Browser) :
  (forall s collectionId tabId,
     let s' := exec (onDragStart collectionId tabId) s in
     draggedTab (drag s') =
       Some {| dt_collectionId := collectionId; dt_tabId := tabId |} /\
     draggedOpenTab (drag s') = None /\
     draggedCollection (drag s') = draggedCollection (drag s) /\
     draggedGroup (drag s') = draggedGroup (drag s)) /\
  (forall s tab,
     let s' := exec (onDragStartOpenTab tab) s in
     draggedOpenTab (drag s') = Some tab /\
     draggedTab (drag s') = None /\
     draggedCollection (drag s') = draggedCollection (drag s) /\
     draggedGroup (drag s') = draggedGroup (drag s)) /\
  (forall s collectionId,
     let s' := exec (onCollectionDragStart collectionId) s in
     draggedCollection (drag s') = Some collectionId /\
     draggedTab (drag s') = None /\
     draggedOpenTab (drag s') = None /\
     draggedGroup (drag s') = draggedGroup (drag s)) /\
  (forall s groupId,
     let s' := exec (onGroupDragStart groupId) s in
     draggedGroup (drag s') = Some groupId /\
     draggedTab (drag s') = draggedTab (drag s) /\
     draggedOpenTab (drag s') = draggedOpenTab (drag s) /\
     draggedCollection (drag s') = draggedCollection (drag s)) /\
  (forall events s,
     markers_set s = 0 ->
     drags_in_turn None events ->
     forall n, at_most_one_marker (run_events B (take n events) s)).
Proof.
  repeat split.
  intros events s Hnone Hturn n.
  apply drags_in_turn_one_marker with (current := None).
  - now apply no_marker_within.
  - now apply drags_in_turn_take.
Qed.

(** C6, as the specification has it, fails: a group drag-start leaves the
    marker of a tab drag in place, and two markers are set. *)
Lemma group_drag_start_keeps_tab_marker :
  let s1 := exec (onDragStart "c1" "t1") initial_state in
  let s2 := exec (onGroupDragStart "g1") s1 in
  draggedTab (drag s2) = Some {| dt_collectionId := "c1"; dt_tabId := "t1" |} /\
  draggedGroup (drag s2) = Some "g1" /\
  markers_set s2 = 2 /\
  ~ at_most_one_marker s2.
Proof.
  repeat split. unfold at_most_one_marker.
  change (markers_set _) with 2. lia.
Qed.

(** * Runs of the handlers *)

(** The scenario of the specification: an open tab dropped on an empty
    collection is saved there, and dropping it again adds nothing. *)
Example open_tab_dropped_twice :
  let dragging := exec (onDragStartOpenTab open_tab_A) in
  let dropping := exec (onDropToCollection granting_browser "Docs") in
  let once := dropping (dragging docs_page) in
  let twice := dropping (dragging once) in
  tabs_of 0 once =
    [{| tab_id := "n1"; tab_title := "A"; tab_url := "https://a.com";
        tab_favicon := "https://www.google.com/s2/favicons?domain=a.com&sz=32" |}] /\
  tabs_of 0 twice = tabs_of 0 once /\
  calls (world twice) = [CallAddTabToCollection "Docs" "A" "https://a.com" ""].
Proof. vm_compute. repeat split. Qed.

(** A tab dropped on a tab of another collection goes before that tab once
    the browser has moved the bookmark, and stays where it is otherwise. *)
Example tab_moved_to_other_collection :
  let ids s := map (fun c => (col_id c, map tab_id (col_tabs c))) (collections s) in
  ids (exec (onTabDrop granting_browser "C2" "t4") dragging_tab_b_page)
    = [("C1", ["t1"]); ("C2", ["t3"; "t2"; "t4"])] /\
  ids (exec (onTabDrop rejecting_browser "C2" "t4") dragging_tab_b_page)
    = [("C1", ["t1"; "t2"]); ("C2", ["t3"; "t4"])].
Proof. vm_compute. repeat split. Qed.

(** The bulk save adds the one tab of the window that is neither a system
    page nor without a url nor already in the collection. *)
Example bulk_save_of_the_window :
  let s' := exec (saveCurrentTabs granting_browser "C1") example_page in
  map tab_url (tabs_of 0 s') = ["https://a.com"; "https://b.com"; "https://d.com"] /\
  calls (world s') =
    [CallTabsQuery;
     CallAddTabToCollection "C1" "Untitled" "https://d.com" "https://d.com/favicon.ico"].
Proof. vm_compute. repeat split. Qed.

(** A deleted group takes its collections with it; the next group is
    selected. *)
Example group_deleted :
  let s' := exec (deleteGroup granting_browser "g1") example_page in
  collections s' = [] /\ groups s' = [group_g2] /\ selectedGroupId s' = "g2".
Proof. vm_compute. repeat split. Qed.

(** [sort] keeps the elements that compare equal in their order. *)
Example sort_is_stable :
  sort (fun a b => Z.compare (fst a) (fst b))
       [(2, "a"); (1, "b"); (2, "c"); (1, "d"); (0, "e"); (1, "f")]%Z
  = [(0, "e"); (1, "b"); (1, "d"); (1, "f"); (2, "a"); (2, "c")]%Z.
Proof. reflexivity. Qed.

(** A collection without a saved order sorts after those that have one. *)
Example unordered_collections_sort_last :
  map col_id
    (restoreCollections [collection_Docs; collection_C1; collection_C2]
       (<["C2" := {| expanded := true; order := 0 |}]>
          (<["C1" := {| expanded := false; order := 1 |}]> ∅)))
  = ["C2"; "C1"; "Docs"].
Proof. vm_compute. reflexivity. Qed.

(** Under the id [__proto__] the forEach of [saveCollectionOrder] stores
    nothing: the assignment sets the prototype of the object. *)
Example order_is_not_saved_under_proto :
  assign_order
    [ {| col_id := "__proto__"; col_name := "P"; col_tabs := [];
         col_createdAt := 0%Z; col_groupId := "g1"; col_expanded := None |};
      collection_C1 ] 0 ∅
  = <["C1" := {| expanded := false; order := 1 |}]> ∅.
Proof. reflexivity. Qed.

(** * The properties on the example page *)

Lemma duplicate_url_drop_is_noop_witness :
  Dragging dragging_tab_a_page "C2" "https://a.com" /\
  collections (exec (onDropToCollection granting_browser "C2") dragging_tab_a_page)
    = collections dragging_tab_a_page /\
  world (exec (onTabDrop granting_browser "C2" "t4") dragging_tab_a_page)
    = world dragging_tab_a_page.
Proof.
  assert (Hdrag : Dragging dragging_tab_a_page "C2" "https://a.com").
  { apply (DraggingSavedTab _ _ _ {| dt_collectionId := "C1"; dt_tabId := "t1" |}
             0 0 tab_a); try reflexivity. discriminate. }
  split; [exact Hdrag|].
  destruct (duplicate_url_drop_is_noop granting_browser dragging_tab_a_page
              "C2" "t4" "https://a.com" 1 tab_a_again
              eq_refl (or_introl eq_refl) eq_refl Hdrag)
    as ((Hcollections & _) & (_ & Hworld)).
  split; assumption.
Defined.

Lemma deleted_group_leaves_no_collection_witness :
  let ops := [CreateGroupOp "Play"; DeleteGroupOp "g2"] in
  groups_referenced example_page /\
  confirm granting_browser (calls (world example_page)) = true /\
  outcome (deleteGroupInBookmarks granting_browser "g1") example_page = Returned tt /\
  groups_referenced (run_group_ops granting_browser ops example_page) /\
  (forall c,
     In c (collections (run_group_ops granting_browser ops
                          (exec (deleteGroup granting_browser "g1") example_page))) ->
     col_groupId c <> "g1").
Proof.
  intros ops.
  assert (Href : groups_referenced example_page).
  { intros c [<-|[<-|[]]]; exists group_g1; split; try reflexivity; left; reflexivity. }
  destruct (deleted_group_leaves_no_collection granting_browser example_page ops)
    as (Hkeep & Hdeleted).
  destruct (Hdeleted "g1" eq_refl eq_refl) as (_ & _ & Hgone).
  repeat split; [exact Href|exact (Hkeep Href)|exact Hgone].
Defined.

Lemma group_drop_reorders_witness :
  let s' := exec (onGroupDrop rejecting_browser "g1") dragging_group_page in
  calls (world s') = [CallMoveGroupToIndex "g2" 0] /\
  groups s' = [group_g2; group_g1].
Proof.
  assert (Hne : "g2" <> "") by discriminate.
  assert (Hother : "g2" <> "g1") by discriminate.
  destruct (group_drop_reorders rejecting_browser dragging_group_page "g2" "g1" 1 0
              eq_refl Hne Hother eq_refl eq_refl)
    as (Hcalls & (moved & Hmoved & _ & Hgroups & _) & _).
  split; [exact Hcalls|].
  vm_compute in Hmoved. injection Hmoved as <-. exact Hgroups.
Defined.

Lemma collection_order_round_trip_witness :
  let s' := exec (onCollectionDrop granting_browser "C1") dragging_collection_page in
  let reopened := set_uiStore (uiStore (world s')) initial_state in
  storage_works granting_browser /\
  map col_id (collections s') = ["C2"; "C1"] /\
  (exists saved,
     uiStore (world s') = Some saved /\
     saved !! "C2" = Some {| expanded := false; order := 0 |} /\
     saved !! "C1" = Some {| expanded := false; order := 1 |}) /\
  exists uiStates,
    outcome (loadCollectionUIStates granting_browser) reopened = Returned uiStates /\
    order <$> uiStates !! "C2" = Some 0%Z /\
    order <$> uiStates !! "C1" = Some 1%Z /\
    map col_id (restoreCollections [collection_C1; collection_C2] uiStates) =
    ["C2"; "C1"].
Proof.
  intros s' reopened.
  assert (Hstorage : storage_works granting_browser) by (repeat split).
  assert (Hnodup : NoDup (map col_id (collections dragging_collection_page))).
  { apply (bool_decide_unpack _). vm_compute. reflexivity. }
  assert (Hplain : forall c, In c (collections dragging_collection_page) ->
            col_id c <> "__proto__").
  { intros c [<-|[<-|[]]]; discriminate. }
  assert (Hne : "C2" <> "") by discriminate.
  assert (Hother : "C2" <> "C1") by discriminate.
  destruct (collection_order_round_trip granting_browser dragging_collection_page
              "C2" "C1" 1 0 Hstorage Hnodup Hplain eq_refl Hne Hother eq_refl eq_refl)
    as ((moved & Hmoved & _ & Hlist) & saved & Hsaved & Horder & Hreopen).
  fold s' in Hlist, Hsaved, Horder, Hreopen.
  destruct (Hreopen reopened [collection_C1; collection_C2] eq_refl (perm_swap _ _ _))
    as (uiStates & Hread & Hread_order & Hrestore).
  split; [exact Hstorage|]. split; [reflexivity|].
  split.
  - exists saved. split; [exact Hsaved|].
    split; [exact (Horder 0 collection_C2 eq_refl)|exact (Horder 1 collection_C1 eq_refl)].
  - exists uiStates. split; [exact Hread|].
    split; [exact (Hread_order 0 collection_C2 eq_refl)|].
    split; [exact (Hread_order 1 collection_C1 eq_refl)|exact Hrestore].
Defined.

Lemma empty_rename_is_discarded_witness :
  let s' := exec (saveGroupName granting_browser 0) renaming_page in
  trim granting_browser (editingName (editing renaming_page)) = "" /\
  groups s' = groups renaming_page /\
  editingGroupId (editing renaming_page) = Some "g1" /\
  editingGroupId (editing s') = None.
Proof.
  intros s'.
  assert (Hempty : trim granting_browser (editingName (editing renaming_page)) = "")
    by reflexivity.
  destruct (empty_rename_is_discarded granting_browser renaming_page 0 0 "C1" "t1" Hempty)
    as ((Hgroups & _ & _ & Hediting) & _).
  repeat split; assumption.
Defined.

Lemma one_marker_when_drags_come_in_turn_witness :
  markers_set example_page = 0 /\
  drags_in_turn None example_gestures /\
  at_most_one_marker (run_events granting_browser (take 5 example_gestures) example_page).
Proof.
  assert (Hnone : markers_set example_page = 0) by reflexivity.
  assert (Hturn : drags_in_turn None example_gestures).
  { repeat split; intros [m Hm]; discriminate. }
  destruct (one_marker_when_drags_come_in_turn granting_browser)
    as (_ & _ & _ & _ & Hone).
  split; [exact Hnone|]. split; [exact Hturn|].
  exact (Hone example_gestures example_page Hnone Hturn 5).
Defined.

Lemma same_collection_drop_is_local_witness :
  let s' := exec (onTabDrop granting_browser "C1" "t2") dragging_tab_a_page in
  world s' = world dragging_tab_a_page /\
  tabs_of 0 s' = [tab_b; tab_a].
Proof.
  destruct (same_collection_drop_is_local granting_browser dragging_tab_a_page
              "C1" "t1" "t2" 0 eq_refl eq_refl eq_refl)
    as (Hworld & _ & _ & _ & Hmove).
  destruct (Hmove 0 1 eq_refl eq_refl) as (moved & Hmoved & Htabs & _).
  split; [exact Hworld|].
  vm_compute in Hmoved. injection Hmoved as <-. exact Htabs.
Defined.

Lemma non_array_data_is_coerced_witness :
  Legacy.Array_isArray legacy_collections = false /\
  Legacy.loadCollections legacy_storage =
    Returned [JsObject [("id", JsString "c1"); ("name", JsString "Docs")]] /\
  Legacy.loadGroups scalar_storage = Returned [].
Proof.
  assert (Hkeyed : keyed_entities legacy_collections
            [JsObject [("id", JsString "c1"); ("name", JsString "Docs")]]).
  { eexists. split; [reflexivity|]. split; [discriminate|]. split; [reflexivity|].
    intros v [<-|[]]. eexists. split; [reflexivity|]. left. reflexivity. }
  assert (Hscalar : forall values, ~ keyed_entities (JsString "[]") values).
  { intros values (props & Hprops & _). discriminate. }
  destruct (non_array_data_is_coerced legacy_storage) as (_ & _ & _ & Hobject).
  destruct (non_array_data_is_coerced scalar_storage) as (_ & _ & _ & Hother).
  split; [reflexivity|]. split.
  - exact (proj1 (Hobject Legacy.COLLECTIONS_KEY legacy_collections
                    eq_refl eq_refl eq_refl) _ Hkeyed).
  - exact (proj2 (Hother Legacy.GROUPS_KEY (JsString "[]") eq_refl eq_refl eq_refl)
             Hscalar).
Defined.

Lemma rejected_call_leaves_tabs_witness :
  outcome (removeTabFromCollection rejecting_browser "t2") dragging_tab_b_page = Thrown /\
  outcome (moveTab rejecting_browser "t2" "C2") dragging_tab_b_page = Thrown /\
  collections (exec (deleteTab rejecting_browser "C1" "t2") dragging_tab_b_page)
    = collections dragging_tab_b_page /\
  collections (exec (onTabDrop rejecting_browser "C2" "t4") dragging_tab_b_page)
    = collections dragging_tab_b_page /\
  collections (exec (onDropToCollection rejecting_browser "C2") dragging_tab_b_page)
    = collections dragging_tab_b_page.
Proof.
  assert (Hother : "C1" <> "C2") by discriminate.
  destruct (rejected_call_leaves_tabs rejecting_browser dragging_tab_b_page)
    as (Hdelete & Hdrop & Hcard).
  split; [reflexivity|]. split; [reflexivity|]. split; [|split].
  - exact (Hdelete "C1" "t2" eq_refl).
  - exact (Hdrop "C2" "t4" {| dt_collectionId := "C1"; dt_tabId := "t2" |}
             eq_refl eq_refl Hother eq_refl).
  - exact (Hcard "C2" {| dt_collectionId := "C1"; dt_tabId := "t2" |}
             eq_refl eq_refl Hother eq_refl).
Defined.

Lemma system_tab_is_never_added_witness :
  system_or_missing (bt_url settings_tab) /\
  collections (exec (onDropToCollection granting_browser "C2") dragging_settings_tab_page)
    = collections dragging_settings_tab_page /\
  world (exec (onTabDrop granting_browser "C2" "t4") dragging_settings_tab_page)
    = world dragging_settings_tab_page /\
  saveCurrentTabs_loop granting_browser "C2" 1 ∅ example_open_tabs example_page
    = saveCurrentTabs_loop granting_browser "C2" 1 ∅
        (take 1 example_open_tabs ++ drop 2 example_open_tabs) example_page.
Proof.
  assert (Hsystem : system_or_missing (bt_url settings_tab)).
  { exists "chrome://". split; [left; reflexivity|reflexivity]. }
  split; [exact Hsystem|].
  destruct (system_tab_is_never_added granting_browser dragging_settings_tab_page)
    as (Hdrop & _ & _).
  destruct (Hdrop settings_tab "C2" "t4" eq_refl Hsystem) as ((Hcollections & _) & (_ & Hworld)).
  destruct (system_tab_is_never_added granting_browser example_page) as (_ & Hskip & _).
  split; [exact Hcollections|]. split; [exact Hworld|].
  exact (Hskip "C2" 1 ∅ (take 1 example_open_tabs) settings_tab
           (drop 2 example_open_tabs) Hsystem).
Defined.

(** * Further properties *)

(** ** The UI-state store *)

Lemma saveCollectionUIStates_run (B : Browser) (states : CollectionUIStates)
    (s : State) :
  storage_works B ->
  saveCollectionUIStates B states s =
  (Returned tt,
   set_uiStore (Some states)
     (set_calls (calls (world s) ++ [CallSaveCollectionUIStates states]) s)).
Proof.
  intros (Havail & _ & Hset). unfold saveCollectionUIStates. run.
  rewrite Havail, Hset. reflexivity.
Qed.

Lemma updateCollectionUIState_run (B : Browser) (id : string)
    (newExpanded : option bool) (newOrder : option Z) (s : State) :
  storage_works B ->
  let old := default ∅ (uiStore (world s)) in
  let existing := default {| expanded := false; order := 0 |} (old !! id) in
  exists log',
    updateCollectionUIState B id newExpanded newOrder s =
    (Returned tt,
     set_uiStore
       (Some (js_assign id
                {| expanded := default (expanded existing) newExpanded;
                   order := default (order existing) newOrder |} old))
       (set_calls log' s)).
Proof.
  intros Hworks old existing. unfold updateCollectionUIState.
  unfold mbind at 1, M_bind, log, modify.
  unfold mbind, M_bind. rewrite (loadCollectionUIStates_run B _ Hworks).
  rewrite (saveCollectionUIStates_run B _ _ Hworks).
  eexists. reflexivity.
Qed.

Lemma removeCollectionUIState_run (B : Browser) (id : string) (s : State) :
  storage_works B ->
  exists log',
    removeCollectionUIState B id s =
    (Returned tt,
     set_uiStore (Some (delete id (default ∅ (uiStore (world s))))) (set_calls log' s)).
Proof.
  intros Hworks. unfold removeCollectionUIState.
  unfold mbind at 1, M_bind, log, modify.
  unfold mbind, M_bind. rewrite (loadCollectionUIStates_run B _ Hworks).
  rewrite (saveCollectionUIStates_run B _ _ Hworks).
  eexists. reflexivity.
Qed.

(** X1. With working storage, what [updateCollectionUIState] and
    [removeCollectionUIState] write is what [loadCollectionUIStates] reads
    next.  For an id that is not the name of a member that every object
    inherits, an update merges the given fields into the record of the
    collection (a missing record counts as not expanded, order 0); for every
    id, a removal leaves no record.  The records of the other collections
    are as before. *)
Theorem ui_state_read_back (B : Browser) (s : State) (id : string)
    (newExpanded : option bool) (newOrder : option Z) :
  storage_works B ->
  let old := default ∅ (uiStore (world s)) in
  let existing := default {| expanded := false; order := 0 |} (old !! id) in
  (plain_key id ->
   exists read,
     outcome (loadCollectionUIStates B)
       (exec (updateCollectionUIState B id newExpanded newOrder) s) = Returned read /\
     read !! id = Some {| expanded := default (expanded existing) newExpanded;
                          order := default (order existing) newOrder |} /\
     forall other, other <> id -> read !! other = old !! other) /\
  (exists read,
     outcome (loadCollectionUIStates B) (exec (removeCollectionUIState B id) s)
       = Returned read /\
     read !! id = None /\
     forall other, other <> id -> read !! other = old !! other).
Proof.
  intros Hworks old existing. split.
  - intros Hplain.
    destruct (updateCollectionUIState_run B id newExpanded newOrder s Hworks)
      as (log' & Hrun).
    unfold exec, outcome. rewrite Hrun, (loadCollectionUIStates_run B _ Hworks).
    rewrite (js_assign_insert id) by now apply plain_key_proto.
    eexists. split; [reflexivity|]. cbn. split.
    + apply lookup_insert_eq.
    + intros other Hother. now apply lookup_insert_ne.
  - destruct (removeCollectionUIState_run B id s Hworks) as (log' & Hrun).
    unfold exec, outcome. rewrite Hrun, (loadCollectionUIStates_run B _ Hworks).
    eexists. split; [reflexivity|]. cbn. split.
    + apply lookup_delete_eq.
    + intros other Hother. now apply lookup_delete_ne.
Qed.

(** ** Expanding a collection *)

Lemma toggleCollectionExpand_run (B : Browser) (collection : nat) (c : Collection)
    (s : State) :
  storage_works B ->
  collections s !! collection = Some c ->
  let old := default ∅ (uiStore (world s)) in
  let existing := default {| expanded := false; order := 0 |} (old !! col_id c) in
  let e := negb (default false (col_expanded c)) in
  exists log',
    toggleCollectionExpand B collection s =
    (Returned tt,
     set_uiStore
       (Some (js_assign (col_id c) {| expanded := e; order := order existing |} old))
       (set_calls log'
          (set_collections
             (alter (with_col_expanded (Some e)) collection (collections s)) s))).
Proof.
  intros Hworks Hc old existing e. unfold toggleCollectionExpand.
  unfold mbind at 1, M_bind, get. rewrite Hc.
  unfold mbind at 1, M_bind, modify.
  match goal with
  | |- context [updateCollectionUIState B ?i ?x ?y ?s1] =>
      destruct (updateCollectionUIState_run B i x y s1 Hworks) as (log' & Hrun);
      rewrite Hrun
  end.
  exists log'. reflexivity.
Qed.




(** The flag that [restoreCollections] gives a collection is the saved
    one. *)
Lemma sort_insert_Forall {A} (P : A -> Prop) (compare : A -> A -> comparison)
    (x : A) (l : list A) :
  P x -> Forall P l -> Forall P (sort_insert compare x l).
Proof. intros Hx Hl. rewrite sort_insert_perm. now constructor. Qed.



Lemma sort_all_equal {A} (compare : A -> A -> comparison) (l : list A) :
  (forall x y, In x l -> In y l -> compare x y = Eq) ->
  sort compare l = l.
Proof.
  unfold sort. induction l as [|x l IH]; intros Heq; [reflexivity|].
  cbn [foldr]. rewrite IH by (intros a b Ha Hb; apply Heq; now right).
  destruct l as [|y l]; [reflexivity|]. cbn [sort_insert].
  rewrite (Heq x y); [reflexivity|now left|right; now left].
Qed.

Lemma sort_one_first {A} (compare : A -> A -> comparison)
    (before : list A) (x : A) (after : list A) :
  (forall y z, In y (before ++ after) -> In z (before ++ after) -> compare y z = Eq) ->
  (forall y, In y (before ++ after) -> compare x y = Lt /\ compare y x = Gt) ->
  sort compare (before ++ x :: after) = x :: before ++ after.
Proof.
  intros Heq Hfirst. induction before as [|b before IH].
  - change (sort compare ([] ++ x :: after))
      with (sort_insert compare x (sort compare after)).
    rewrite sort_all_equal by exact Heq.
    destruct after as [|y after]; [reflexivity|]. cbn [sort_insert app].
    destruct (Hfirst y (or_introl eq_refl)) as (-> & _). reflexivity.
  - change (sort compare ((b :: before) ++ x :: after))
      with (sort_insert compare b (sort compare (before ++ x :: after))).
    rewrite IH.
    + cbn [sort_insert app]. destruct (Hfirst b (or_introl eq_refl)) as (_ & ->).
      f_equal. destruct (before ++ after) as [|y rest] eqn:Hrest; [reflexivity|].
      cbn [sort_insert]. rewrite (Heq b y); [reflexivity|now left|].
      right. rewrite Hrest. now left.
    + intros y z Hy Hz. apply Heq; now right.
    + intros y Hy. apply Hfirst. now right.
Qed.

(** X3. A collection that has no saved UI state, and whose id is not the
    name of a member that every object inherits, gets the order 0 when its
    expand button is pressed; when no other collection has a saved state
    either, a page opened later over the same storage, reading the UI
    states with [loadCollectionUIStates], shows it first, the others after
    it in the order of the bookmarks. *)
Theorem expanding_an_unordered_collection_moves_it_first (B : Browser) (s : State)
    (collection : nat) (c c0 : Collection) (before after : list Collection) :
  storage_works B ->
  collections s !! collection = Some c ->
  plain_key (col_id c) ->
  col_id c0 = col_id c ->
  (forall x, In x (before ++ c0 :: after) ->
     default ∅ (uiStore (world s)) !! col_id x = None) ->
  (forall x, In x (before ++ after) -> col_id x <> col_id c) ->
  let s' := exec (toggleCollectionExpand B collection) s in
  exists saved,
    uiStore (world s') = Some saved /\
    saved !! col_id c =
      Some {| expanded := negb (default false (col_expanded c)); order := 0 |} /\
    forall reopened,
      uiStore (world reopened) = uiStore (world s') ->
      exists uiStates,
        outcome (loadCollectionUIStates B) reopened = Returned uiStates /\
        uiStates !! col_id c =
          Some {| expanded := negb (default false (col_expanded c)); order := 0 |} /\
        map col_id (restoreCollections (before ++ c0 :: after) uiStates)
          = col_id c :: map col_id (before ++ after).
Proof.
  intros Hworks Hc Hplain Hid Hnone Hother s'.
  destruct (toggleCollectionExpand_run B collection c s Hworks Hc) as (log' & Hrun).
  subst s'. unfold exec. rewrite Hrun. cbn [snd].
  rewrite js_assign_insert by now apply plain_key_proto.
  assert (Hexisting : default ∅ (uiStore (world s)) !! col_id c = None).
  { rewrite <- Hid. apply Hnone. apply in_or_app. right. now left. }
  rewrite Hexisting. cbn [default from_option id order].
  set (saved := <[col_id c := _]> _).
  exists saved. split; [reflexivity|]. split; [apply lookup_insert_eq|].
  intros reopened Hstore. cbn in Hstore. exists saved.
  split; [unfold outcome; rewrite (loadCollectionUIStates_run B reopened Hworks);
          cbn [fst]; now rewrite Hstore|].
  split; [apply lookup_insert_eq|].
  assert (Hkey0 : forall x, col_id x = col_id c -> order_or_infinity saved x = Some 0%Z).
  { intros x Hx. unfold order_or_infinity, saved. now rewrite Hx, lookup_insert_eq. }
  assert (Hkey : forall x, In x (before ++ after) -> order_or_infinity saved x = None).
  { intros x Hx. unfold order_or_infinity, saved.
    rewrite lookup_insert_ne by (intros Heq; now apply (Hother x Hx)).
    rewrite Hnone; [reflexivity|].
    apply in_app_or in Hx as [Hx|Hx]; apply in_or_app; [now left|right; now right]. }
  unfold restoreCollections. rewrite map_app. cbn [map].
  rewrite sort_one_first.
  - cbn [map]. rewrite <- map_app, map_map. cbn. rewrite Hid. reflexivity.
  - intros y z Hy Hz. rewrite <- map_app in Hy, Hz.
    apply in_map_iff in Hy as (y0 & <- & Hy0). apply in_map_iff in Hz as (z0 & <- & Hz0).
    change (order_or_infinity saved (with_col_expanded ?e y0))
      with (order_or_infinity saved y0).
    change (order_or_infinity saved (with_col_expanded ?e z0))
      with (order_or_infinity saved z0).
    now rewrite (Hkey y0 Hy0), (Hkey z0 Hz0).
  - intros y Hy. rewrite <- map_app in Hy.
    apply in_map_iff in Hy as (y0 & <- & Hy0).
    change (order_or_infinity saved (with_col_expanded ?e y0))
      with (order_or_infinity saved y0).
    change (order_or_infinity saved (with_col_expanded ?e c0))
      with (order_or_infinity saved c0).
    now rewrite (Hkey y0 Hy0), (Hkey0 c0 Hid).
Qed.

(** ** Deleting a collection or a group *)

Lemma deleteCollectionInBookmarks_run (B : Browser) (id : string) (s : State) :
  deleteCollectionInBookmarks B id s =
  (outcome (deleteCollectionInBookmarks B id) s,
   set_calls (calls (world s) ++ [CallDeleteCollection id]) s).
Proof.
  unfold deleteCollectionInBookmarks. run. cbn.
  now destruct (bookmarks_removeTree _ _ _).
Qed.

(** With or without storage, [removeCollectionUIState] returns and changes
    nothing of the page. *)
Lemma removeCollectionUIState_returns (B : Browser) (id : string) (s : State) :
  exists w, removeCollectionUIState B id s = (Returned tt, with_world w s).
Proof.
  unfold removeCollectionUIState, loadCollectionUIStates, saveCollectionUIStates. run.
  destruct s as [cs gs sel dlg ed dr [cl root ui]]. cbn.
  destruct (storage_available B); [|eexists; reflexivity].
  destruct (storage_get_ok B _); destruct (storage_set_ok B _);
    eexists; reflexivity.
Qed.

(** X4. [deleteCollection] does nothing at all when the user declines.
    When the adapter call throws, the collections, the groups and the saved
    UI states are as before.  When it returns, the collection is out of the
    list whether the storage works or not, and with working storage its
    saved UI state is removed, the others kept. *)
Theorem deleteCollection_outcomes (B : Browser) (s : State) (id : string) :
  let s' := exec (deleteCollection B id) s in
  (confirm B (calls (world s)) = false -> s' = s) /\
  (confirm B (calls (world s)) = true ->
   outcome (deleteCollectionInBookmarks B id) s = Thrown ->
   collections s' = collections s /\ groups s' = groups s /\
   uiStore (world s') = uiStore (world s)) /\
  (confirm B (calls (world s)) = true ->
   outcome (deleteCollectionInBookmarks B id) s = Returned tt ->
   collections s' =
     List.filter (fun c => negb (String.eqb (col_id c) id)) (collections s) /\
   groups s' = groups s /\
   (storage_works B ->
    uiStore (world s') = Some (delete id (default ∅ (uiStore (world s)))))).
Proof.
  intros s'. subst s'. split; [|split].
  - intros Hconfirm. unfold deleteCollection. run. now rewrite Hconfirm.
  - intros Hconfirm Hthrown. unfold deleteCollection. run.
    rewrite Hconfirm, deleteCollectionInBookmarks_run, Hthrown. repeat split.
  - intros Hconfirm Hok. unfold deleteCollection. run.
    rewrite Hconfirm, deleteCollectionInBookmarks_run, Hok.
    set (s1 := set_calls _ s).
    destruct (removeCollectionUIState_returns B id s1) as (w & Hany).
    split; [|split].
    + rewrite Hany. reflexivity.
    + rewrite Hany. reflexivity.
    + intros Hworks.
      destruct (removeCollectionUIState_run B id s1 Hworks) as (log' & Hrun).
      rewrite Hrun. reflexivity.
Qed.

Lemma deleteGroup_world (B : Browser) (id : string) (s : State) :
  world (exec (deleteGroup B id) s) = world s \/
  world (exec (deleteGroup B id) s) =
    world (set_calls (calls (world s) ++ [CallDeleteGroup id]) s).
Proof.
  unfold deleteGroup. run.
  destruct (confirm B _); [|left; reflexivity].
  rewrite deleteGroupInBookmarks_run.
  destruct (outcome _ s) as [[]|]; cbn; [|right; reflexivity].
  right. now destruct (String.eqb _ _).
Qed.

(** X5. [deleteGroup] never touches the saved UI states: when a group is
    deleted, its collections leave the list but what was saved for them
    stays in the store. *)
Theorem deleteGroup_keeps_ui_states (B : Browser) (s : State) (id : string) :
  let s' := exec (deleteGroup B id) s in
  uiStore (world s') = uiStore (world s) /\
  (confirm B (calls (world s)) = true ->
   outcome (deleteGroupInBookmarks B id) s = Returned tt ->
   forall c saved record,
     In c (collections s) -> col_groupId c = id ->
     uiStore (world s) = Some saved -> saved !! col_id c = Some record ->
     ~ In c (collections s') /\
     exists saved', uiStore (world s') = Some saved' /\ saved' !! col_id c = Some record).
Proof.
  intros s'.
  assert (Hstore : uiStore (world s') = uiStore (world s)).
  { subst s'. destruct (deleteGroup_world B id s) as [-> | ->]; reflexivity. }
  split; [exact Hstore|].
  intros Hconfirm Hok c saved record Hin Hgroup Hsaved Hrecord.
  destruct (deleteGroup_done B id s Hconfirm Hok) as (Hcs & _). fold s' in Hcs.
  split.
  - rewrite Hcs. intros Hc. apply filter_In in Hc as (_ & Hkeep).
    rewrite Hgroup, String.eqb_refl in Hkeep. discriminate.
  - exists saved. rewrite Hstore. split; assumption.
Qed.

(** ** The root folder *)

(** X6. [getOrCreateRootFolder] leaves the id it returns in the cache, and
    leaves no usable id there when it throws.  Called again with the cache
    holding a non-empty id that the browser confirms, it returns that id and
    changes nothing, whatever a search or a creation would answer. *)
Theorem root_folder_is_cached (B : Browser) (s : State) :
  let s' := exec (getOrCreateRootFolder B) s in
  (forall r,
     outcome (getOrCreateRootFolder B) s = Returned r ->
     rootFolderId (world s') = Some r /\
     (r <> "" -> bookmarks_get B (calls (world s)) r = true ->
      getOrCreateRootFolder B s' = (Returned r, s'))) /\
  (outcome (getOrCreateRootFolder B) s = Thrown ->
   truthy_opt (rootFolderId (world s')) = false).
Proof.
  intros s'. subst s'.
  assert (Hagain : forall r s0,
            rootFolderId (world s0) = Some r -> r <> "" ->
            bookmarks_get B (calls (world s0)) r = true ->
            getOrCreateRootFolder B s0 = (Returned r, s0)).
  { intros r s0 Hroot Hr Hget. unfold getOrCreateRootFolder. run.
    rewrite Hroot. apply String.eqb_neq in Hr. unfold truthy. rewrite Hr. cbn.
    rewrite Hget. reflexivity. }
  destruct (getOrCreateRootFolder_frame B s) as (root' & Hframe).
  unfold exec, outcome. rewrite Hframe.
  assert (Hcases :
    (exists r, (getOrCreateRootFolder B s).1 = Returned r /\ root' = Some r) \/
    ((getOrCreateRootFolder B s).1 = Thrown /\ truthy_opt root' = false)).
  { revert Hframe. unfold getOrCreateRootFolder. run.
    destruct s as [cs gs sel dlg ed dr [cl root ui]]. cbn.
    destruct root as [rid|]; cbn.
    - destruct (truthy rid) eqn:Hrid; cbn.
      + destruct (bookmarks_get B cl rid); cbn.
        * intros [= <-]. left. eauto.
        * destruct (bookmarks_search B cl _) as [results|]; cbn.
          -- destruct (find isFolder results) as [existing|]; cbn.
             ++ intros [= <-]. left. eauto.
             ++ destruct (bookmarks_create B cl _ _ _) as [folder|]; cbn.
                ** intros [= <-]. left. eauto.
                ** intros [= <-]. right. split; reflexivity.
          -- intros [= <-]. right. split; reflexivity.
      + destruct (bookmarks_search B cl _) as [results|]; cbn.
        * destruct (find isFolder results) as [existing|]; cbn.
          -- intros [= <-]. left. eauto.
          -- destruct (bookmarks_create B cl _ _ _) as [folder|]; cbn.
             ++ intros [= <-]. left. eauto.
             ++ intros [= <-]. right. split; [reflexivity|exact Hrid].
        * intros [= <-]. right. split; [reflexivity|exact Hrid].
    - destruct (bookmarks_search B cl _) as [results|]; cbn.
      + destruct (find isFolder results) as [existing|]; cbn.
        * intros [= <-]. left. eauto.
        * destruct (bookmarks_create B cl _ _ _) as [folder|]; cbn.
          -- intros [= <-]. left. eauto.
          -- intros [= <-]. right. split; reflexivity.
      + intros [= <-]. right. split; reflexivity. }
  split.
  - intros r Hr. destruct Hcases as [(r' & Hr' & ->)|(Hthrown & _)]; [|congruence].
    assert (r' = r) as -> by congruence.
    split; [reflexivity|]. intros Hne Hget. apply Hagain; [reflexivity|exact Hne|exact Hget].
  - intros Hthrown. destruct Hcases as [(r' & Hr' & _)|(_ & Hfalsy)]; [congruence|].
    exact Hfalsy.
Qed.

(** ** Creating a group or a collection *)

Lemma createCollectionInBookmarks_run (B : Browser) (name groupId : string)
    (s : State) :
  createCollectionInBookmarks B name groupId s =
  (outcome (createCollectionInBookmarks B name groupId) s,
   set_calls (calls (world s) ++ [CallCreateCollection name groupId]) s).
Proof.
  unfold createCollectionInBookmarks. run. cbn.
  now destruct (bookmarks_create _ _ _ _ _).
Qed.

Lemma createCollectionInBookmarks_result (B : Browser) (name groupId : string)
    (s : State) (c : Collection) :
  outcome (createCollectionInBookmarks B name groupId) s = Returned c ->
  col_groupId c = groupId /\ col_tabs c = [] /\ col_expanded c = None.
Proof.
  unfold createCollectionInBookmarks. run. cbn.
  destruct (bookmarks_create _ _ _ _ _); cbn; [|discriminate].
  intros [= <-]. repeat split.
Qed.

(** X7. [createGroup] does nothing when the typed name trims to nothing.
    Otherwise, when the adapter returns the new group, the group is put at
    the end of the list and selected, and the dialog is closed and emptied;
    when the adapter throws, the groups, the selection and the dialog (still
    open, the name still typed) are as before.  The collections are never
    touched. *)
Theorem createGroup_outcomes (B : Browser) (s : State) :
  let name := trim B (newGroupName (dialogs s)) in
  let s' := exec (createGroup B) s in
  (name = "" -> s' = s) /\
  (name <> "" ->
   forall g, outcome (createGroupInBookmarks B name) s = Returned g ->
   groups s' = groups s ++ [g] /\ selectedGroupId s' = grp_id g /\
   newGroupName (dialogs s') = "" /\ showAddGroup (dialogs s') = false /\
   collections s' = collections s) /\
  (name <> "" ->
   outcome (createGroupInBookmarks B name) s = Thrown ->
   groups s' = groups s /\ selectedGroupId s' = selectedGroupId s /\
   dialogs s' = dialogs s /\ collections s' = collections s).
Proof.
  intros name s'. subst s'.
  destruct (createGroupInBookmarks_frame B name s) as (r & Hframe).
  split; [|split].
  - intros Hname. unfold createGroup. run. fold name. rewrite Hname. reflexivity.
  - intros Hname g Hg. apply String.eqb_neq in Hname.
    unfold createGroup. run. fold name. unfold truthy. rewrite Hname. cbn [negb].
    unfold outcome in Hg.
    destruct (createGroupInBookmarks B name s) as [o s1]. cbn in Hg, Hframe.
    subst o s1. repeat split.
  - intros Hname Hthrown. apply String.eqb_neq in Hname.
    unfold createGroup. run. fold name. unfold truthy. rewrite Hname. cbn [negb].
    unfold outcome in Hthrown.
    destruct (createGroupInBookmarks B name s) as [o s1]. cbn in Hthrown, Hframe.
    subst o s1. repeat split.
Qed.

(** X8. [createCollection] does nothing when the typed name trims to
    nothing or no group is selected.  Otherwise, when the adapter returns
    the new collection, it is empty, belongs to the selected group and is
    put at the end of the list, so that it shows last among the collections
    of the selected group; the dialog is closed and emptied.  When the
    adapter throws, collections, groups and dialog are as before. *)
Theorem createCollection_outcomes (B : Browser) (s : State) :
  let name := trim B (newCollectionName (dialogs s)) in
  let s' := exec (createCollection B) s in
  (name = "" \/ selectedGroupId s = "" -> s' = s) /\
  (name <> "" -> selectedGroupId s <> "" ->
   forall c,
     outcome (createCollectionInBookmarks B name (selectedGroupId s)) s = Returned c ->
     col_groupId c = selectedGroupId s /\ col_tabs c = [] /\
     collections s' = collections s ++ [c] /\
     currentCollections s' = currentCollections s ++ [c] /\
     newCollectionName (dialogs s') = "" /\ showAddCollection (dialogs s') = false /\
     groups s' = groups s /\ selectedGroupId s' = selectedGroupId s) /\
  (name <> "" -> selectedGroupId s <> "" ->
   outcome (createCollectionInBookmarks B name (selectedGroupId s)) s = Thrown ->
   collections s' = collections s /\ groups s' = groups s /\ dialogs s' = dialogs s).
Proof.
  intros name s'. subst s'. split; [|split].
  - intros Hnone. unfold createCollection. run. fold name.
    destruct Hnone as [-> | ->]; [reflexivity|]. now rewrite orb_true_r.
  - intros Hname Hselected c Hc.
    destruct (createCollectionInBookmarks_result B _ _ s c Hc) as (Hgroup & Htabs & _).
    apply String.eqb_neq in Hname, Hselected.
    unfold createCollection. run. fold name. unfold truthy.
    rewrite Hname, Hselected. cbn [negb orb].
    rewrite createCollectionInBookmarks_run, Hc.
    split; [exact Hgroup|]. split; [exact Htabs|]. split; [reflexivity|].
    split; [|repeat split].
    unfold currentCollections. cbn. unfold truthy. rewrite Hselected. cbn [negb].
    unfold push. rewrite List.filter_app. cbn [List.filter]. now rewrite Hgroup, String.eqb_refl.
  - intros Hname Hselected Hthrown. apply String.eqb_neq in Hname, Hselected.
    unfold createCollection. run. fold name. unfold truthy.
    rewrite Hname, Hselected. cbn [negb orb].
    rewrite createCollectionInBookmarks_run, Hthrown. repeat split.
Qed.

(** ** Collections and the groups they are in *)

(** *** What the adapter leaves alone *)

Section AdapterKeeps.

Context (R : State -> State -> Prop) `{!Reflexive R, !Transitive R}.
Hypothesis world_aside : forall w s, R s (with_world w s).
Variable B : Browser.

Ltac solve_world :=
  intros ?; unfold set_calls, set_rootFolderId, set_uiStore; apply world_aside.

Lemma log_keeps (c : Call) : keeps R (log c).
Proof. unfold log. keeps_all solve_world. Qed.

Lemma getOrCreateRootFolder_keeps : keeps R (getOrCreateRootFolder B).
Proof. unfold getOrCreateRootFolder. keeps_all solve_world. Qed.

Lemma adapters_keep :
  (forall name, keeps R (createGroupInBookmarks B name)) /\
  (forall name groupId, keeps R (createCollectionInBookmarks B name groupId)) /\
  (forall c t u f, keeps R (addTabToCollection B c t u f)) /\
  (forall tabId, keeps R (removeTabFromCollection B tabId)) /\
  (forall id name, keeps R (updateGroupInBookmarks B id name)) /\
  (forall id name, keeps R (updateCollectionInBookmarks B id name)) /\
  (forall id, keeps R (deleteGroupInBookmarks B id)) /\
  (forall id, keeps R (deleteCollectionInBookmarks B id)) /\
  (forall tabId target, keeps R (moveTab B tabId target)) /\
  (forall id index, keeps R (moveGroupToIndex B id index)) /\
  (forall id title, keeps R (browser_bookmarks_update B id title)) /\
  keeps R (browser_tabs_query B) /\
  keeps R (loadCollectionUIStates B) /\
  (forall states, keeps R (saveCollectionUIStates B states)) /\
  (forall id e o, keeps R (updateCollectionUIState B id e o)) /\
  (forall id, keeps R (removeCollectionUIState B id)).
Proof.
  pose proof log_keeps. pose proof getOrCreateRootFolder_keeps.
  repeat split; intros;
    unfold createGroupInBookmarks, createCollectionInBookmarks, addTabToCollection,
      removeTabFromCollection, updateGroupInBookmarks, updateCollectionInBookmarks,
      deleteGroupInBookmarks, deleteCollectionInBookmarks, moveTab, moveGroupToIndex,
      browser_bookmarks_update, browser_tabs_query, updateCollectionUIState,
      removeCollectionUIState, loadCollectionUIStates,
      saveCollectionUIStates, console_error;
    keeps_all solve_world.
Qed.

End AdapterKeeps.

(** *** Lists changed in place *)

Lemma In_alter {A} (f : A -> A) (i : nat) (l : list A) (x : A) :
  In x (alter f i l) -> exists y, In y l /\ (x = y \/ x = f y).
Proof.
  revert i. induction l as [|a l IH]; intros [|i]; cbn; try tauto.
  - intros [<- | Hx]; eauto.
  - intros [<- | Hx]; [eauto|].
    destruct (IH i Hx) as (y & Hy & Hxy). eauto.
Qed.

Lemma In_alter_of {A} (f : A -> A) (i : nat) (l : list A) (y : A) :
  In y l -> In y (alter f i l) \/ In (f y) (alter f i l).
Proof.
  revert i. induction l as [|a l IH]; intros [|i]; cbn; try tauto.
  - intros [<- | Hy]; auto.
  - intros [<- | Hy]; [auto|]. destruct (IH i Hy); auto.
Qed.

Lemma move_item_perm_any {A} (index target : nat) (l : list A) :
  move_item index target l ≡ₚ l.
Proof.
  destruct (l !! index) as [x|] eqn:Hx.
  - exact (move_item_perm l index target x Hx).
  - apply lookup_ge_None in Hx. unfold move_item, splice.
    rewrite (drop_ge l index), (drop_ge l (index + 1)), (take_ge l index) by lia.
    cbn. now rewrite app_nil_r.
Qed.

Lemma In_move_item {A} (index target : nat) (l : list A) (x : A) :
  In x (move_item index target l) <-> In x l.
Proof. rewrite <- !list_elem_of_In. now rewrite move_item_perm_any. Qed.

(** *** The handlers that add or remove nothing *)

#[local] Instance placed_alike_refl : Reflexive placed_alike.
Proof. intros s. repeat split; eauto. Qed.

#[local] Instance placed_alike_trans : Transitive placed_alike.
Proof.
  intros s1 s2 s3 (Hc12 & Hg12 & Hs12) (Hc23 & Hg23 & Hs23). split; [|split].
  - intros c3 H3. destruct (Hc23 c3 H3) as (c2 & H2 & E2).
    destruct (Hc12 c2 H2) as (c1 & H1 & E1). exists c1. split; [exact H1|congruence].
  - intros g1 H1. destruct (Hg12 g1 H1) as (g2 & H2 & E2).
    destruct (Hg23 g2 H2) as (g3 & H3 & E3). exists g3. split; [exact H3|congruence].
  - congruence.
Qed.

Lemma placed_alike_aside (s s' : State) :
  collections s' = collections s -> groups s' = groups s ->
  selectedGroupId s' = selectedGroupId s -> placed_alike s s'.
Proof.
  intros Hc Hg Hs. unfold placed_alike. rewrite Hc, Hg. repeat split; eauto.
Qed.

Lemma placed_alike_collections (s : State) (cs : list Collection) :
  (forall c', In c' cs ->
     exists c, In c (collections s) /\ col_groupId c = col_groupId c') ->
  placed_alike s (set_collections cs s).
Proof. intros Hcs. repeat split; cbn; eauto. Qed.

Lemma placed_alike_groups (s : State) (gs : list Group) :
  (forall g, In g (groups s) -> exists g', In g' gs /\ grp_id g' = grp_id g) ->
  placed_alike s (set_groups gs s).
Proof. intros Hgs. repeat split; cbn; eauto. Qed.

Lemma placed_alike_alter_collections (s : State) (f : Collection -> Collection)
    (i : nat) :
  (forall c, col_groupId (f c) = col_groupId c) ->
  placed_alike s (set_collections (alter f i (collections s)) s).
Proof.
  intros Hf. apply placed_alike_collections. intros c' Hc'.
  apply In_alter in Hc' as (c & Hc & [-> | ->]); exists c; auto.
Qed.

Lemma placed_alike_alter_groups (s : State) (f : Group -> Group) (i : nat) :
  (forall g, grp_id (f g) = grp_id g) ->
  placed_alike s (set_groups (alter f i (groups s)) s).
Proof.
  intros Hf. apply placed_alike_groups. intros g Hg.
  destruct (In_alter_of f i _ g Hg) as [Hg'|Hg']; eauto.
Qed.

Ltac solve_placement :=
  let x := fresh "x" in
  let Hx := fresh "Hx" in
  intros ?; cbn beta;
  first
    [ apply placed_alike_aside; reflexivity
    | apply placed_alike_alter_collections; intros ?; reflexivity
    | apply placed_alike_alter_groups; intros ?; reflexivity
    | apply placed_alike_collections; intros x Hx;
      first
        [ apply filter_In in Hx as [Hx _]; eauto
        | apply In_move_item in Hx; eauto ]
    | apply placed_alike_groups; intros x Hx;
      exists x; (split; [now apply In_move_item|reflexivity]) ].

Ltac keeps_places := keeps_all solve_placement.

Lemma update_tabs_keeps_places (collection : nat) (f : list TabItem -> list TabItem) :
  keeps placed_alike (update_tabs collection f).
Proof. unfold update_tabs. keeps_places. Qed.

Lemma placed_alike_world (w : World) (s : State) : placed_alike s (with_world w s).
Proof. now apply placed_alike_aside. Qed.

Lemma saveCurrentTabs_loop_keeps_places (B : Browser) (collectionId : string)
    (collection : nat) (existingUrls : gset string) (tabs : list BrowserTab) :
  keeps placed_alike (saveCurrentTabs_loop B collectionId collection existingUrls tabs).
Proof.
  destruct (adapters_keep placed_alike placed_alike_world B) as (_ & _ & Hadd & _).
  pose proof update_tabs_keeps_places.
  induction tabs as [|tab rest IH]; cbn [saveCurrentTabs_loop]; unfold console_error;
    keeps_places.
Qed.

Lemma handlers_keep_places (B : Browser) (e : Event) :
  changes_membership e = false -> keeps placed_alike (handle B e).
Proof.
  destruct (adapters_keep placed_alike placed_alike_world B)
    as (? & ? & ? & ? & ? & ? & ? & ? & ? & ? & ? & ? & ? & ? & ? & ?).
  pose proof update_tabs_keeps_places.
  pose proof (saveCurrentTabs_loop_keeps_places B).
  destruct e; cbn [changes_membership handle]; try discriminate; intros _;
    unfold startEditGroup, saveGroupName, onGroupDragStart, onGroupDragOver,
      onGroupDrop, onGroupDragEnd, deleteCollection,
      toggleCollectionExpand, startEditCollection, saveCollectionName,
      saveCurrentTabs, deleteTab, startEditTab, saveTabName, onDragStart,
      onDragStartOpenTab, onDragEnd, onCollectionDragStart,
      onTabDragOver, onTabDrop, collection_card_dragover, collection_card_drop,
      onCollectionDragOver, onCollectionDrop, onDragOverCollection,
      onDropToCollection, saveCollectionOrder, take_tab_then, console_error, alert;
    keeps_places.
Qed.

(** *** The handlers that add or remove a group or a collection *)

Lemma createGroup_cases (B : Browser) (s : State) :
  let s' := exec (createGroup B) s in
  collections s' = collections s /\
  ((groups s' = groups s /\ selectedGroupId s' = selectedGroupId s) \/
   exists g, groups s' = groups s ++ [g] /\ selectedGroupId s' = grp_id g).
Proof.
  intros s'. subst s'. unfold createGroup. run.
  destruct (negb _); [cbn; auto|].
  destruct (createGroupInBookmarks_frame B (trim B (newGroupName (dialogs s))) s)
    as (r & Hframe).
  destruct (createGroupInBookmarks B _ s) as [[g|] s1]; cbn in Hframe; subst s1; cbn.
  - split; [reflexivity|]. right. exists g. split; reflexivity.
  - auto.
Qed.

Lemma deleteGroup_cases (B : Browser) (id : string) (s : State) :
  let s' := exec (deleteGroup B id) s in
  (collections s' = collections s /\ groups s' = groups s /\
   selectedGroupId s' = selectedGroupId s) \/
  (collections s' =
     List.filter (fun c => negb (String.eqb (col_groupId c) id)) (collections s) /\
   groups s' = List.filter (fun g => negb (String.eqb (grp_id g) id)) (groups s) /\
   selectedGroupId s' =
     if String.eqb (selectedGroupId s) id
     then or_else (grp_id <$> head (groups s')) ""
     else selectedGroupId s).
Proof.
  intros s'. subst s'. unfold deleteGroup. run.
  destruct (confirm B _); [|cbn; auto].
  rewrite deleteGroupInBookmarks_run.
  destruct (outcome (deleteGroupInBookmarks B id) s) as [[]|]; cbn; [|auto].
  right. destruct (String.eqb (selectedGroupId s) id); cbn; auto.
Qed.

Lemma createCollection_cases (B : Browser) (s : State) :
  let s' := exec (createCollection B) s in
  groups s' = groups s /\ selectedGroupId s' = selectedGroupId s /\
  (collections s' = collections s \/
   exists c, collections s' = collections s ++ [c] /\
             col_groupId c = selectedGroupId s /\ selectedGroupId s <> "").
Proof.
  intros s'. subst s'. unfold createCollection. run.
  destruct (truthy (selectedGroupId s)) eqn:Hselected;
    [|rewrite orb_true_r; cbn; auto].
  destruct (negb _ || negb true); [cbn; auto|].
  rewrite createCollectionInBookmarks_run.
  destruct (outcome _ s) as [c|] eqn:Hc; cbn; [|auto].
  apply createCollectionInBookmarks_result in Hc as (Hgroup & _).
  repeat split. right. exists c. repeat split; [exact Hgroup|].
  intros Hempty. rewrite Hempty in Hselected. discriminate.
Qed.

Lemma places_step (B : Browser) (e : Event) (s : State) :
  groups_referenced s -> selection_listed s ->
  match e with
  | EvSelectGroup id => exists g, In g (groups s) /\ grp_id g = id
  | _ => True
  end ->
  groups_referenced (exec (handle B e) s) /\ selection_listed (exec (handle B e) s).
Proof.
  intros Href Hsel He.
  destruct (changes_membership e) eqn:Hkind.
  - destruct e; try discriminate; cbn [handle].
    + destruct (createGroup_cases B s) as (Hc & [(Hg & Hs) | (g & Hg & Hs)]);
        unfold groups_referenced, selection_listed; rewrite Hc, Hg, Hs.
      * split; assumption.
      * split.
        -- intros c Hin. destruct (Href c Hin) as (g0 & Hg0 & Hid).
           exists g0. split; [apply in_or_app; auto|exact Hid].
        -- right. exists g. split; [apply in_or_app; cbn; auto|reflexivity].
    + destruct (deleteGroup_cases B id s) as [(Hc & Hg & Hs) | (Hc & Hg & Hs)];
        unfold groups_referenced, selection_listed.
      * rewrite Hc, Hg, Hs. split; assumption.
      * split.
        -- rewrite Hc, Hg. intros c Hin. apply filter_In in Hin as (Hin & Hne).
           destruct (Href c Hin) as (g & Hg0 & Hid). exists g.
           split; [|exact Hid]. apply filter_In. split; [exact Hg0|].
           now rewrite Hid.
        -- rewrite Hs. destruct (String.eqb (selectedGroupId s) id) eqn:Hsame.
           ++ destruct (groups (exec (deleteGroup B id) s)) as [|g rest]; cbn; [auto|].
              destruct (truthy (grp_id g)); [|auto].
              right. exists g. auto.
           ++ destruct Hsel as [Hnone | (g & Hg0 & Hid)]; [auto|].
              right. exists g. split; [|exact Hid]. rewrite Hg. apply filter_In.
              split; [exact Hg0|]. now rewrite Hid, Hsame.
    + destruct He as (g & Hg & Hid). unfold exec, modify; cbn.
      split; [exact Href|]. right. exists g. auto.
    + destruct (createCollection_cases B s) as (Hg & Hs & [Hc | (c & Hc & Hgroup & Hne)]);
        unfold groups_referenced, selection_listed; rewrite Hc, Hg, Hs.
      * split; assumption.
      * split; [|exact Hsel].
        intros c' Hin. apply in_app_or in Hin as [Hin | [<- | []]]; [auto|].
        destruct Hsel as [Hnone | (g & Hg0 & Hid)]; [contradiction|].
        exists g. split; [exact Hg0|congruence].
  - destruct (handlers_keep_places B e Hkind s) as (Hc & Hg & Hs).
    fold (exec (handle B e) s) in Hc, Hg, Hs. split.
    + intros c' Hin. destruct (Hc c' Hin) as (c & Hin0 & Hsame).
      destruct (Href c Hin0) as (g & Hg0 & Hid).
      destruct (Hg g Hg0) as (g' & Hg' & Hid'). exists g'. split; [exact Hg'|congruence].
    + unfold selection_listed. rewrite Hs.
      destruct Hsel as [Hnone | (g & Hg0 & Hid)]; [auto|].
      destruct (Hg g Hg0) as (g' & Hg' & Hid'). right. exists g'.
      split; [exact Hg'|congruence].
Qed.

(** X9. Whatever the user does on the page and whatever the browser
    answers, every collection stays in a group of the list and the selected
    group, if any, stays one of the list: a group is selected by a click on
    its entry, [createCollection] files the new collection under the
    selected group, [deleteGroup] takes the collections of the group with it
    and moves the selection to the first group left, and no other handler
    changes the group of a collection, the id of a group or the
    selection. *)
Theorem collections_stay_in_listed_groups (B : Browser) (events : list Event)
    (s : State) :
  groups_referenced s ->
  selection_listed s ->
  selects_listed B events s ->
  groups_referenced (run_events B events s) /\
  selection_listed (run_events B events s).
Proof.
  revert s. induction events as [|e rest IH]; intros s Href Hsel Hev; cbn.
  - split; assumption.
  - destruct Hev as (He & Hrest).
    destruct (places_step B e s Href Hsel He) as (Href' & Hsel').
    apply IH; assumption.
Qed.

(** ** Saving the tabs of the window *)

Lemma browser_tabs_query_run (B : Browser) (s : State) :
  browser_tabs_query B s =
  (outcome (browser_tabs_query B) s,
   set_calls (calls (world s) ++ [CallTabsQuery]) s).
Proof. unfold browser_tabs_query. run. cbn. now destruct (tabs_query B _). Qed.

Lemma addTabToCollection_returns (B : Browser) (collectionId title url favicon : string)
    (s : State) :
  creates_always B ->
  exists newTab,
    outcome (addTabToCollection B collectionId title url favicon) s = Returned newTab.
Proof.
  intros Hcreate. unfold addTabToCollection. run. cbn.
  destruct (Hcreate (calls (world s) ++
                     [CallAddTabToCollection collectionId title url favicon])
                    collectionId title (Some url)) as (bookmark & ->).
  eauto.
Qed.

Lemma append_tabs_nil (collection : nat) (cs : list Collection) :
  alter (append_tabs []) collection cs = cs.
Proof.
  apply list_alter_id. intros c. unfold append_tabs. rewrite app_nil_r.
  now destruct c.
Qed.

Lemma append_tabs_cons (newTab : TabItem) (added : list TabItem) (collection : nat)
    (cs : list Collection) :
  alter (append_tabs added) collection
    (alter (fun c => with_col_tabs (push newTab (col_tabs c)) c) collection cs) =
  alter (append_tabs (newTab :: added)) collection cs.
Proof.
  rewrite list_alter_alter_eq. apply list_alter_ext; [|reflexivity].
  intros c _. unfold append_tabs, push. cbn. now rewrite <- app_assoc.
Qed.

Lemma saveCurrentTabs_loop_appends (B : Browser) (collectionId : string)
    (collection : nat) (existingUrls : gset string) (tabs : list BrowserTab)
    (s : State) :
  let s' := exec (saveCurrentTabs_loop B collectionId collection existingUrls tabs) s in
  exists added,
    collections s' = alter (append_tabs added) collection (collections s) /\
    groups s' = groups s /\
    length added <= length (List.filter (wanted existingUrls) tabs) /\
    (creates_always B ->
     length added = length (List.filter (wanted existingUrls) tabs)).
Proof.
  revert s. induction tabs as [|tab rest IH]; intros s s'; subst s'.
  - exists []. cbn. rewrite append_tabs_nil. auto.
  - cbn [saveCurrentTabs_loop List.filter]. run. fold (wanted existingUrls tab).
    destruct (wanted existingUrls tab).
    + rewrite addTabToCollection_run.
      set (title := or_else (bt_title tab) "Untitled").
      set (favicon := or_else (bt_favIconUrl tab) "").
      set (url := default "" (bt_url tab)).
      set (s1 := set_calls _ s).
      destruct (outcome _ s) as [newTab|] eqn:Hadd.
      * unfold update_tabs. run.
        match goal with
        | |- context [saveCurrentTabs_loop _ _ _ _ _ ?s2] =>
            destruct (IH s2) as (added & Hcs & Hgs & Hle & Hall)
        end.
        exists (newTab :: added). unfold exec in *. rewrite Hcs, Hgs. cbn.
        rewrite append_tabs_cons. repeat split; [lia|].
        intros Hcreate. now rewrite (Hall Hcreate).
      * destruct (IH s1) as (added & Hcs & Hgs & Hle & Hall).
        exists added. unfold exec in *. rewrite Hcs, Hgs. cbn.
        repeat split; [lia|].
        intros Hcreate.
        destruct (addTabToCollection_returns B collectionId title url favicon s Hcreate)
          as (newTab & Hreturned).
        congruence.
    + apply IH.
Qed.

(** X10. When the query for the tabs of the window is answered and the
    collection is on the page, [saveCurrentTabs] changes the page only by
    pushing tabs onto that collection: its former tabs stay in front, in
    their order, and every other collection and the groups are as before.
    The tabs pushed are at most as many as the tabs of the window that pass
    [isValidTabUrl] and whose url was not in the collection before the call,
    and exactly as many when the browser creates every bookmark: a url that
    two tabs of the window show, and that was not in the collection, is then
    saved twice. *)
Theorem saveCurrentTabs_only_appends (B : Browser) (collectionId : string)
    (s : State) (tabs : list BrowserTab) (collection : nat) :
  outcome (browser_tabs_query B) s = Returned tabs ->
  findCollection collectionId s = Some collection ->
  let existingUrls : gset string :=
    list_to_set (map tab_url (tabs_of collection s)) in
  let s' := exec (saveCurrentTabs B collectionId) s in
  exists added,
    collections s' = alter (append_tabs added) collection (collections s) /\
    groups s' = groups s /\
    length added <= length (List.filter (wanted existingUrls) tabs) /\
    (creates_always B ->
     length added = length (List.filter (wanted existingUrls) tabs)).
Proof.
  intros Htabs Hfound existingUrls s'. subst s' existingUrls.
  unfold saveCurrentTabs. run. rewrite browser_tabs_query_run, Htabs.
  set (s1 := set_calls _ s).
  change (findCollection collectionId s1) with (findCollection collectionId s).
  rewrite Hfound.
  change (tabs_of collection s1) with (tabs_of collection s).
  exact (saveCurrentTabs_loop_appends B collectionId collection _ tabs s1).
Qed.

(** ** Start-up: collections with and without a saved state *)

Lemma sort_insert_app_l {A} (compare : A -> A -> comparison) (x : A)
    (front back : list A) :
  (forall u, head back = Some u -> compare x u <> Gt) ->
  sort_insert compare x (front ++ back) = sort_insert compare x front ++ back.
Proof.
  intros Hback. induction front as [|a front IH]; cbn.
  - destruct back as [|u back]; [reflexivity|]. cbn.
    specialize (Hback u eq_refl). now destruct (compare x u).
  - destruct (compare x a); try reflexivity. now rewrite IH.
Qed.

Lemma sort_insert_app_r {A} (compare : A -> A -> comparison) (x : A)
    (front back : list A) :
  (forall a, In a front -> compare x a = Gt) ->
  sort_insert compare x (front ++ back) = front ++ sort_insert compare x back.
Proof.
  induction front as [|a front IH]; intros Hfront; cbn; [reflexivity|].
  rewrite (Hfront a) by (left; reflexivity).
  rewrite IH; [reflexivity|]. intros a' Ha'. apply Hfront. now right.
Qed.

Lemma restoreCollections_split (loaded : list Collection)
    (uiStates : CollectionUIStates) :
  restoreCollections loaded uiStates =
  restoreCollections (List.filter (has_saved_state uiStates) loaded) uiStates ++
  map (with_col_expanded (Some false))
      (List.filter (fun c => negb (has_saved_state uiStates c)) loaded).
Proof.
  unfold restoreCollections.
  set (flag := fun c : Collection =>
         with_col_expanded (Some (default false (expanded <$> uiStates !! col_id c))) c).
  set (cmp := fun a b : Collection =>
         compare_order (order_or_infinity uiStates a) (order_or_infinity uiStates b)).
  assert (Hsaved : forall c, has_saved_state uiStates c = true ->
            exists o, order_or_infinity uiStates (flag c) = Some o).
  { intros c Hc. unfold has_saved_state in Hc. apply bool_decide_eq_true in Hc as (st & Hst).
    exists (order st). unfold order_or_infinity. cbn. now rewrite Hst. }
  assert (Hunsaved : forall c, has_saved_state uiStates c = false ->
            order_or_infinity uiStates (with_col_expanded (Some false) c) = None /\
            flag c = with_col_expanded (Some false) c).
  { intros c Hc. unfold has_saved_state in Hc. apply bool_decide_eq_false in Hc.
    unfold order_or_infinity, flag. cbn.
    destruct (uiStates !! col_id c) as [st|]; [destruct Hc; eauto|]. split; reflexivity. }
  induction loaded as [|c rest IH]; [reflexivity|].
  cbn [map List.filter]. unfold sort in *. cbn [foldr]. rewrite IH. clear IH.
  destruct (has_saved_state uiStates c) eqn:Hc; cbn [negb map foldr].
  - destruct (Hsaved c Hc) as (o & Ho).
    apply sort_insert_app_l. intros u Hu.
    assert (Hin : In u (map (with_col_expanded (Some false))
                          (List.filter (fun c => negb (has_saved_state uiStates c)) rest))).
    { destruct (map _ _) as [|u' back]; [discriminate|]. injection Hu as ->. now left. }
    apply in_map_iff in Hin as (c' & <- & Hc').
    apply filter_In in Hc' as (_ & Hc'). apply negb_true_iff in Hc'.
    destruct (Hunsaved c' Hc') as (Hnone & _).
    unfold cmp. rewrite Ho, Hnone. discriminate.
  - destruct (Hunsaved c Hc) as (Hnone & Hflag). rewrite Hflag.
    rewrite sort_insert_app_r.
    + f_equal.
      destruct (List.filter (fun c => negb (has_saved_state uiStates c)) rest)
        as [|c' back] eqn:Hback; [reflexivity|].
      cbn [map sort_insert].
      assert (Hc' : has_saved_state uiStates c' = false).
      { assert (Hin : In c' (c' :: back)) by now left.
        rewrite <- Hback in Hin. apply filter_In in Hin as (_ & Hin).
        now apply negb_true_iff in Hin. }
      destruct (Hunsaved c' Hc') as (Hnone' & _).
      unfold cmp at 1. now rewrite Hnone, Hnone'.
    + intros a Ha.
      apply list_elem_of_In in Ha.
      fold (sort cmp (map flag (List.filter (has_saved_state uiStates) rest))) in Ha.
      rewrite sort_perm in Ha. apply list_elem_of_In in Ha.
      apply in_map_iff in Ha as (c' & <- & Hc').
      apply filter_In in Hc' as (_ & Hc').
      destruct (Hsaved c' Hc') as (o & Ho).
      unfold cmp. now rewrite Hnone, Ho.
Qed.

Lemma filter_none {A} (p : A -> bool) (l : list A) :
  (forall x, p x = false) -> List.filter p l = [].
Proof. intros Hp. induction l as [|x l IH]; cbn; [reflexivity|]. now rewrite Hp. Qed.

Lemma filter_all {A} (p : A -> bool) (l : list A) :
  (forall x, p x = true) -> List.filter p l = l.
Proof.
  intros Hp. induction l as [|x l IH]; cbn; [reflexivity|]. now rewrite Hp, IH.
Qed.

(** X11. At start-up the collections that have a saved UI state are put in
    front, sorted by their saved order, as if they had been loaded alone;
    the collections that have none follow them, in the order in which the
    bookmarks were loaded, and are shown collapsed.  With no saved state at
    all the loaded order is kept. *)
Theorem collections_without_saved_state_come_last (loaded : list Collection)
    (uiStates : CollectionUIStates) :
  restoreCollections loaded uiStates =
    restoreCollections (List.filter (has_saved_state uiStates) loaded) uiStates ++
    map (with_col_expanded (Some false))
        (List.filter (fun c => negb (has_saved_state uiStates c)) loaded) /\
  restoreCollections loaded ∅ = map (with_col_expanded (Some false)) loaded.
Proof.
  split; [apply restoreCollections_split|].
  rewrite restoreCollections_split.
  assert (Hnone : forall c, has_saved_state ∅ c = false).
  { intros c. unfold has_saved_state. apply bool_decide_eq_false.
    rewrite lookup_empty. intros (st & Hst). discriminate. }
  rewrite filter_none by exact Hnone.
  rewrite filter_all; [reflexivity|]. intros c. now rewrite Hnone.
Qed.

(** ** Loading the groups and the collections *)

Section LoaderFacts.

Variable B : Browser.
Variable T : BookmarkTree.

Lemma loadTabsFromFolder_run (folderId : string) (s : State) :
  loadTabsFromFolder B T folderId s =
  (match bookmarks_getChildren T (calls (world s)) folderId with
   | Some children =>
       Returned (map (tab_of_bookmark B)
                   (List.filter (fun child => truthy_opt (bm_url child)) children))
   | None => Thrown
   end, s).
Proof.
  unfold loadTabsFromFolder. run. now destruct (bookmarks_getChildren T _ _).
Qed.

Lemma loadCollections_children_frame (groupId : string) (children : list BookmarkNode)
    (loaded : list Collection) (s : State) :
  (loadCollections_children B T groupId children loaded s).2 = s.
Proof.
  revert loaded. induction children as [|child rest IH]; intros loaded; cbn;
    [reflexivity|].
  destruct (isFolder child); [|apply IH].
  run. rewrite loadTabsFromFolder_run.
  destruct (bookmarks_getChildren T _ _); [apply IH|reflexivity].
Qed.


Lemma loadGroups_run (s : State) :
  exists gs r, loadGroups B T s = (Returned gs, set_rootFolderId r s) /\
               (bookmarks_available T = false -> gs = []).
Proof.
  unfold loadGroups. destruct (bookmarks_available T); cbn [negb].
  - destruct (getOrCreateRootFolder_frame B s) as (r & Hframe).
    run. destruct (getOrCreateRootFolder B s) as [[rootId|] s1];
      cbn in Hframe; subst s1; cbn.
    + destruct (bookmarks_getChildren T _ rootId); cbn; eexists _, r;
        (split; [reflexivity|discriminate]).
    + eexists _, r. split; [reflexivity|discriminate].
  - exists [], (rootFolderId (world s)). split; [|reflexivity].
    run. now destruct s as [? ? ? ? ? ? []].
Qed.


Lemma loadCollections_children_loaded (ids : list string) (groupId : string)
    (children : list BookmarkNode) (loaded cs : list Collection) (s : State) :
  In groupId ids ->
  Forall (loaded_under ids) loaded ->
  outcome (loadCollections_children B T groupId children loaded) s = Returned cs ->
  Forall (loaded_under ids) cs.
Proof.
  intros Hgroup. revert loaded.
  induction children as [|child rest IH]; intros loaded Hloaded; cbn.
  - unfold outcome. cbn. now intros [= <-].
  - destruct (isFolder child); [|now apply IH].
    unfold outcome. run. rewrite loadTabsFromFolder_run.
    destruct (bookmarks_getChildren T _ _) as [bookmarks|]; [|discriminate].
    apply IH. unfold push. apply Forall_app. split; [exact Hloaded|].
    constructor; [|constructor]. repeat split; cbn; [exact Hgroup|].
    intros t Ht. apply in_map_iff in Ht as (bookmark & <- & Hbookmark).
    apply filter_In in Hbookmark as (_ & Hurl). cbn.
    destruct (bm_url bookmark) as [url|]; [|discriminate]. cbn in *.
    intros ->. discriminate.
Qed.

Lemma loadCollections_groups_loaded (ids : list string) (loadedGroups : list Group)
    (loaded cs : list Collection) (s : State) :
  (forall g, In g loadedGroups -> In (grp_id g) ids) ->
  Forall (loaded_under ids) loaded ->
  outcome (loadCollections_groups B T loadedGroups loaded) s = Returned cs ->
  Forall (loaded_under ids) cs.
Proof.
  revert loaded. induction loadedGroups as [|group rest IH];
    intros loaded Hids Hloaded; cbn.
  - unfold outcome. cbn. now intros [= <-].
  - unfold outcome. run.
    destruct (bookmarks_getChildren T _ _) as [children|]; [|discriminate].
    pose proof (loadCollections_children_frame (grp_id group) children loaded s) as Hframe.
    pose proof (loadCollections_children_loaded ids (grp_id group) children loaded) as Hstep.
    unfold outcome in Hstep.
    destruct (loadCollections_children B T _ children loaded s) as [[loaded'|] s1]
      eqn:Hchildren; cbn in Hframe; subst s1; [|discriminate].
    apply IH; [intros g Hg; apply Hids; now right|].
    apply (Hstep loaded' s); [apply Hids; now left|exact Hloaded|].
    now rewrite Hchildren.
Qed.

Lemma loadCollections_groups_rejected (loadedGroups : list Group)
    (loaded : list Collection) (g : Group) (s : State) :
  In g loadedGroups ->
  bookmarks_getChildren T (calls (world s)) (grp_id g) = None ->
  outcome (loadCollections_groups B T loadedGroups loaded) s = Thrown.
Proof.
  intros Hg Hrejected. revert loaded Hg.
  induction loadedGroups as [|group rest IH]; intros loaded Hg; [destruct Hg|].
  cbn. unfold outcome. run.
  destruct (bookmarks_getChildren T _ (grp_id group)) as [children|] eqn:Hchildren;
    [|reflexivity].
  pose proof (loadCollections_children_frame (grp_id group) children loaded s) as Hframe.
  destruct (loadCollections_children B T _ children loaded s) as [[loaded'|] s1];
    cbn in Hframe; subst s1; [|reflexivity].
  destruct Hg as [-> | Hg]; [congruence|]. now apply IH.
Qed.

End LoaderFacts.


(** X13. Every collection that [loadCollections] returns is filed under a
    group that [loadGroups] returns in the same state, carries no
    [expanded] flag yet, and holds only tabs with a url. *)
Theorem loaded_collections_are_in_loaded_groups (B : Browser) (T : BookmarkTree)
    (s : State) (gs : list Group) (cs : list Collection) :
  outcome (loadGroups B T) s = Returned gs ->
  outcome (loadCollections B T) s = Returned cs ->
  forall c, In c cs ->
    (exists g, In g gs /\ grp_id g = col_groupId c) /\
    col_expanded c = None /\
    forall t, In t (col_tabs c) -> tab_url t <> "".
Proof.
  intros Hgs Hcs.
  assert (Hall : Forall (loaded_under (map grp_id gs)) cs).
  { revert Hcs. unfold loadCollections.
    destruct (bookmarks_available T); cbn [negb].
    - destruct (loadGroups_run B T s) as (gs' & r & Hrun & _).
      unfold outcome in Hgs |- *. run. rewrite Hrun in Hgs |- *. cbn in Hgs.
      injection Hgs as ->.
      pose proof (loadCollections_groups_loaded B T (map grp_id gs) gs [] ) as Hloop.
      unfold outcome in Hloop.
      destruct (loadCollections_groups B T gs [] _) as [[cs'|] s1] eqn:Hloaded; cbn.
      + intros [= <-]. eapply Hloop; [| |rewrite Hloaded; reflexivity].
        * intros g Hg. now apply in_map.
        * constructor.
      + intros [= <-]. constructor.
    - unfold outcome. run. intros [= <-]. constructor. }
  intros c Hc. rewrite Forall_forall in Hall.
  destruct (Hall c (proj2 (list_elem_of_In _ _) Hc)) as (Hgroup & Hflag & Htabs).
  apply in_map_iff in Hgroup as (g & Hid & Hg). eauto.
Qed.

(** X14. The collections are loaded all or none: when [getChildren] is
    rejected for one of the groups that [loadGroups] returns,
    [loadCollections] returns the empty list, whatever the other groups
    hold. *)
Theorem one_rejected_group_empties_the_page (B : Browser) (T : BookmarkTree)
    (s : State) (gs : list Group) (g : Group) :
  outcome (loadGroups B T) s = Returned gs ->
  In g gs ->
  bookmarks_getChildren T (calls (world s)) (grp_id g) = None ->
  outcome (loadCollections B T) s = Returned [].
Proof.
  intros Hgs Hg Hrejected. unfold loadCollections.
  destruct (bookmarks_available T); cbn [negb]; [|reflexivity].
  destruct (loadGroups_run B T s) as (gs' & r & Hrun & _).
  unfold outcome in Hgs |- *. run. rewrite Hrun in Hgs |- *. cbn in Hgs.
  injection Hgs as ->.
  pose proof (loadCollections_groups_rejected B T gs [] g (set_rootFolderId r s) Hg Hrejected)
    as Hthrown.
  unfold outcome in Hthrown.
  destruct (loadCollections_groups B T gs [] _) as [[cs'|] s1]; cbn in *;
    [discriminate|reflexivity].
Qed.

(** ** The icon of a tab *)

(** X15. The icon that the page shows for a tab is the [favicon] stored with
    the tab, for every tab that [addTabToCollection] returns and every tab
    that [loadTabsFromFolder] loads: when the stored [favicon] is empty the
    page derives the icon from the url again and finds none either. *)
Theorem shown_icon_is_the_stored_one (B : Browser) (T : BookmarkTree) :
  (forall collectionId title url favicon s t,
     outcome (addTabToCollection B collectionId title url favicon) s = Returned t ->
     AppVue.getFaviconUrl B (tab_url t) (tab_favicon t) = tab_favicon t) /\
  (forall folderId s tabs t,
     outcome (loadTabsFromFolder B T folderId) s = Returned tabs ->
     In t tabs ->
     AppVue.getFaviconUrl B (tab_url t) (tab_favicon t) = tab_favicon t).
Proof.
  assert (Hderived : forall url,
            AppVue.getFaviconUrl B url (getFaviconUrl B url) = getFaviconUrl B url).
  { intros url. unfold AppVue.getFaviconUrl.
    destruct (truthy (getFaviconUrl B url)); reflexivity. }
  split.
  - intros collectionId title url favicon s t.
    unfold addTabToCollection, outcome. run. cbn.
    destruct (bookmarks_create B _ _ _ _) as [bookmark|]; [|discriminate].
    cbn. intros [= <-]. cbn.
    destruct (truthy favicon) eqn:Hfavicon; [|apply Hderived].
    unfold AppVue.getFaviconUrl. now rewrite Hfavicon.
  - intros folderId s tabs t. unfold outcome. rewrite loadTabsFromFolder_run. cbn.
    destruct (bookmarks_getChildren T _ _) as [children|]; [|discriminate].
    intros [= <-] Ht. apply in_map_iff in Ht as (bookmark & <- & _). cbn.
    apply Hderived.
Qed.

(** ** The sidebars *)

Lemma sidebar_step_in_bounds (e : SidebarEvent) (l : Layout) :
  widths_in_bounds l -> widths_in_bounds (sidebar_handle e l).
Proof.
  intros (Hleft & Hright & Hstored).
  unfold widths_in_bounds, left_in_bounds, right_in_bounds in *.
  destruct e; cbn [sidebar_handle].
  - unfold startResizeLeft. destruct (negb _); cbn; auto.
  - unfold resizeLeft. destruct (negb _); [auto|].
    destruct (_ && _) eqn:Htest; cbn; [|auto].
    apply andb_true_iff in Htest as (Hlo & Hhi).
    apply Z.leb_le in Hlo, Hhi. auto.
  - unfold stopResizeLeft, saveSidebarWidths.
    destruct available, set_ok; cbn;
      (split; [exact Hleft|split; [exact Hright|]]); try exact Hstored;
      intros w [= <-]; cbn; auto.
  - unfold startResizeRight. destruct (negb _); cbn; auto.
  - unfold resizeRight. destruct (negb _); [auto|].
    destruct (_ && _) eqn:Htest; cbn; [|auto].
    apply andb_true_iff in Htest as (Hlo & Hhi).
    apply Z.leb_le in Hlo, Hhi. auto.
  - unfold stopResizeRight, saveSidebarWidths.
    destruct available, set_ok; cbn;
      (split; [exact Hleft|split; [exact Hright|]]); try exact Hstored;
      intros w [= <-]; cbn; auto.
  - cbn. auto.
  - cbn. auto.
  - unfold restoreSidebarWidths, loadSidebarWidths.
    destruct available, get_ok; cbn;
      try (split; [lia|]; split; [lia|]; exact Hstored).
    destruct (storedWidths l) as [w|] eqn:Hw; cbn.
    + destruct (Hstored w eq_refl) as (Hwl & Hwr).
      split; [exact Hwl|]. split; [exact Hwr|]. exact Hstored.
    + split; [lia|]. split; [lia|]. exact Hstored.
Qed.

(** X16. The widths of the sidebars stay within the bounds that the resize
    functions test, 180 to 400 for the left and 150 to 350 for the right,
    through every sequence of resize calls, collapse clicks and reopenings
    of the page, wherever the mouse goes and whatever the storage answers,
    as long as the stored widths were within the bounds, or missing, at the
    start: only widths that passed the test are ever written, and they are
    what an opened page takes over without a test. *)
Theorem sidebar_widths_stay_in_bounds (events : list SidebarEvent) (l : Layout) :
  widths_in_bounds l -> widths_in_bounds (sidebar_run events l).
Proof.
  revert l. induction events as [|e rest IH]; intros l Hl; cbn; [exact Hl|].
  apply IH. now apply sidebar_step_in_bounds.
Qed.

Lemma stored_unless_written (events : list SidebarEvent) (l : Layout) :
  forallb (fun e => negb (writes_widths e)) events = true ->
  storedWidths (sidebar_run events l) = storedWidths l.
Proof.
  revert l. induction events as [|e rest IH]; intros l Hnone; cbn; [reflexivity|].
  cbn in Hnone. apply andb_true_iff in Hnone as (He & Hrest).
  rewrite (IH _ Hrest).
  destruct e; cbn in He; try discriminate; cbn [sidebar_handle];
    unfold startResizeLeft, resizeLeft, startResizeRight, resizeRight,
      restoreSidebarWidths, loadSidebarWidths;
    repeat match goal with
      | |- context [if ?b then _ else _] => destruct b
      | |- context [match storedWidths ?l with _ => _ end] =>
          destruct (storedWidths l) eqn:?
      end; cbn; congruence.
Qed.

(** X17. The widths that a resize gesture ends with come back when the page
    is opened again.  When the storage takes the write at the end of a
    gesture, what is stored are the widths shown at that moment; whatever is
    done afterwards that ends no other gesture, a page opened while the
    storage answers shows these widths again. *)
Theorem resized_widths_come_back (l : Layout) (stop : SidebarEvent)
    (later : list SidebarEvent) :
  stop = SbStopResizeLeft true true \/ stop = SbStopResizeRight true true ->
  forallb (fun e => negb (writes_widths e)) later = true ->
  let resized := sidebar_handle stop l in
  let reopened := sidebar_handle (SbOpenPage true true) (sidebar_run later resized) in
  storedWidths resized =
    Some {| sw_left := leftSidebarWidth resized;
            sw_right := rightSidebarWidth resized |} /\
  leftSidebarWidth resized = leftSidebarWidth l /\
  rightSidebarWidth resized = rightSidebarWidth l /\
  leftSidebarWidth reopened = leftSidebarWidth resized /\
  rightSidebarWidth reopened = rightSidebarWidth resized.
Proof.
  intros Hstop Hlater resized reopened.
  assert (Hstored : storedWidths resized =
            Some {| sw_left := leftSidebarWidth resized;
                    sw_right := rightSidebarWidth resized |}).
  { subst resized. destruct Hstop as [-> | ->]; reflexivity. }
  split; [exact Hstored|].
  split; [subst resized; destruct Hstop as [-> | ->]; reflexivity|].
  split; [subst resized; destruct Hstop as [-> | ->]; reflexivity|].
  subst reopened. cbn [sidebar_handle].
  unfold restoreSidebarWidths, loadSidebarWidths. cbn.
  rewrite (stored_unless_written later resized Hlater), Hstored. cbn. auto.
Qed.

(** ** The open tabs of the sidebar *)

(** X18. The sidebar lists the open tabs by almost the test that the drop
    handlers and [saveCurrentTabs] make: a tab is accepted by
    [isValidTabUrl] exactly when [loadOpenTabs] lists it and its url does
    not start with [javascript:].  So every tab that can be saved is
    listed, and the only listed tabs that a drop leaves out are the
    [javascript:] ones. *)
Theorem valid_tabs_are_the_listed_ones_but_javascript (tab : BrowserTab) :
  isValidTabUrl (bt_url tab) =
  listed_as_open tab &&
  negb (String.prefix "javascript:" (default "" (bt_url tab))).
Proof.
  unfold isValidTabUrl, listed_as_open, excludeUrls, some.
  destruct (bt_url tab) as [url|]; [|reflexivity].
  destruct (negb (truthy url)); [reflexivity|].
  cbn [existsb default from_option id].
  destruct (String.prefix "chrome://" url), (String.prefix "chrome-extension://" url),
    (String.prefix "about:" url), (String.prefix "edge://" url),
    (String.prefix "brave://" url), (String.prefix "javascript:" url); reflexivity.
Qed.

(** ** Reordering collections *)

#[local] Instance page_alike_refl : Reflexive page_alike.
Proof. intros s. repeat split. Qed.

#[local] Instance page_alike_trans : Transitive page_alike.
Proof.
  intros s1 s2 s3 (Hc12 & Hg12 & Hs12) (Hc23 & Hg23 & Hs23).
  repeat split; congruence.
Qed.

Lemma page_alike_world (w : World) (s : State) : page_alike s (with_world w s).
Proof. repeat split. Qed.

Lemma saveCollectionOrder_page (B : Browser) : keeps page_alike (saveCollectionOrder B).
Proof.
  destruct (adapters_keep page_alike page_alike_world B)
    as (_ & _ & _ & _ & _ & _ & _ & _ & _ & _ & _ & _ & Hload & Hsave & _).
  unfold saveCollectionOrder.
  keeps_all ltac:(intros ?; repeat split).
Qed.

Lemma onCollectionDrop_page (B : Browser) (s : State) (S T : string) (i j : nat) :
  draggedCollection (drag s) = Some S ->
  S <> "" ->
  S <> T ->
  findIndex (col_has_id S) (collections s) = Some i ->
  findIndex (col_has_id T) (collections s) = Some j ->
  let s' := exec (onCollectionDrop B T) s in
  collections s' = move_item i j (collections s) /\
  groups s' = groups s /\
  selectedGroupId s' = selectedGroupId s.
Proof.
  intros Hdrag HS HST Hi Hj s'. subst s'.
  apply String.eqb_neq in HS, HST.
  unfold onCollectionDrop. run. rewrite Hdrag. unfold truthy. rewrite HS, HST.
  cbn [negb orb]. rewrite Hi, Hj.
  match goal with
  | |- context [saveCollectionOrder B ?s1] =>
      destruct (saveCollectionOrder_page B s1) as (Hc & Hg & Hs);
      destruct (saveCollectionOrder B s1) as [[[]|] s2]
  end; cbn in *; rewrite Hc, Hg, Hs; repeat split.
Qed.

Lemma delete_middle {A} (front back : list A) (x : A) :
  delete (length front) (front ++ x :: back) = front ++ back.
Proof. induction front as [|a front IH]; cbn; [reflexivity|]. f_equal. exact IH. Qed.

Lemma move_item_forwards {A} (front middle back : list A) (x y : A) :
  move_item (length front) (length front + 1 + length middle)
    (front ++ x :: middle ++ y :: back) =
  front ++ middle ++ y :: x :: back.
Proof.
  rewrite (move_item_spec _ _ _ x) by now rewrite list_lookup_middle.
  rewrite delete_middle.
  replace (length front + 1 + length middle)
    with (length (front ++ middle ++ [y])) by (rewrite !length_app; cbn; lia).
  replace (front ++ middle ++ y :: back) with ((front ++ middle ++ [y]) ++ back)
    by (rewrite <- !app_assoc; reflexivity).
  rewrite take_app_length, drop_app_length.
  rewrite <- !app_assoc. reflexivity.
Qed.

Lemma move_item_backwards {A} (front middle back : list A) (x y : A) :
  move_item (length front + 1 + length middle) (length front)
    (front ++ y :: middle ++ x :: back) =
  front ++ x :: y :: middle ++ back.
Proof.
  replace (front ++ y :: middle ++ x :: back)
    with ((front ++ y :: middle) ++ x :: back)
    by (rewrite <- app_assoc; reflexivity).
  replace (length front + 1 + length middle) with (length (front ++ y :: middle))
    by (rewrite length_app; cbn; lia).
  rewrite (move_item_spec _ _ _ x) by now rewrite list_lookup_middle.
  rewrite delete_middle. rewrite <- app_assoc. cbn [app].
  now rewrite take_app_length, drop_app_length.
Qed.

Lemma split_at_two {A} (l : list A) (i j : nat) (x y : A) :
  l !! i = Some x -> l !! j = Some y -> i < j ->
  exists front middle back,
    l = front ++ x :: middle ++ y :: back /\
    length front = i /\ j = length front + 1 + length middle.
Proof.
  intros Hx Hy Hlt.
  pose proof (take_drop_middle l i x Hx) as Hl.
  assert (Hy' : drop (S i) l !! (j - S i) = Some y).
  { rewrite lookup_drop. now replace (S i + (j - S i)) with j by lia. }
  pose proof (take_drop_middle _ _ y Hy') as Hrest.
  exists (take i l), (take (j - S i) (drop (S i) l)), (drop (S (j - S i)) (drop (S i) l)).
  assert (Hi : i < length l) by (apply lookup_lt_is_Some; eauto).
  assert (Hj : j < length l) by (apply lookup_lt_is_Some; eauto).
  rewrite Hrest, Hl. split; [reflexivity|].
  rewrite !length_take, length_drop. lia.
Qed.

Lemma filter_delete_other {A} (p : A -> bool) (l : list A) (i : nat) (x : A) :
  l !! i = Some x -> p x = false -> List.filter p (delete i l) = List.filter p l.
Proof.
  intros Hx Hp. rewrite <- (take_drop_middle l i x Hx) at 2.
  rewrite delete_take_drop, !List.filter_app. cbn. now rewrite Hp.
Qed.

Lemma filter_move_item_other {A} (p : A -> bool) (l : list A) (i j : nat) (x : A) :
  l !! i = Some x -> p x = false ->
  List.filter p (move_item i j l) = List.filter p l.
Proof.
  intros Hx Hp. rewrite (move_item_spec l i j x Hx).
  rewrite List.filter_app. cbn. rewrite Hp, <- List.filter_app, take_drop.
  exact (filter_delete_other p l i x Hx Hp).
Qed.

Lemma filter_move_item {A} (p : A -> bool) (l : list A) (i j : nat) (x y : A) :
  l !! i = Some x -> l !! j = Some y -> i <> j ->
  p x = true -> p y = true ->
  List.filter p (move_item i j l) =
  move_item (length (List.filter p (take i l))) (length (List.filter p (take j l)))
    (List.filter p l).
Proof.
  intros Hx Hy Hij Hpx Hpy.
  destruct (Nat.lt_total i j) as [Hlt | [Heq | Hgt]]; [|contradiction|].
  - destruct (split_at_two l i j x y Hx Hy Hlt)
      as (front & middle & back & -> & <- & ->).
    rewrite move_item_forwards.
    rewrite take_app_length.
    replace (front ++ x :: middle ++ y :: back)
      with ((front ++ x :: middle) ++ y :: back) at 1
      by (rewrite <- app_assoc; reflexivity).
    rewrite (take_app_length' (front ++ x :: middle))
      by (rewrite length_app; cbn; lia).
    rewrite !List.filter_app. cbn [List.filter]. rewrite !List.filter_app.
    cbn [List.filter]. rewrite Hpx, Hpy.
    rewrite length_app. cbn [length].
    replace (length (List.filter p front) + S (length (List.filter p middle)))
      with (length (List.filter p front) + 1 + length (List.filter p middle)) by lia.
    rewrite move_item_forwards. reflexivity.
  - destruct (split_at_two l j i y x Hy Hx Hgt)
      as (front & middle & back & -> & <- & ->).
    rewrite move_item_backwards.
    rewrite take_app_length.
    replace (front ++ y :: middle ++ x :: back)
      with ((front ++ y :: middle) ++ x :: back) at 1
      by (rewrite <- app_assoc; reflexivity).
    rewrite (take_app_length' (front ++ y :: middle))
      by (rewrite length_app; cbn; lia).
    rewrite !List.filter_app. cbn [List.filter]. rewrite !List.filter_app.
    cbn [List.filter]. rewrite Hpx, Hpy.
    rewrite length_app. cbn [length].
    replace (length (List.filter p front) + S (length (List.filter p middle)))
      with (length (List.filter p front) + 1 + length (List.filter p middle)) by lia.
    rewrite move_item_backwards. reflexivity.
Qed.

Lemma findIndex_filter {A} (q p : A -> bool) (l : list A) (i : nat) (x : A) :
  findIndex q l = Some i -> l !! i = Some x -> p x = true ->
  findIndex q (List.filter p l) = Some (length (List.filter p (take i l))).
Proof.
  revert i. induction l as [|a l IH]; intros i Hfound Hx Hp; [discriminate|].
  cbn in Hfound. destruct (q a) eqn:Hq.
  - injection Hfound as <-. cbn in Hx. injection Hx as ->.
    cbn. rewrite Hp. cbn. now rewrite Hq.
  - destruct (findIndex q l) as [i'|] eqn:Hrest; [|discriminate].
    cbn in Hfound. injection Hfound as <-. cbn in Hx.
    specialize (IH i' eq_refl Hx Hp). cbn.
    destruct (p a); cbn; [|exact IH]. now rewrite Hq, IH.
Qed.

(** X19. A collection dropped on another one is moved in the list of all
    collections, from its index to the index of the target.  In the list
    that the page shows, the collections of the selected group, this is the
    same move: the dragged collection goes to the place that the target had
    among the shown ones.  The collections of every group other than that
    of the dragged collection keep their order. *)
Theorem collection_drop_reorders_the_shown_list (B : Browser) (s : State)
    (S T : string) (i j : nat) (cS cT : Collection) :
  draggedCollection (drag s) = Some S ->
  S <> "" ->
  S <> T ->
  findIndex (col_has_id S) (collections s) = Some i ->
  findIndex (col_has_id T) (collections s) = Some j ->
  collections s !! i = Some cS ->
  collections s !! j = Some cT ->
  let s' := exec (onCollectionDrop B T) s in
  (forall g, col_groupId cS <> g ->
     List.filter (in_group g) (collections s') =
     List.filter (in_group g) (collections s)) /\
  (selectedGroupId s <> "" ->
   col_groupId cS = selectedGroupId s ->
   col_groupId cT = selectedGroupId s ->
   exists i' j',
     findIndex (col_has_id S) (currentCollections s) = Some i' /\
     findIndex (col_has_id T) (currentCollections s) = Some j' /\
     currentCollections s' = move_item i' j' (currentCollections s)).
Proof.
  intros Hdrag HS HST Hi Hj HcS HcT s'.
  destruct (onCollectionDrop_page B s S T i j Hdrag HS HST Hi Hj) as (Hc & _ & Hsel).
  fold s' in Hc, Hsel. split.
  - intros g Hg. rewrite Hc. apply (filter_move_item_other _ _ i j cS HcS).
    unfold in_group. now apply String.eqb_neq.
  - intros Hselected HgS HgT.
    assert (Hij : i <> j).
    { intros <-. apply findIndex_Some in Hi as (c1 & Hc1 & Hid1 & _).
      apply findIndex_Some in Hj as (c2 & Hc2 & Hid2 & _).
      unfold col_has_id in Hid1, Hid2. apply String.eqb_eq in Hid1, Hid2.
      congruence. }
    assert (HpS : in_group (selectedGroupId s) cS = true)
      by (unfold in_group; now apply String.eqb_eq).
    assert (HpT : in_group (selectedGroupId s) cT = true)
      by (unfold in_group; now apply String.eqb_eq).
    apply String.eqb_neq in Hselected.
    unfold currentCollections, truthy. rewrite Hsel, Hselected. cbn [negb].
    change (fun c => String.eqb (col_groupId c) (selectedGroupId s))
      with (in_group (selectedGroupId s)).
    eexists _, _.
    split; [exact (findIndex_filter _ _ _ i cS Hi HcS HpS)|].
    split; [exact (findIndex_filter _ _ _ j cT Hj HcT HpT)|].
    rewrite Hc. exact (filter_move_item _ _ i j cS cT HcS HcT Hij HpS HpT).
Qed.

(** ** Renaming *)

(** X20. With a name that does not trim to nothing, each of the three save
    handlers asks the browser once to retitle the bookmark.  When the
    browser accepts, the name on the page becomes the trimmed name, for that
    group, collection or tab alone; when it refuses, the page keeps the old
    name.  In both cases the edit is closed. *)
Theorem rename_takes_effect_when_the_browser_accepts (B : Browser) (s : State) :
  let name := trim B (editingName (editing s)) in
  name <> "" ->
  (forall group g,
     groups s !! group = Some g ->
     let s' := exec (saveGroupName B group) s in
     let log := calls (world s) ++ [CallUpdateGroup (grp_id g) name] in
     calls (world s') = log /\
     groups s' = (if bookmarks_update B log (grp_id g) name
                  then alter (with_grp_name name) group (groups s)
                  else groups s) /\
     collections s' = collections s /\
     editingGroupId (editing s') = None) /\
  (forall collection c,
     collections s !! collection = Some c ->
     let s' := exec (saveCollectionName B collection) s in
     let log := calls (world s) ++ [CallUpdateCollection (col_id c) name] in
     calls (world s') = log /\
     collections s' = (if bookmarks_update B log (col_id c) name
                       then alter (with_col_name name) collection (collections s)
                       else collections s) /\
     groups s' = groups s /\
     editingCollectionId (editing s') = None) /\
  (forall collectionId tabId collection tab,
     findCollection collectionId s = Some collection ->
     findIndex (tab_has_id tabId) (tabs_of collection s) = Some tab ->
     let s' := exec (saveTabName B collectionId tabId) s in
     let log := calls (world s) ++ [CallBookmarksUpdate tabId name] in
     calls (world s') = log /\
     collections s' =
       (if bookmarks_update B log tabId name
        then alter (fun c => with_col_tabs (alter (with_tab_title name) tab (col_tabs c)) c)
               collection (collections s)
        else collections s) /\
     groups s' = groups s /\
     editingTabId (editing s') = None).
Proof.
  intros name Hname. apply String.eqb_neq in Hname.
  split; [|split].
  - intros group g Hg s' log. subst s' log.
    unfold saveGroupName. run. rewrite Hg. fold name. unfold truthy. rewrite Hname.
    cbn [negb]. unfold updateGroupInBookmarks, log. run. cbn.
    destruct (bookmarks_update B _ _ _); cbn; repeat split.
  - intros collection c Hc s' log. subst s' log.
    unfold saveCollectionName. run. rewrite Hc. fold name. unfold truthy. rewrite Hname.
    cbn [negb]. unfold updateCollectionInBookmarks, log. run. cbn.
    destruct (bookmarks_update B _ _ _); cbn; repeat split.
  - intros collectionId tabId collection tab Hcollection Htab s' log. subst s' log.
    unfold saveTabName. run. rewrite Hcollection, Htab. fold name. unfold truthy.
    rewrite Hname. cbn [negb]. unfold browser_bookmarks_update, update_tabs, log. run. cbn.
    destruct (bookmarks_update B _ _ _); cbn; repeat split.
Qed.

(** ** Moving saved tabs *)

Lemma findCollection_Some (id : string) (s : State) (collection : nat) :
  findCollection id s = Some collection ->
  exists c, collections s !! collection = Some c /\ col_id c = id.
Proof.
  intros Hfound. apply findIndex_Some in Hfound as (c & Hc & Hid & _).
  exists c. split; [exact Hc|]. now apply String.eqb_eq.
Qed.

Lemma tabs_of_lookup (collection : nat) (s : State) (c : Collection) :
  collections s !! collection = Some c -> tabs_of collection s = col_tabs c.
Proof. intros Hc. unfold tabs_of. now rewrite Hc. Qed.

Lemma onTabDrop_moves (B : Browser) (collectionId targetTabId : string) (s : State) :
  draggedOpenTab (drag s) = None ->
  TabMove (collections s) (collections (exec (onTabDrop B collectionId targetTabId) s)).
Proof.
  intros Hopen. unfold onTabDrop. run.
  destruct (findCollection collectionId s) as [target|] eqn:Htarget;
    [|now apply TabUnmoved].
  rewrite Hopen.
  destruct (draggedTab (drag s)) as [dt|]; [|now apply TabUnmoved].
  destruct (String.eqb (dt_collectionId dt) collectionId) eqn:Hsame.
  - destruct (findIndex (tab_has_id (dt_tabId dt)) (tabs_of target s))
      as [sourceIndex|] eqn:Hsource; [|now apply TabUnmoved].
    destruct (findIndex (tab_has_id targetTabId) (tabs_of target s))
      as [targetIndex|]; [|now apply TabUnmoved].
    destruct (negb (Nat.eqb sourceIndex targetIndex)); [|now apply TabUnmoved].
    destruct (findCollection_Some _ _ _ Htarget) as (c & Hc & _).
    apply findIndex_Some in Hsource as (moved & Hmoved & _).
    rewrite (tabs_of_lookup _ _ _ Hc) in Hmoved.
    now apply (TabMovedWithin _ _ target sourceIndex targetIndex c moved).
  - destruct (findCollection (dt_collectionId dt) s) as [source|] eqn:Hsource;
      [|now apply TabUnmoved].
    destruct (findCollection_Some _ _ _ Htarget) as (c2 & Hc2 & Hid2).
    destruct (findCollection_Some _ _ _ Hsource) as (c1 & Hc1 & Hid1).
    rewrite (tabs_of_lookup _ _ _ Hc1), (tabs_of_lookup _ _ _ Hc2).
    destruct (findIndex (tab_has_id (dt_tabId dt)) (col_tabs c1))
      as [sourceIndex|] eqn:Hindex; [|now apply TabUnmoved].
    apply findIndex_Some in Hindex as (moved & Hmoved & _).
    cbn [mbind option_bind]. rewrite Hmoved.
    destruct (some (tab_has_url (tab_url moved)) (col_tabs c2)) eqn:Hexists;
      [now apply TabUnmoved|].
    cbn [negb]. rewrite moveTab_run.
    destruct (outcome (moveTab B (dt_tabId dt) collectionId) s) as [[]|];
      [|now apply TabUnmoved].
    unfold take_tab_then, update_tabs. run.
    set (s1 := set_calls _ s).
    rewrite (tabs_of_lookup source s1 c1 Hc1).
    rewrite (splice_remove_one _ _ _ Hmoved).
    cbn.
    apply (TabMovedAcross _ _ source target sourceIndex
             (findIndex (tab_has_id targetTabId) (col_tabs c2)) c1 c2 moved);
      try assumption; [|reflexivity].
    intros ->. apply String.eqb_neq in Hsame. congruence.
Qed.

Lemma onDropToCollection_moves (B : Browser) (targetCollectionId : string) (s : State) :
  draggedOpenTab (drag s) = None ->
  TabMove (collections s)
    (collections (exec (onDropToCollection B targetCollectionId) s)).
Proof.
  intros Hopen. unfold onDropToCollection. run.
  destruct (findCollection targetCollectionId s) as [target|] eqn:Htarget;
    [|now apply TabUnmoved].
  rewrite Hopen.
  destruct (draggedTab (drag s)) as [dt|]; [|now apply TabUnmoved].
  destruct (String.eqb (dt_collectionId dt) targetCollectionId) eqn:Hsame;
    [now apply TabUnmoved|].
  destruct (findCollection (dt_collectionId dt) s) as [source|] eqn:Hsource;
    [|now apply TabUnmoved].
  destruct (findCollection_Some _ _ _ Htarget) as (c2 & Hc2 & Hid2).
  destruct (findCollection_Some _ _ _ Hsource) as (c1 & Hc1 & Hid1).
  rewrite (tabs_of_lookup _ _ _ Hc1), (tabs_of_lookup _ _ _ Hc2).
  destruct (findIndex (tab_has_id (dt_tabId dt)) (col_tabs c1))
    as [tabIndex|] eqn:Hindex; [|now apply TabUnmoved].
  apply findIndex_Some in Hindex as (moved & Hmoved & _).
  rewrite Hmoved.
  destruct (some (tab_has_url (tab_url moved)) (col_tabs c2)) eqn:Hexists;
    [now apply TabUnmoved|].
  cbn [negb]. rewrite moveTab_run.
  destruct (outcome (moveTab B (dt_tabId dt) targetCollectionId) s) as [[]|];
    [|now apply TabUnmoved].
  unfold take_tab_then, update_tabs. run.
  set (s1 := set_calls _ s).
  rewrite (tabs_of_lookup source s1 c1 Hc1).
  rewrite (splice_remove_one _ _ _ Hmoved).
  cbn.
  apply (TabMovedAcross _ _ source target tabIndex None c1 c2 moved);
    try assumption; [|reflexivity].
  intros ->. apply String.eqb_neq in Hsame. congruence.
Qed.

(** *** What a move does to the tabs *)

Lemma insert_or_push_perm (place : option nat) (tab : TabItem) (tabs : list TabItem) :
  insert_or_push place tab tabs ≡ₚ tab :: tabs.
Proof.
  destruct place as [k|]; cbn.
  - rewrite Nat.add_0_r. rewrite <- Permutation_middle. now rewrite take_drop.
  - unfold push. now rewrite Permutation_app_comm.
Qed.

Lemma all_tabs_alter (F : Collection -> Collection) (i : nat)
    (cs : list Collection) (c : Collection) :
  cs !! i = Some c ->
  exists others,
    all_tabs cs ≡ₚ col_tabs c ++ others /\
    all_tabs (alter F i cs) ≡ₚ col_tabs (F c) ++ others.
Proof.
  revert i. induction cs as [|a cs IH]; intros [|i] Hc; try discriminate.
  - injection Hc as ->. exists (all_tabs cs). split; reflexivity.
  - destruct (IH i Hc) as (others & Hbefore & Hafter).
    exists (col_tabs a ++ others). unfold all_tabs in *. cbn.
    rewrite Hbefore, Hafter. split.
    + rewrite !app_assoc. apply Permutation_app_tail, Permutation_app_comm.
    + rewrite !app_assoc. apply Permutation_app_tail, Permutation_app_comm.
Qed.

Lemma TabMove_all_tabs (cs cs' : list Collection) :
  TabMove cs cs' -> all_tabs cs' ≡ₚ all_tabs cs.
Proof.
  intros [-> | collection index target c moved Hc Hmoved ->
              | source target index place c1 c2 moved Hne Hc1 Hc2 Hmoved Hnew ->].
  - reflexivity.
  - destruct (all_tabs_alter
                (fun c => with_col_tabs (move_item index target (col_tabs c)) c)
                collection cs c Hc) as (others & Hbefore & Hafter).
    rewrite Hbefore, Hafter. cbn [col_tabs with_col_tabs].
    now rewrite move_item_perm_any.
  - set (cs1 := alter (fun c => with_col_tabs (delete index (col_tabs c1)) c) source cs).
    assert (Hc2' : cs1 !! target = Some c2).
    { subst cs1. rewrite list_lookup_alter_ne by exact Hne. exact Hc2. }
    destruct (all_tabs_alter
                (fun c => with_col_tabs (insert_or_push place moved (col_tabs c)) c)
                target cs1 c2 Hc2') as (others2 & Hbefore2 & Hafter2).
    destruct (all_tabs_alter
                (fun c => with_col_tabs (delete index (col_tabs c1)) c)
                source cs c1 Hc1) as (others1 & Hbefore1 & Hafter1).
    fold cs1 in Hafter1. cbn [col_tabs with_col_tabs] in Hafter1, Hafter2.
    rewrite Hafter2, insert_or_push_perm. cbn [app]. rewrite <- Hbefore2, Hafter1.
    rewrite Hbefore1. rewrite <- (take_drop_middle _ _ _ Hmoved) at 2.
    rewrite delete_take_drop. rewrite <- !app_assoc. cbn.
    now rewrite <- Permutation_middle.
Qed.

Lemma TabMove_frames (cs cs' : list Collection) :
  TabMove cs cs' -> map (with_col_tabs []) cs' = map (with_col_tabs []) cs.
Proof.
  assert (Halter : forall (f : Collection -> list TabItem) i (l : list Collection),
            map (with_col_tabs []) (alter (fun c => with_col_tabs (f c) c) i l) =
            map (with_col_tabs []) l).
  { intros f i l. revert i. induction l as [|a l IH]; intros [|i]; cbn;
      try reflexivity; f_equal; apply IH. }
  intros [-> | collection index target c moved Hc Hmoved ->
              | source target index place c1 c2 moved Hne Hc1 Hc2 Hmoved Hnew ->].
  - reflexivity.
  - apply (Halter (fun c => move_item index target (col_tabs c))).
  - rewrite (Halter (fun c => insert_or_push place moved (col_tabs c))).
    apply (Halter (fun _ => delete index (col_tabs c1))).
Qed.





(** X21. A drop of a saved tab, on a tab or on a collection, neither loses
    nor duplicates a tab, whatever the browser answers: the tabs of the
    page are the same ones, up to their order and the collection they are
    in, and the collections are the same apart from their tabs. *)
Theorem saved_tab_drop_conserves_tabs (B : Browser) (s : State) :
  draggedOpenTab (drag s) = None ->
  (forall collectionId targetTabId,
     let s' := exec (onTabDrop B collectionId targetTabId) s in
     all_tabs (collections s') ≡ₚ all_tabs (collections s) /\
     map (with_col_tabs []) (collections s') = map (with_col_tabs []) (collections s)) /\
  (forall targetCollectionId,
     let s' := exec (onDropToCollection B targetCollectionId) s in
     all_tabs (collections s') ≡ₚ all_tabs (collections s) /\
     map (with_col_tabs []) (collections s') = map (with_col_tabs []) (collections s)).
Proof.
  intros Hopen. split.
  - intros collectionId targetTabId s'.
    pose proof (onTabDrop_moves B collectionId targetTabId s Hopen) as Hmove.
    split; [now apply TabMove_all_tabs|now apply TabMove_frames].
  - intros targetCollectionId s'.
    pose proof (onDropToCollection_moves B targetCollectionId s Hopen) as Hmove.
    split; [now apply TabMove_all_tabs|now apply TabMove_frames].
Qed.

(** *** Drops of open tabs *)





(** *** The handlers that bring no tab *)

#[local] Instance keeps_urls_distinct_refl : Reflexive keeps_urls_distinct.
Proof. intros s Hd. exact Hd. Qed.

#[local] Instance keeps_urls_distinct_trans : Transitive keeps_urls_distinct.
Proof. intros s1 s2 s3 H12 H23 Hd. auto. Qed.















(** ** The highlights of the sorting drags *)

#[local] Instance same_sorting_refl : Reflexive same_sorting.
Proof. intros s. reflexivity. Qed.

#[local] Instance same_sorting_trans : Transitive same_sorting.
Proof. intros s1 s2 s3 H12 H23. unfold same_sorting in *. congruence. Qed.

Lemma same_sorting_world (w : World) (s : State) : same_sorting s (with_world w s).
Proof. reflexivity. Qed.

Ltac keeps_sorting := keeps_all ltac:(intros ?; reflexivity).

Lemma saveCurrentTabs_loop_keeps_sorting (B : Browser) (collectionId : string)
    (collection : nat) (existingUrls : gset string) (tabs : list BrowserTab) :
  keeps same_sorting (saveCurrentTabs_loop B collectionId collection existingUrls tabs).
Proof.
  destruct (adapters_keep same_sorting same_sorting_world B) as (_ & _ & Hadd & _).
  induction tabs as [|tab rest IH]; cbn [saveCurrentTabs_loop];
    unfold console_error, update_tabs; keeps_sorting.
Qed.

Lemma onDropToCollection_keeps_sorting (B : Browser) (targetCollectionId : string) :
  keeps same_sorting (onDropToCollection B targetCollectionId).
Proof.
  destruct (adapters_keep same_sorting same_sorting_world B)
    as (? & ? & ? & ? & ? & ? & ? & ? & ? & ? & ? & ? & ? & ? & ? & ?).
  unfold onDropToCollection, take_tab_then, update_tabs, console_error.
  keeps_sorting.
Qed.

Lemma handlers_keep_sorting (B : Browser) (e : Event) :
  touches_sorting e = false -> keeps same_sorting (handle B e).
Proof.
  destruct (adapters_keep same_sorting same_sorting_world B)
    as (? & ? & ? & ? & ? & ? & ? & ? & ? & ? & ? & ? & ? & ? & ? & ?).
  pose proof (saveCurrentTabs_loop_keeps_sorting B).
  destruct e; cbn [touches_sorting handle]; try discriminate; intros _;
    unfold createGroup, deleteGroup, startEditGroup, saveGroupName,
      createCollection, deleteCollection,
      toggleCollectionExpand, startEditCollection, saveCollectionName,
      saveCurrentTabs, deleteTab, startEditTab, saveTabName, onDragStart,
      onDragStartOpenTab, onTabDragOver, onTabDrop, take_tab_then, update_tabs,
      console_error, alert;
    keeps_sorting.
Qed.

Lemma highlights_same_sorting (s s' : State) :
  same_sorting s s' -> highlights_consistent s -> highlights_consistent s'.
Proof.
  unfold same_sorting, sorting_markers, highlights_consistent.
  intros [= Hg Hog Hc Hoc]. now rewrite Hg, Hog, Hc, Hoc.
Qed.

Lemma onGroupDrop_markers (B : Browser) (targetGroupId : string) (s : State) :
  sorting_markers (exec (onGroupDrop B targetGroupId) s) =
  (None, None, draggedCollection (drag s), dragOverCollectionForSort (drag s)).
Proof.
  unfold onGroupDrop. run.
  destruct (draggedGroup (drag s)) as [dragged|]; [|reflexivity].
  destruct (_ || _); [reflexivity|].
  destruct (findIndex (grp_has_id dragged) (groups s)) as [sourceIndex|];
    [|reflexivity].
  destruct (findIndex (grp_has_id targetGroupId) (groups s)) as [targetIndex|];
    [|reflexivity].
  match goal with
  | |- context [moveGroupToIndex B ?id ?index ?s1] =>
      destruct (moveGroupToIndex_frame B id index s1) as (r & Hframe);
      destruct (moveGroupToIndex B id index s1) as [[[]|] s2]
  end; cbn in Hframe; subst; reflexivity.
Qed.

Lemma saveCollectionOrder_returns (B : Browser) (s : State) :
  exists w, saveCollectionOrder B s = (Returned tt, with_world w s).
Proof.
  unfold saveCollectionOrder, loadCollectionUIStates, saveCollectionUIStates, log,
    console_error.
  run.
  destruct (storage_available B); cbn.
  - destruct (storage_get_ok B _); cbn; destruct (storage_set_ok B _); cbn;
      eexists; reflexivity.
  - eexists. reflexivity.
Qed.

Lemma onCollectionDrop_markers (B : Browser) (targetCollectionId : string) (s : State) :
  sorting_markers (exec (onCollectionDrop B targetCollectionId) s) =
  (draggedGroup (drag s), dragOverGroupId (drag s), None, None).
Proof.
  unfold onCollectionDrop. run.
  destruct (draggedCollection (drag s)) as [dragged|]; [|reflexivity].
  destruct (_ || _); [reflexivity|].
  destruct (findIndex (col_has_id dragged) (collections s)) as [sourceIndex|];
    [|reflexivity].
  destruct (findIndex (col_has_id targetCollectionId) (collections s))
    as [targetIndex|]; [|reflexivity].
  match goal with
  | |- context [saveCollectionOrder B ?s1] =>
      destruct (saveCollectionOrder_returns B s1) as (w & ->)
  end.
  reflexivity.
Qed.

Lemma highlights_step (B : Browser) (current : option Marker) (e : Event) (s : State) :
  within current s ->
  (forall m, starts e = Some m -> current = None) ->
  highlights_consistent s ->
  highlights_consistent (exec (handle B e) s).
Proof.
  intros Hwithin Hstart (Hgroup & Hcollection).
  destruct (touches_sorting e) eqn:Hkind;
    [|exact (highlights_same_sorting _ _ (handlers_keep_sorting B e Hkind s)
               (conj Hgroup Hcollection))].
  pose proof (conj Hgroup Hcollection : highlights_consistent s) as Hs.
  destruct e; try discriminate; cbn [handle].
  - (* a group drag starts *)
    specialize (Hstart GroupMarker eq_refl). subst current.
    assert (Hnone : draggedGroup (drag s) = None).
    { destruct (draggedGroup (drag s)) eqn:Hd; [|reflexivity].
      specialize (Hwithin GroupMarker). cbn in Hwithin. rewrite Hd in Hwithin.
      discriminate Hwithin. apply bool_decide_eq_true. eauto. }
    split; cbn; [|exact Hcollection].
    intros g Hg. destruct (Hgroup g Hg) as (d & Hd & _). congruence.
  - (* over a group *)
    unfold onGroupDragOver. run.
    destruct (draggedGroup (drag s)) as [dragged|] eqn:Hdragged;
      [|exact Hs].
    destruct (negb (truthy dragged)) eqn:Hempty; [exact Hs|].
    destruct (String.eqb dragged id) eqn:Hsame; [exact Hs|].
    split; cbn; [|exact Hcollection].
    intros g [= <-]. exists dragged. split; [exact Hdragged|].
    split; [|now apply String.eqb_neq].
    intros ->. discriminate.
  - (* leaving a group *)
    split; cbn; [|exact Hcollection]. intros g Hg. discriminate.
  - (* dropped on a group *)
    pose proof (onGroupDrop_markers B id s) as Hmarkers.
    unfold sorting_markers in Hmarkers. injection Hmarkers as Hg Hog Hc Hoc.
    split.
    + intros g Hover. rewrite Hog in Hover. discriminate.
    + rewrite Hc, Hoc. exact Hcollection.
  - (* the group drag ends *)
    split; cbn; [|exact Hcollection]. intros g Hg. discriminate.
  - (* a tab or collection drag ends *)
    split; cbn; [exact Hgroup|]. intros c Hc. discriminate.
  - (* a collection drag starts *)
    specialize (Hstart CollectionMarker eq_refl). subst current.
    assert (Hnone : draggedCollection (drag s) = None).
    { destruct (draggedCollection (drag s)) eqn:Hd; [|reflexivity].
      specialize (Hwithin CollectionMarker). cbn in Hwithin. rewrite Hd in Hwithin.
      discriminate Hwithin. apply bool_decide_eq_true. eauto. }
    split; cbn; [exact Hgroup|].
    intros c Hc. destruct (Hcollection c Hc) as (d & Hd & _). congruence.
  - (* over a collection card *)
    unfold collection_card_dragover, onCollectionDragOver, onDragOverCollection. run.
    destruct (truthy_opt (draggedCollection (drag s))) eqn:Htruthy; [|exact Hs].
    cbn beta.
    destruct (draggedCollection (drag s)) as [dragged|] eqn:Hdragged; [|discriminate].
    cbn [truthy_opt] in Htruthy. rewrite Htruthy. cbn [negb orb].
    destruct (String.eqb dragged collectionId) eqn:Hsame; [exact Hs|].
    split; cbn; [exact Hgroup|].
    intros c [= <-]. exists dragged. split; [exact Hdragged|].
    split; [|now apply String.eqb_neq].
    intros ->. discriminate.
  - (* leaving a collection card *)
    split; cbn; [exact Hgroup|]. intros c Hc. discriminate.
  - (* dropped on a collection card *)
    assert (Hcases : exec (collection_card_drop B collectionId) s =
                     if truthy_opt (draggedCollection (drag s))
                     then exec (onCollectionDrop B collectionId) s
                     else exec (onDropToCollection B collectionId) s).
    { unfold collection_card_drop. run. now destruct (truthy_opt _). }
    rewrite Hcases.
    destruct (truthy_opt (draggedCollection (drag s))).
    + pose proof (onCollectionDrop_markers B collectionId s) as Hmarkers.
      unfold sorting_markers in Hmarkers. injection Hmarkers as Hg Hog Hc Hoc.
      split.
      * rewrite Hg, Hog. exact Hgroup.
      * intros c Hover. rewrite Hoc in Hover. discriminate.
    + exact (highlights_same_sorting _ _ (onDropToCollection_keeps_sorting B _ s)
               (conj Hgroup Hcollection)).
Qed.

(** X23. A group is highlighted as the place of a sorting drop only while
    another group is being dragged, and a collection only while another
    collection is: when the drags come in turn, each ended before the next
    starts, then after every sequence of events a set [dragOverGroupId]
    comes with a non-empty [draggedGroup] other than it, and a set
    [dragOverCollectionForSort] with a non-empty [draggedCollection] other
    than it. *)
Theorem sorting_highlight_needs_a_sorting_drag (B : Browser) (events : list Event)
    (current : option Marker) (s : State) :
  within current s ->
  highlights_consistent s ->
  drags_in_turn current events ->
  highlights_consistent (run_events B events s).
Proof.
  revert current s. induction events as [|e rest IH]; intros current s Hw Hh Hturn; cbn.
  - exact Hh.
  - destruct Hturn as (Hstart & Hrest).
    assert (Hstart' : forall m, starts e = Some m -> current = None).
    { intros m Hm. apply Hstart. rewrite Hm. eauto. }
    apply (IH (drag_after current e)); [|  |exact Hrest].
    + now apply within_step.
    + now apply (highlights_step B current).
Qed.

(** * The further properties on the example pages *)

Lemma ui_state_read_back_witness :
  storage_works granting_browser /\
  plain_key "C2" /\
  exists read,
    outcome (loadCollectionUIStates granting_browser)
      (exec (updateCollectionUIState granting_browser "C2" (Some true) None)
         mirrored_page) = Returned read /\
    read !! "C2" = Some {| expanded := true; order := 1 |} /\
    read !! "C1" = Some {| expanded := false; order := 0 |}.
Proof.
  assert (Hworks : storage_works granting_browser) by (repeat split).
  assert (Hplain : plain_key "C2") by reflexivity.
  split; [exact Hworks|]. split; [exact Hplain|].
  destruct (ui_state_read_back granting_browser mirrored_page "C2" (Some true) None
              Hworks) as (Hupdate & _).
  destruct (Hupdate Hplain) as (read & Hread & Hid & Hother).
  exists read. split; [exact Hread|]. split; [exact Hid|].
  rewrite Hother by discriminate. reflexivity.
Defined.


Lemma expanding_an_unordered_collection_moves_it_first_witness :
  let s' := exec (toggleCollectionExpand granting_browser 1) example_page in
  let reopened := set_uiStore (uiStore (world s')) initial_state in
  storage_works granting_browser /\
  plain_key "C2" /\
  uiStore (world example_page) = None /\
  exists uiStates,
    outcome (loadCollectionUIStates granting_browser) reopened = Returned uiStates /\
    uiStates !! "C2" = Some {| expanded := true; order := 0 |} /\
    map col_id (restoreCollections [collection_C1; collection_C2] uiStates)
      = ["C2"; "C1"].
Proof.
  intros s' reopened.
  assert (Hworks : storage_works granting_browser) by (repeat split).
  assert (Hnone : forall x, In x ([collection_C1] ++ collection_C2 :: []) ->
            default ∅ (uiStore (world example_page)) !! col_id x = None).
  { intros x _. apply lookup_empty. }
  assert (Hother : forall x, In x ([collection_C1] ++ []) ->
            col_id x <> col_id collection_C2).
  { intros x [<- | []]. discriminate. }
  destruct (expanding_an_unordered_collection_moves_it_first granting_browser
              example_page 1 collection_C2 collection_C2 [collection_C1] []
              Hworks eq_refl eq_refl eq_refl Hnone Hother)
    as (saved & Hsaved & _ & Hreopen).
  destruct (Hreopen reopened eq_refl) as (uiStates & Hread & Hrecord & Hrestore).
  split; [exact Hworks|]. split; [reflexivity|]. split; [reflexivity|].
  exists uiStates. split; [exact Hread|]. split; [exact Hrecord|exact Hrestore].
Defined.

Lemma deleteCollection_outcomes_witness :
  let s' := exec (deleteCollection granting_browser "C1") mirrored_page in
  confirm granting_browser (calls (world mirrored_page)) = true /\
  outcome (deleteCollectionInBookmarks granting_browser "C1") mirrored_page
    = Returned tt /\
  storage_works granting_browser /\
  collections s' = [collection_C2] /\
  uiStore (world s') =
    Some (delete "C1" (default ∅ (uiStore (world mirrored_page)))).
Proof.
  intros s'.
  assert (Hworks : storage_works granting_browser) by (repeat split).
  destruct (deleteCollection_outcomes granting_browser mirrored_page "C1")
    as (_ & _ & Hdone).
  destruct (Hdone eq_refl eq_refl) as (Hcollections & _ & Hstore).
  split; [reflexivity|]. split; [reflexivity|]. split; [exact Hworks|].
  split; [exact Hcollections|exact (Hstore Hworks)].
Defined.

Lemma deleteGroup_keeps_ui_states_witness :
  let s' := exec (deleteGroup granting_browser "g1") mirrored_page in
  confirm granting_browser (calls (world mirrored_page)) = true /\
  outcome (deleteGroupInBookmarks granting_browser "g1") mirrored_page = Returned tt /\
  ~ In collection_C1 (collections s') /\
  exists saved',
    uiStore (world s') = Some saved' /\
    saved' !! "C1" = Some {| expanded := false; order := 0 |}.
Proof.
  intros s'.
  destruct (deleteGroup_keeps_ui_states granting_browser mirrored_page "g1")
    as (_ & Hdeleted).
  destruct (Hdeleted eq_refl eq_refl collection_C1 _ {| expanded := false; order := 0 |}
              (or_introl eq_refl) eq_refl eq_refl eq_refl) as (Hgone & Hkept).
  split; [reflexivity|]. split; [reflexivity|]. split; [exact Hgone|exact Hkept].
Defined.

Lemma root_folder_is_cached_witness :
  let s' := exec (getOrCreateRootFolder granting_browser) example_page in
  outcome (getOrCreateRootFolder granting_browser) example_page = Returned "n0" /\
  rootFolderId (world example_page) = None /\
  rootFolderId (world s') = Some "n0" /\
  getOrCreateRootFolder granting_browser s' = (Returned "n0", s').
Proof.
  intros s'.
  destruct (root_folder_is_cached granting_browser example_page) as (Hreturned & _).
  destruct (Hreturned "n0" eq_refl) as (Hcached & Hagain).
  assert (Hne : "n0" <> "") by discriminate.
  split; [reflexivity|]. split; [reflexivity|].
  split; [exact Hcached|exact (Hagain Hne eq_refl)].
Defined.

Lemma createGroup_outcomes_witness :
  let s' := exec (createGroup granting_browser) typing_group_page in
  trim granting_browser (newGroupName (dialogs typing_group_page)) = "Play" /\
  exists g,
    outcome (createGroupInBookmarks granting_browser "Play") typing_group_page
      = Returned g /\
    grp_name g = "Play" /\
    groups s' = [group_g1; group_g2; g] /\
    selectedGroupId s' = grp_id g /\
    showAddGroup (dialogs s') = false.
Proof.
  intros s'.
  destruct (createGroup_outcomes granting_browser typing_group_page)
    as (_ & Hcreated & _).
  assert (Hname : trim granting_browser (newGroupName (dialogs typing_group_page)) <> "")
    by discriminate.
  eassert (Hg : outcome (createGroupInBookmarks granting_browser "Play")
                  typing_group_page = Returned _) by reflexivity.
  destruct (Hcreated Hname _ Hg) as (Hgroups & Hselected & _ & Hdialog & _).
  split; [reflexivity|]. eexists. split; [exact Hg|].
  split; [reflexivity|]. split; [exact Hgroups|]. split; [exact Hselected|exact Hdialog].
Defined.

Lemma createCollection_outcomes_witness :
  let s' := exec (createCollection granting_browser) typing_collection_page in
  trim granting_browser (newCollectionName (dialogs typing_collection_page)) = "Later" /\
  selectedGroupId typing_collection_page = "g1" /\
  exists c,
    outcome (createCollectionInBookmarks granting_browser "Later" "g1")
      typing_collection_page = Returned c /\
    col_name c = "Later" /\
    col_groupId c = "g1" /\
    currentCollections s' = [collection_C1; collection_C2; c] /\
    showAddCollection (dialogs s') = false.
Proof.
  intros s'.
  destruct (createCollection_outcomes granting_browser typing_collection_page)
    as (_ & Hcreated & _).
  assert (Hname : trim granting_browser
                    (newCollectionName (dialogs typing_collection_page)) <> "")
    by discriminate.
  assert (Hselected : selectedGroupId typing_collection_page <> "") by discriminate.
  eassert (Hc : outcome (createCollectionInBookmarks granting_browser "Later" "g1")
                  typing_collection_page = Returned _) by reflexivity.
  destruct (Hcreated Hname Hselected _ Hc)
    as (Hgroup & _ & _ & Hshown & _ & Hdialog & _).
  split; [reflexivity|]. split; [reflexivity|]. eexists. split; [exact Hc|].
  split; [reflexivity|]. split; [exact Hgroup|]. split; [exact Hshown|exact Hdialog].
Defined.

Lemma collections_stay_in_listed_groups_witness :
  let s' := run_events granting_browser example_clicks example_page in
  groups_referenced example_page /\
  selection_listed example_page /\
  selects_listed granting_browser example_clicks example_page /\
  groups_referenced s' /\
  selection_listed s'.
Proof.
  intros s'.
  assert (Href : groups_referenced example_page).
  { intros c [<-|[<-|[]]]; exists group_g1; split; try reflexivity; left; reflexivity. }
  assert (Hsel : selection_listed example_page).
  { right. exists group_g1. split; [left; reflexivity|reflexivity]. }
  assert (Hclicks : selects_listed granting_browser example_clicks example_page).
  { split; [|repeat split].
    exists group_g2. split; [right; left; reflexivity|reflexivity]. }
  destruct (collections_stay_in_listed_groups granting_browser example_clicks
              example_page Href Hsel Hclicks) as (Href' & Hsel').
  split; [exact Href|]. split; [exact Hsel|]. split; [exact Hclicks|].
  split; [exact Href'|exact Hsel'].
Defined.

Lemma saveCurrentTabs_only_appends_witness :
  let s' := exec (saveCurrentTabs granting_browser "C1") example_page in
  outcome (browser_tabs_query granting_browser) example_page = Returned example_open_tabs /\
  findCollection "C1" example_page = Some 0 /\
  creates_always granting_browser /\
  exists added,
    collections s' = alter (append_tabs added) 0 (collections example_page) /\
    length added = 1.
Proof.
  intros s'.
  assert (Hcreate : creates_always granting_browser) by (intros ? ? ? ?; eexists; reflexivity).
  destruct (saveCurrentTabs_only_appends granting_browser "C1" example_page
              example_open_tabs 0 eq_refl eq_refl)
    as (added & Hcollections & _ & _ & Hall).
  split; [reflexivity|]. split; [reflexivity|]. split; [exact Hcreate|].
  exists added. split; [exact Hcollections|].
  rewrite (Hall Hcreate). vm_compute. reflexivity.
Defined.


Lemma loaded_collections_are_in_loaded_groups_witness :
  let docs :=
    {| col_id := "C1"; col_name := "Docs";
       col_tabs := [tab_of_bookmark stocked_browser
                      (bookmark_node "t1" "A" "https://a.com")];
       col_createdAt := 1600000000000%Z; col_groupId := "g1"; col_expanded := None |} in
  outcome (loadGroups stocked_browser example_tree) example_page =
    Returned [group_of_folder 0 (folder_node "g1" "Work");
              group_of_folder 0 (folder_node "g2" "Home")] /\
  outcome (loadCollections stocked_browser example_tree) example_page = Returned [docs] /\
  (exists g,
     In g [group_of_folder 0 (folder_node "g1" "Work");
           group_of_folder 0 (folder_node "g2" "Home")] /\
     grp_id g = "g1") /\
  forall t, In t (col_tabs docs) -> tab_url t <> "".
Proof.
  intros docs.
  assert (Hgs : outcome (loadGroups stocked_browser example_tree) example_page =
                Returned [group_of_folder 0 (folder_node "g1" "Work");
                          group_of_folder 0 (folder_node "g2" "Home")])
    by reflexivity.
  assert (Hcs : outcome (loadCollections stocked_browser example_tree) example_page =
                Returned [docs]) by reflexivity.
  destruct (loaded_collections_are_in_loaded_groups stocked_browser example_tree
              example_page _ _ Hgs Hcs docs (or_introl eq_refl))
    as (Hgroup & _ & Htabs).
  split; [exact Hgs|]. split; [exact Hcs|]. split; [exact Hgroup|exact Htabs].
Defined.

Lemma one_rejected_group_empties_the_page_witness :
  outcome (loadGroups stocked_browser broken_tree) example_page =
    Returned [group_of_folder 0 (folder_node "g1" "Work");
              group_of_folder 0 (folder_node "g2" "Home")] /\
  bookmarks_getChildren broken_tree (calls (world example_page)) "g2" = None /\
  outcome (loadCollections stocked_browser broken_tree) example_page = Returned [].
Proof.
  assert (Hgs : outcome (loadGroups stocked_browser broken_tree) example_page =
                Returned [group_of_folder 0 (folder_node "g1" "Work");
                          group_of_folder 0 (folder_node "g2" "Home")])
    by reflexivity.
  split; [exact Hgs|]. split; [reflexivity|].
  apply (one_rejected_group_empties_the_page stocked_browser broken_tree example_page
           _ (group_of_folder 0 (folder_node "g2" "Home")) Hgs);
    [right; left; reflexivity|reflexivity].
Defined.

Lemma shown_icon_is_the_stored_one_witness :
  exists t,
    outcome (addTabToCollection granting_browser "C1" "D" "https://d.com" "") example_page
      = Returned t /\
    tab_favicon t = "https://www.google.com/s2/favicons?domain=d.com&sz=32" /\
    AppVue.getFaviconUrl granting_browser (tab_url t) (tab_favicon t) = tab_favicon t.
Proof.
  destruct (shown_icon_is_the_stored_one granting_browser example_tree) as (Hadded & _).
  eassert (Ht : outcome (addTabToCollection granting_browser "C1" "D" "https://d.com" "")
                  example_page = Returned _) by reflexivity.
  eexists. split; [exact Ht|]. split; [reflexivity|].
  exact (Hadded _ _ _ _ _ _ Ht).
Defined.

Lemma sidebar_widths_stay_in_bounds_witness :
  let l' := sidebar_run example_resize (initial_layout None) in
  widths_in_bounds (initial_layout None) /\
  widths_in_bounds l' /\
  leftSidebarWidth l' = 300%Z.
Proof.
  intros l'.
  assert (Hstart : widths_in_bounds (initial_layout None)).
  { unfold widths_in_bounds, left_in_bounds, right_in_bounds. cbn.
    split; [lia|]. split; [lia|]. intros w Hw. discriminate. }
  split; [exact Hstart|].
  split; [exact (sidebar_widths_stay_in_bounds example_resize _ Hstart)|reflexivity].
Defined.

Lemma resized_widths_come_back_witness :
  let l := sidebar_run [SbStartResizeLeft; SbResizeLeft 300] (initial_layout None) in
  let later := [SbToggleGroups; SbStartResizeRight; SbResizeRight 700 1000] in
  let resized := sidebar_handle (SbStopResizeLeft true true) l in
  let reopened := sidebar_handle (SbOpenPage true true) (sidebar_run later resized) in
  forallb (fun e => negb (writes_widths e)) later = true /\
  storedWidths resized = Some {| sw_left := 300; sw_right := 220 |} /\
  leftSidebarWidth reopened = 300%Z /\
  rightSidebarWidth reopened = 220%Z.
Proof.
  intros l later resized reopened.
  destruct (resized_widths_come_back l (SbStopResizeLeft true true) later
              (or_introl eq_refl) eq_refl)
    as (Hstored & _ & _ & Hleft & Hright).
  split; [reflexivity|]. split; [exact Hstored|]. split; [exact Hleft|exact Hright].
Defined.

Lemma collection_drop_reorders_the_shown_list_witness :
  let s' := exec (onCollectionDrop rejecting_browser "C1") dragging_collection_page in
  draggedCollection (drag dragging_collection_page) = Some "C2" /\
  currentCollections dragging_collection_page = [collection_C1; collection_C2] /\
  currentCollections s' = [collection_C2; collection_C1] /\
  List.filter (in_group "g2") (collections s') = [].
Proof.
  intros s'.
  assert (Hne : "C2" <> "") by discriminate.
  assert (Hother : "C2" <> "C1") by discriminate.
  destruct (collection_drop_reorders_the_shown_list rejecting_browser
              dragging_collection_page "C2" "C1" 1 0 collection_C2 collection_C1
              eq_refl Hne Hother eq_refl eq_refl eq_refl eq_refl)
    as (Hothers & Hshown).
  assert (Hselected : selectedGroupId dragging_collection_page <> "") by discriminate.
  destruct (Hshown Hselected eq_refl eq_refl) as (i' & j' & Hi' & Hj' & Hmoved).
  vm_compute in Hi'. vm_compute in Hj'. injection Hi' as <-. injection Hj' as <-.
  split; [reflexivity|]. split; [reflexivity|]. split; [exact Hmoved|].
  assert (Hgroup : col_groupId collection_C2 <> "g2") by discriminate.
  exact (Hothers "g2" Hgroup).
Defined.

Lemma rename_takes_effect_when_the_browser_accepts_witness :
  let s' := exec (saveCollectionName granting_browser 0) renaming_collection_page in
  trim granting_browser (editingName (editing renaming_collection_page)) = "Reading" /\
  calls (world s') = [CallUpdateCollection "C1" "Reading"] /\
  collections s' = [with_col_name "Reading" collection_C1; collection_C2] /\
  editingCollectionId (editing s') = None.
Proof.
  intros s'.
  assert (Hname : trim granting_browser (editingName (editing renaming_collection_page))
                  <> "") by discriminate.
  destruct (rename_takes_effect_when_the_browser_accepts granting_browser
              renaming_collection_page Hname) as (_ & Hcollection & _).
  destruct (Hcollection 0 collection_C1 eq_refl) as (Hcalls & Hcollections & _ & Hclosed).
  split; [reflexivity|]. split; [exact Hcalls|].
  split; [exact Hcollections|exact Hclosed].
Defined.

Lemma saved_tab_drop_conserves_tabs_witness :
  let s' := exec (onDropToCollection granting_browser "C2") dragging_tab_b_page in
  draggedOpenTab (drag dragging_tab_b_page) = None /\
  map col_tabs (collections s') = [[tab_a]; [tab_a_again; tab_c; tab_b]] /\
  all_tabs (collections s') ≡ₚ [tab_a; tab_b; tab_a_again; tab_c].
Proof.
  intros s'.
  destruct (saved_tab_drop_conserves_tabs granting_browser dragging_tab_b_page eq_refl)
    as (_ & Hdrop).
  destruct (Hdrop "C2") as (Hsame & _).
  split; [reflexivity|]. split; [reflexivity|exact Hsame].
Defined.


Lemma sorting_highlight_needs_a_sorting_drag_witness :
  let s' := run_events granting_browser (take 6 example_gestures) example_page in
  within None example_page /\
  highlights_consistent example_page /\
  drags_in_turn None (take 6 example_gestures) /\
  dragOverGroupId (drag s') = Some "g1" /\
  highlights_consistent s'.
Proof.
  intros s'.
  assert (Hwithin : within None example_page) by (intros [ | | | ] Hm; discriminate).
  assert (Hnone : highlights_consistent example_page)
    by (split; intros x Hx; discriminate).
  assert (Hturn : drags_in_turn None (take 6 example_gestures)).
  { repeat split; intros [m Hm]; discriminate. }
  split; [exact Hwithin|]. split; [exact Hnone|]. split; [exact Hturn|].
  split; [reflexivity|].
  exact (sorting_highlight_needs_a_sorting_drag granting_browser
           (take 6 example_gestures) None example_page Hwithin Hnone Hturn).
Defined.
